(** * Session / transcript core of the interview-summary application

    A shallow embedding of the state-handling code of the repository:

    - [audioUtils]  : [createPcmBlob], [base64Encode], [arrayBufferToBase64]
                      (the audio utility module);
    - [LiveApp]     : the [App] component that merges live transcription
                      fragments ([processTranscriptUpdate], [updateTranscript],
                      [analyzeAudioAndDiarize], [generateSummary],
                      [startRecording] and the callbacks of the connection,
                      [stopRecording], [removeDocument]);
    - [SrcApp]      : the [App] component of [src/App.tsx] ([updateTranscript],
                      [analyzeAudioAndDiarize], [generateSummary],
                      [getApiKey], [startRecording], [stopRecording],
                      [handleFileUpload], [fileToBase64], [removeDocument]);
    - [SummaryPanel]: the gating of the generate button, the template and
                      the instruction the panel holds;
    - [TranscriptView]: the three views, the speaker labels and the CSV
                      export;
    - [SrcScreen]   : the page of [src/App.tsx], one stretch of a handler
                      at a time: a handler runs only when the element that
                      calls it is rendered, and goes on when what it awaits
                      settles.

    React state is passed explicitly; [useRef] cells are fields of the state;
    an [await]ed external call is an input of the handler (its outcome) and an
    entry of the effect trace the handler returns. *)

From Stdlib Require Import ZArith QArith List String Ascii Bool Lia.
From stdpp Require Import base list strings pretty.

Local Open Scope Z_scope.
Local Open Scope string_scope.

(** ** JavaScript values and the built-ins the handlers rely on *)

(** A value produced by [JSON.parse], or [undefined] (a missing property).
    A number is carried by its canonical [Number::toString] image, which is
    all the handlers ever observe of it; an object by its own properties,
    each key once. *)
#[warnings="-register-all"]
Inductive JValue : Type :=
  | JUndefined
  | JNull
  | JBool (b : bool)
  | JNum (repr : string)
  | JStr (s : string)
  | JArr (items : list JValue)
  | JObj (fields : list (string * JValue)).

(** Normal or abrupt completion of a [try] block; [Throw m] carries the
    [message] of the thrown [Error]. *)
Inductive Completion (A : Type) : Type :=
  | Normal (a : A)
  | Throw (message : string).
Arguments Normal {A} a.
Arguments Throw {A} message.

#[global] Instance Completion_ret : MRet Completion := fun A a => Normal a.

#[global] Instance Completion_bind : MBind Completion := fun A B k c =>
  match c with
  | Normal a => k a
  | Throw m => Throw m
  end.

(** The value of property [k] among [fields]; [undefined] when absent. *)
Fixpoint assoc (k : string) (fields : list (string * JValue)) : JValue :=
  match fields with
  | [] => JUndefined
  | (k', v) :: rest => if String.eqb k' k then v else assoc k rest
  end.

(** [v.k] for a property name that no prototype defines ([speaker],
    [text]).  [None] is the [TypeError] of reading a property of [null] or
    [undefined]; a primitive or an array has no such property. *)
Definition getProp (v : JValue) (k : string) : option JValue :=
  match v with
  | JUndefined | JNull => None
  | JObj fields => Some (assoc k fields)
  | JBool _ | JNum _ | JStr _ | JArr _ => Some JUndefined
  end.

(** [v === s] for a string [s]. *)
Definition strictEqStr (v : JValue) (s : string) : bool :=
  match v with
  | JStr s' => String.eqb s' s
  | _ => false
  end.

(** [Array.prototype.join] on already converted elements. *)
Fixpoint join (sep : string) (l : list string) : string :=
  match l with
  | [] => ""
  | [x] => x
  | x :: rest => x +:+ sep +:+ join sep rest
  end.

(** [ToString], as used by template literals and by [+] with a string. *)
Fixpoint ToString (v : JValue) : string :=
  match v with
  | JUndefined => "undefined"
  | JNull => "null"
  | JBool true => "true"
  | JBool false => "false"
  | JNum repr => repr
  | JStr s => s
  | JArr items =>
      join "," ((fix elems (l : list JValue) : list string :=
                   match l with
                   | [] => []
                   | JUndefined :: l' => "" :: elems l'
                   | JNull :: l' => "" :: elems l'
                   | x :: l' => ToString x :: elems l'
                   end) items)
  | JObj _ => "[object Object]"
  end.

(** [v + s] for a string [s]: string concatenation after [ToString]. *)
Definition addStr (v : JValue) (s : string) : JValue := JStr (ToString v +:+ s).

(** Truthiness of a string ([!s] is its negation). *)
Definition truthy (s : string) : bool := negb (String.eqb s "").

Definition truthyOpt (o : option string) : bool :=
  match o with
  | Some s => truthy s
  | None => false
  end.

(** The built-ins whose result depends on the engine: they are taken as an
    interface, with the facts about them that the handlers depend on. *)
Class JsRuntime : Type := {
  (** [JSON.parse]; [Throw m] is its [SyntaxError]. *)
  JSON_parse : string -> Completion JValue;
  JSON_parse_empty : exists m, JSON_parse "" = Throw m;
  (** [String.prototype.trim]. *)
  trim : string -> string;
  trim_empty : trim "" = "";
  (** [s.replace(/```json\s*/g, '').replace(/```/g, '')]. *)
  stripFences : string -> string;
  stripFences_empty : stripFences "" = "";
  (** [message] of the [TypeError] raised by a bad call or property read. *)
  typeErrorMessage : string;
  (** [Date.prototype.toLocaleTimeString]. *)
  toLocaleTimeString : Z -> string
}.

(** ** Audio utilities *)

Module audioUtils.

(** An element of a [Float32Array], read as a number.  Every finite
  single-precision value is a rational; the products formed below
  (by [0x8000] and [0x7FFF]) are exact in double precision, so rational
  arithmetic computes the same numbers. *)
Inductive Sample : Type :=
| NaN
| PosInfinity
| NegInfinity
| Finite (q : Q).

(** [Math.min(1, x)] *)
Definition min1 (x : Sample) : Sample :=
match x with
| NaN => NaN
| PosInfinity => Finite 1
| NegInfinity => NegInfinity
| Finite q => if Qle_bool 1 q then Finite 1 else Finite q
end.

(** [Math.max(-1, x)] *)
Definition maxNeg1 (x : Sample) : Sample :=
match x with
| NaN => NaN
| PosInfinity => PosInfinity
| NegInfinity => Finite (-1)
| Finite q => if Qle_bool q (-1) then Finite (-1) else Finite q
end.

(** [x < 0] *)
Definition ltZero (x : Sample) : bool :=
match x with
| NaN => false
| PosInfinity => false
| NegInfinity => true
| Finite q => negb (Qle_bool 0 q)
end.

(** [x * k] for a positive integer constant [k]. *)
Definition scaleBy (x : Sample) (k : Z) : Sample :=
match x with
| Finite q => Finite (q * inject_Z k)
| other => other
end.

(** Truncation of a rational toward zero. *)
Definition truncate (q : Q) : Z := Z.quot (Qnum q) (Z.pos (Qden q)).

(** Two's-complement wrap of an integer into 16 bits. *)
Definition wrap16 (n : Z) : Z :=
let m := n mod 65536 in
if Z.leb 32768 m then m - 65536 else m.

(** The conversion applied by a store into an [Int16Array] ([ToInt16]). *)
Definition ToInt16 (x : Sample) : Z :=
match x with
| Finite q => wrap16 (truncate q)
| _ => 0
end.

(** The loop body of [createPcmBlob]: the value stored in [int16[i]]. *)
Definition encodeSample (x : Sample) : Z :=
let s := maxNeg1 (min1 x) in
ToInt16 (if ltZero s then scaleBy s 32768 else scaleBy s 32767).

(** [new Uint8Array(int16.buffer)]: the two bytes of each element, least
  significant first (typed arrays use the platform order, little-endian
  on every platform the application runs on). *)
Definition int16Bytes (n : Z) : list Z :=
[Z.land n 255; Z.land (Z.shiftr n 8) 255].

Definition bufferOf (int16 : list Z) : list Z := flat_map int16Bytes int16.

(** The base64 alphabet of [btoa]. *)
Definition b64char (n : Z) : ascii :=
if Z.ltb n 26 then ascii_of_N (Z.to_N (n + 65))
else if Z.ltb n 52 then ascii_of_N (Z.to_N (n - 26 + 97))
else if Z.ltb n 62 then ascii_of_N (Z.to_N (n - 52 + 48))
else if Z.eqb n 62 then "+"%char
else "/"%char.

(** [btoa] on a binary string given by its char codes (all below 256). *)
Fixpoint btoa (binary : list Z) : string :=
match binary with
| [] => ""
| [a] =>
    String (b64char (Z.shiftr a 2))
      (String (b64char (Z.shiftl (Z.land a 3) 4)) "==")
| [a; b] =>
    String (b64char (Z.shiftr a 2))
      (String (b64char (Z.lor (Z.shiftl (Z.land a 3) 4) (Z.shiftr b 4)))
         (String (b64char (Z.shiftl (Z.land b 15) 2)) "="))
| a :: b :: c :: rest =>
    String (b64char (Z.shiftr a 2))
      (String (b64char (Z.lor (Z.shiftl (Z.land a 3) 4) (Z.shiftr b 4)))
         (String (b64char (Z.lor (Z.shiftl (Z.land b 15) 2) (Z.shiftr c 6)))
            (String (b64char (Z.land c 63)) (btoa rest))))
end.

(** [base64Encode]: the loop builds the binary string one
  [String.fromCharCode(bytes[i])] at a time, then calls [btoa]. *)
Definition base64Encode (bytes : list Z) : string :=
btoa (fold_left (fun binary b => (binary ++ [b])%list) bytes []).

(** [arrayBufferToBase64]: the same loop over [new Uint8Array(buffer)]. *)
Definition arrayBufferToBase64 (buffer : list Z) : string :=
btoa (fold_left (fun binary b => (binary ++ [b])%list) buffer []).

Record AudioBlob : Type := { data : string; mimeType : string }.

Definition createPcmBlob (samples : list Sample) : AudioBlob :=
let int16 := map encodeSample samples in
{| data := base64Encode (bufferOf int16);
   mimeType := "audio/pcm;rate=16000" |}.

(** Two readings of the same number (a rational has several fractions). *)
Definition sameSample (x y : Sample) : Prop :=
match x, y with
| NaN, NaN => True
| PosInfinity, PosInfinity => True
| NegInfinity, NegInfinity => True
| Finite p, Finite q => (p == q)%Q
| _, _ => False
end.

End audioUtils.

(** ** Data model ([types.ts], [constants.ts]) *)

Inductive AppStatus : Type := IDLE | CONNECTING | RECORDING | PROCESSING | ERROR.

#[global] Instance AppStatus_eq_dec : EqDecision AppStatus.
Proof. solve_decision. Defined.

(** [TranscriptItem].  The type annotations are erased at run time and the
    diarization handlers store the fields of the parsed response as they
    come ([item: any]), so [speaker] and [text] hold a JavaScript value;
    [timestamp] is the [Date] in milliseconds. *)
Module TranscriptItem.
Record t : Type := mk {
  id : string;
  speaker : JValue;
  text : JValue;
  timestamp : Z;
  isFinal : bool
}.
End TranscriptItem.

Module SummaryTemplate.
Record t : Type := mk {
  id : string;
  name : string;
  description : string;
  prompt : string
}.
End SummaryTemplate.

Module RagDocument.
Record t : Type := mk {
  id : string;
  name : string;
  content : string;
  type : string
}.
End RagDocument.

(** A [Blob]: its bytes and its MIME type. *)
Module Blob.
Record t : Type := mk {
  bytes : list Z;
  type : string
}.
End Blob.

(** The character [U+0022], which the text constants below splice in. *)
Definition dq : string := String (ascii_of_nat 34) "".

Definition TEMPLATES : list SummaryTemplate.t :=
  [ {| SummaryTemplate.id := "monitoring";
       SummaryTemplate.name := "モニタリング (Monitoring)";
       SummaryTemplate.description := "日々の活動状況や体調変化の確認用";
       SummaryTemplate.prompt := "
以下の面談記録に基づき、就労移行支援のモニタリング報告書形式で要約してください。
構成:
1. 現在の体調・メンタル状況
2. 訓練の進捗状況
3. 生活リズム（睡眠・食事など）
4. 今後の目標・課題
" |};
    {| SummaryTemplate.id := "assessment";
       SummaryTemplate.name := "アセスメント (Assessment)";
       SummaryTemplate.description := "初期評価や課題の再評価用";
       SummaryTemplate.prompt := "
以下の面談記録に基づき、アセスメントシート形式で要約してください。
構成:
1. 本人の希望（就労意欲、職種など）
2. 就労に向けた強み（ストレングス）
3. 就労阻害要因・課題
4. 必要な配慮事項
5. 支援方針の提案
" |};
    {| SummaryTemplate.id := "review";
       SummaryTemplate.name := "支援計画振り返り (Review)";
       SummaryTemplate.description := "個別支援計画の達成度確認用";
       SummaryTemplate.prompt := "
以下の面談記録に基づき、支援計画の振り返りを作成してください。
構成:
1. 期間中の目標達成度（A/B/C評価とその理由）
2. 本人の自己評価
3. 支援員からの他者評価
4. 次期の目標設定案
" |};
    {| SummaryTemplate.id := "free";
       SummaryTemplate.name := "自由形式 (Free)";
       SummaryTemplate.description := "一般的な要約";
       SummaryTemplate.prompt := "面談の内容を重要なポイントを箇条書きで整理し、簡潔に要約してください。" |} ].

Definition diarizationPrompt_live : string :=
  "
                    この音声は就労移行支援事業所での面談記録です。以下の手順で処理してください。
                    
                    1. 音声全体を正確に書き起こしてください。
                    2. 話者分離を行ってください。主な話者は「支援員(Staff)」と「利用者(Client)」です。
                    3. 音声に含まれていない情報の捏造は絶対にしないでください。
                    4. 結果をJSON配列で出力してください。
                    ".

Definition diarizationPrompt_src : string :=
  ("
この音声は、就労移行支援事業所での「支援員(Staff)」と「利用者(Client)」の面談記録です。
以下の手順で処理を行ってください：

1. 話者を「Staff」と「Client」に分離してください。
   - 敬語を使っている、質問している、指導している方が「Staff」です。
   - 自身の体調や状況を話している方が「Client」です。
2. 音声認識の誤りを修正し、自然な日本語の書き起こしを作成してください。
   - " +:+ dq +:+ "あー" +:+ dq +:+ "、" +:+ dq +:+ "えー" +:+ dq +:+ " などのフィラーは削除。
   - 文脈に沿って句読点を付与。
   - 音声に含まれていない情報は絶対に追記しないこと（ハルシネーション対策）。
3. 結果を以下のJSON形式で出力してください。
   [
     { " +:+ dq +:+ "speaker" +:+ dq +:+ ": " +:+ dq +:+ "Staff" +:+ dq +:+ ", " +:+ dq +:+ "text" +:+ dq +:+ ": " +:+ dq +:+ "..." +:+ dq +:+ ", " +:+ dq +:+ "timestamp" +:+ dq +:+ ": " +:+ dq +:+ "00:00" +:+ dq +:+ " },
     { " +:+ dq +:+ "speaker" +:+ dq +:+ ": " +:+ dq +:+ "Client" +:+ dq +:+ ", " +:+ dq +:+ "text" +:+ dq +:+ ": " +:+ dq +:+ "..." +:+ dq +:+ ", " +:+ dq +:+ "timestamp" +:+ dq +:+ ": " +:+ dq +:+ "00:05" +:+ dq +:+ " }
   ]
").

Definition MODEL_NAMES_LIVE : string := "gemini-2.5-flash-native-audio-preview-09-2025".
Definition MODEL_NAMES_SUMMARY : string := "gemini-2.5-flash".

(** [TEMPLATES.find(t => t.id === templateId)] *)
Definition findTemplate (templateId : string) : option SummaryTemplate.t :=
  List.find (fun t => String.eqb (SummaryTemplate.id t) templateId) TEMPLATES.

(** ** The external generation service *)

Inductive Part : Type :=
  | TextPart (text : string)
  | InlineData (mimeType data : string).

(** A [generateContent] request; [responseSchema] tells whether the request
    carries the array-of-[{speaker, text}] schema. *)
Record Request : Type := {
  model : string;
  parts : list Part;
  systemInstruction : option string;
  responseMimeType : option string;
  responseSchema : bool
}.

(** What a handler does to the outside world. *)
Inductive Effect : Type :=
  | GenerateContent (req : Request)
  | Alert (message : string).

(** The outcome of an awaited [generateContent]: the promise rejects with an
    error, or resolves to a response whose [text] may be [undefined]. *)
Inductive Reply : Type :=
  | Rejected (message : string)
  | Responded (text : option string).

(** [response.text || fallback] *)
Definition textOr (text : option string) (fallback : string) : string :=
  match text with
  | Some s => if truthy s then s else fallback
  | None => fallback
  end.

Definition nl : string := String (ascii_of_nat 10) "".

(** The ids of a transcript, in order. *)
Definition ids (l : list TranscriptItem.t) : list string :=
  map TranscriptItem.id l.

(** Concatenation of texts in list order. *)
Definition concatAll (l : list string) : string := foldr String.append "" l.

(** ** Array helpers shared by the two diarization handlers *)

Section ArrayMap.
Context `{JsRuntime}.
Context {T : Type}.

(** The callback is applied to the elements in index order; the first
    one that throws aborts the whole [map]. *)
Fixpoint mapItems (f : nat -> JValue -> Completion T) (index : nat)
    (items : list JValue) : Completion (list T) :=
  match items with
  | [] => Normal []
  | item :: rest =>
      t ← f index item;
      ts ← mapItems f (S index) rest;
      Normal (t :: ts)
  end.

(** [parsed.map(f)]: a [TypeError] unless [parsed] is an array. *)
Definition arrayMap (f : nat -> JValue -> Completion T) (parsed : JValue)
    : Completion (list T) :=
  match parsed with
  | JArr items => mapItems f 0 items
  | _ => Throw typeErrorMessage
  end.
End ArrayMap.

(** ** The browser's media interfaces *)

(** [s.includes(sub)] *)
Fixpoint includes (s sub : string) : bool :=
  String.prefix sub s
  || match s with
     | String _ rest => includes rest sub
     | EmptyString => false
     end.

(** The error with which [getUserMedia] rejects: its [name], and its
    [message] when it has one. *)
Record MediaError : Type := {
  errorName : string;
  errorMessage : option string
}.

(** [new Blob(chunks, { type: 'audio/webm' })] *)
Definition recordingOf (chunks : list Blob.t) : Blob.t :=
  {| Blob.bytes := concat (map Blob.bytes chunks); Blob.type := "audio/webm" |}.

(** ** The component with live transcript merging *)

Module LiveApp.

(** The [useState] cells and the two [useRef] cells of the component that
    the handlers below read or write. *)
Record State : Type := mkState {
  status : AppStatus;
  transcripts : list TranscriptItem.t;
  summary : string;
  documents : list RagDocument.t;
  errorMsg : option string;
  recordedBlob : option Blob.t;
  hasPostProcessed : bool;
  isSessionFinished : bool;
  activeTranscriptIdRef : option string;
  lastUpdateTimeRef : Z
}.

Definition initial : State :=
  {| status := IDLE; transcripts := []; summary := ""; documents := [];
     errorMsg := None; recordedBlob := None; hasPostProcessed := false;
     isSessionFinished := false;
     activeTranscriptIdRef := None; lastUpdateTimeRef := 0 |}.

Definition setStatus (v : AppStatus) (st : State) : State :=
  mkState v (transcripts st) (summary st) (documents st) (errorMsg st)
    (recordedBlob st) (hasPostProcessed st) (isSessionFinished st)
    (activeTranscriptIdRef st) (lastUpdateTimeRef st).

Definition setTranscripts (v : list TranscriptItem.t) (st : State) : State :=
  mkState (status st) v (summary st) (documents st) (errorMsg st)
    (recordedBlob st) (hasPostProcessed st) (isSessionFinished st)
    (activeTranscriptIdRef st) (lastUpdateTimeRef st).

Definition setSummary (v : string) (st : State) : State :=
  mkState (status st) (transcripts st) v (documents st) (errorMsg st)
    (recordedBlob st) (hasPostProcessed st) (isSessionFinished st)
    (activeTranscriptIdRef st) (lastUpdateTimeRef st).

Definition setErrorMsg (v : option string) (st : State) : State :=
  mkState (status st) (transcripts st) (summary st) (documents st) v
    (recordedBlob st) (hasPostProcessed st) (isSessionFinished st)
    (activeTranscriptIdRef st) (lastUpdateTimeRef st).

Definition setHasPostProcessed (v : bool) (st : State) : State :=
  mkState (status st) (transcripts st) (summary st) (documents st)
    (errorMsg st) (recordedBlob st) v (isSessionFinished st)
    (activeTranscriptIdRef st) (lastUpdateTimeRef st).

(** Writes to [activeTranscriptIdRef.current] and [lastUpdateTimeRef.current]. *)
Definition setActiveTranscriptId (v : option string) (st : State) : State :=
  mkState (status st) (transcripts st) (summary st) (documents st)
    (errorMsg st) (recordedBlob st) (hasPostProcessed st)
    (isSessionFinished st) v (lastUpdateTimeRef st).

Definition setLastUpdateTime (v : Z) (st : State) : State :=
  mkState (status st) (transcripts st) (summary st) (documents st)
    (errorMsg st) (recordedBlob st) (hasPostProcessed st)
    (isSessionFinished st) (activeTranscriptIdRef st) v.

Definition TIME_THRESHOLD_MS : Z := 3000.

(** [{ ...lastItem, text: lastItem.text + text, isFinal: false }] *)
Definition appendText (lastItem : TranscriptItem.t) (text : string)
    : TranscriptItem.t :=
  TranscriptItem.mk (TranscriptItem.id lastItem)
    (TranscriptItem.speaker lastItem)
    (addStr (TranscriptItem.text lastItem) text)
    (TranscriptItem.timestamp lastItem) false.

(** The entry pushed by the [else] branch; [date] is its [new Date()]. *)
Definition newEntry (newId speaker text : string) (date : Z)
    : TranscriptItem.t :=
  TranscriptItem.mk newId (JStr speaker) (JStr text) date true.

(** [processTranscriptUpdate(currentTranscripts, text, now, speaker)]:
    returns the new array together with the state whose two refs the call
    has written.  [now] is a [Date.now()] reading, an integer number of
    milliseconds, and [now.toString()] is its decimal numeral. *)
Definition processTranscriptUpdate (st : State)
    (currentTranscripts : list TranscriptItem.t)
    (text : string) (now : Z) (speaker : string) (date : Z)
    : State * list TranscriptItem.t :=
  let newTranscripts := currentTranscripts in
  let lastId := activeTranscriptIdRef st in
  let lastItem :=
    list_find (fun t => Some (TranscriptItem.id t) = lastId) newTranscripts in
  let isRecent :=
    bool_decide (now - lastUpdateTimeRef st < TIME_THRESHOLD_MS) in
  let pushNew :=
    let newId : string := pretty now in
    (setLastUpdateTime now (setActiveTranscriptId (Some newId) st),
     (newTranscripts ++ [newEntry newId speaker text date])%list) in
  match lastItem with
  | Some (lastItemIndex, lastItem) =>
      if strictEqStr (TranscriptItem.speaker lastItem) speaker && isRecent
      then (setLastUpdateTime now st,
            <[lastItemIndex := appendText lastItem text]> newTranscripts)
      else pushNew
  | None => pushNew
  end.

Section Handlers.
Context `{JsRuntime}.

(** [handleTranscriptChunk(text)]; [now] is [Date.now()]. *)
Definition handleTranscriptChunk (st : State) (text : string)
    (now date : Z) : State :=
  if negb (truthy (trim text)) then st
  else
    let '(st', newTranscripts) :=
      processTranscriptUpdate st (transcripts st) text now "Staff" date in
    setTranscripts newTranscripts st'.

(** [updateTranscript(id, newText)] *)
Definition updateTranscript (st : State) (id newText : string) : State :=
  setTranscripts
    (map (fun t =>
            if String.eqb (TranscriptItem.id t) id
            then TranscriptItem.mk (TranscriptItem.id t)
                   (TranscriptItem.speaker t) (JStr newText)
                   (TranscriptItem.timestamp t) (TranscriptItem.isFinal t)
            else t)
         (transcripts st))
    st.

(** The callback of [parsed.map] in [analyzeAudioAndDiarize]; [clock i]
    is the [new Date()] read for element [i]. *)
Definition toTranscriptItem (clock : nat -> Z) (index : nat)
    (item : JValue) : Completion TranscriptItem.t :=
  match getProp item "speaker", getProp item "text" with
  | Some speaker, Some text =>
      Normal (TranscriptItem.mk ("post-process-" +:+ pretty index)
                speaker text (clock index) true)
  | _, _ => Throw typeErrorMessage
  end.

Definition MAX_BASE64_LENGTH : Z := 19 * 1024 * 1024.

Definition diarizationRequest (targetBlob : Blob.t) (base64Audio : string)
    : Request :=
  {| model := "gemini-2.5-flash";
     parts :=
       [InlineData
          (if truthy (Blob.type targetBlob) then Blob.type targetBlob
           else "audio/webm")
          base64Audio;
        TextPart diarizationPrompt_live];
     systemInstruction := None;
     responseMimeType := Some "application/json";
     responseSchema := true |}.

(** The [try] block of [analyzeAudioAndDiarize]: the requests it sends
    and how it completes. *)
Definition diarize (targetBlob : Blob.t) (reply : Reply)
    (clock : nat -> Z) : list Effect * Completion (list TranscriptItem.t) :=
  let base64Audio := audioUtils.arrayBufferToBase64 (Blob.bytes targetBlob) in
  if bool_decide (MAX_BASE64_LENGTH < Z.of_nat (String.length base64Audio))
  then ([], Throw "録音データが大きすぎます（約60分以上）。CSVエクスポートで保存してください。")
  else
    ([GenerateContent (diarizationRequest targetBlob base64Audio)],
     match reply with
     | Rejected message => Throw message
     | Responded jsonText =>
         if negb (truthyOpt jsonText) then Throw "Empty response"
         else
           parsed ← JSON_parse (default "" jsonText);
           arrayMap (toTranscriptItem clock) parsed
     end).

(** [analyzeAudioAndDiarize(blobToAnalyze?)] with [process.env.API_KEY]
    given as [apiKey]. *)
Definition analyzeAudioAndDiarize (st : State) (apiKey : option string)
    (blobToAnalyze : option Blob.t) (reply : Reply) (clock : nat -> Z)
    : State * list Effect :=
  let targetBlob :=
    match blobToAnalyze with
    | Some b => Some b
    | None => recordedBlob st
    end in
  match targetBlob with
  | None => (st, [])
  | Some targetBlob =>
      if negb (truthyOpt apiKey) then (st, [])
      else
        let st := setErrorMsg None (setStatus PROCESSING st) in
        let '(effects, completion) := diarize targetBlob reply clock in
        let st :=
          match completion with
          | Normal newTranscripts =>
              setHasPostProcessed true (setTranscripts newTranscripts st)
          | Throw message =>
              setErrorMsg (Some ("分析処理に失敗しました: " +:+ message)) st
          end in
        (setStatus IDLE st, effects)
  end.

(** One line of the conversation log in [generateSummary]. *)
Definition transcriptLine (t : TranscriptItem.t) : string :=
  "[" +:+ toLocaleTimeString (TranscriptItem.timestamp t) +:+ "] "
  +:+ (if strictEqStr (TranscriptItem.speaker t) "Staff"
       then "支援員" else "利用者")
  +:+ ": " +:+ ToString (TranscriptItem.text t).

Definition documentParts (doc : RagDocument.t) : list Part :=
  if String.eqb (RagDocument.type doc) "text/plain"
  then [TextPart (nl +:+ "--- " +:+ RagDocument.name doc +:+ " ---" +:+ nl
                  +:+ RagDocument.content doc +:+ nl
                  +:+ "----------------" +:+ nl)]
  else [InlineData (RagDocument.type doc) (RagDocument.content doc);
        TextPart ("(上記は資料: " +:+ RagDocument.name doc +:+ ")")].

Definition summaryRequest (st : State) (templateId customInstruction : string)
    : Request :=
  let template := findTemplate templateId in
  let transcriptText :=
    "【面談記録】" +:+ nl +:+ join nl (map transcriptLine (transcripts st)) in
  let promptText :=
    match template with
    | Some t => SummaryTemplate.prompt t
    | None => "undefined"
    end
    +:+ nl
    +:+ (if truthy customInstruction
         then "追加指示: " +:+ customInstruction else "")
    +:+ nl +:+ nl +:+ "対象データ:" +:+ nl +:+ transcriptText in
  let parts :=
    (TextPart promptText ::
     match documents st with
     | [] => []
     | docs =>
         TextPart (nl +:+ nl +:+ "【参照資料】" +:+ nl
                   +:+ "以下の資料も考慮して要約を作成してください。")
         :: flat_map documentParts docs
     end) in
  {| model := MODEL_NAMES_SUMMARY; parts := parts;
     systemInstruction := None; responseMimeType := None;
     responseSchema := false |}.

(** [generateSummary(templateId, customInstruction)] *)
Definition generateSummary (st : State) (apiKey : option string)
    (templateId customInstruction : string) (reply : Reply)
    : State * list Effect :=
  if negb (truthyOpt apiKey) then (st, [])
  else
    let req := summaryRequest st templateId customInstruction in
    let st := setStatus PROCESSING st in
    let st :=
      match reply with
      | Responded text => setSummary (textOr text "要約生成失敗") st
      | Rejected message =>
          setErrorMsg (Some ("要約生成エラー: " +:+ message)) st
      end in
    (setStatus IDLE st, [GenerateContent req]).

(** [resetSession()]; [confirmed] is the answer to [window.confirm]
    when the handler asks. *)
Definition resetSession (st : State) (confirmed : bool) : State :=
  let asks :=
    bool_decide (status st = RECORDING)
    || negb (Nat.eqb (length (transcripts st)) 0)
    || truthy (summary st)
    || negb (Nat.eqb (length (documents st)) 0)
    || bool_decide (is_Some (recordedBlob st)) in
  if asks && negb confirmed then st
  else
    {| status := IDLE; transcripts := []; summary := ""; documents := [];
       errorMsg := None; recordedBlob := None; hasPostProcessed := false;
       isSessionFinished := false;
       activeTranscriptIdRef := None;
       lastUpdateTimeRef := lastUpdateTimeRef st |}.

(** The condition under which the start button is rendered. *)
Definition canStartRecording (st : State) : bool :=
  (bool_decide (status st = IDLE) || bool_decide (status st = ERROR)
   || (bool_decide (status st = PROCESSING) && truthy (summary st)))
  && negb (hasPostProcessed st) && negb (isSessionFinished st).

(** What can happen to a session, one handler at a time. *)
Inductive Event : Type :=
  | Chunk (text : string) (now date : Z)
  | Merge (text : string) (now : Z) (speaker : string) (date : Z)
  | Edit (id newText : string)
  | Diarize (apiKey : option string) (blobToAnalyze : option Blob.t)
      (reply : Reply) (clock : nat -> Z)
  | Reset (confirmed : bool).

Definition step (st : State) (e : Event) : State :=
  match e with
  | Chunk text now date => handleTranscriptChunk st text now date
  | Merge text now speaker date =>
      let '(st', newTranscripts) :=
        processTranscriptUpdate st (transcripts st) text now speaker date in
      setTranscripts newTranscripts st'
  | Edit id newText => updateTranscript st id newText
  | Diarize apiKey blob reply clock =>
      fst (analyzeAudioAndDiarize st apiKey blob reply clock)
  | Reset confirmed => resetSession st confirmed
  end.

Definition run (st : State) (events : list Event) : State :=
  fold_left step events st.

(** A live fragment: its text, the [Date.now()] at its arrival and the
    [new Date()] read when an entry is created for it. *)
Record Fragment : Type := {
  fragmentText : string;
  arrival : Z;
  created : Z
}.

Definition mergeEvent (speaker : string) (f : Fragment) : Event :=
  Merge (fragmentText f) (arrival f) speaker (created f).

(** Each reading is less than the threshold after the one before. *)
Fixpoint withinThreshold (prev : Z) (nows : list Z) : Prop :=
  match nows with
  | [] => True
  | now :: rest => now - prev < TIME_THRESHOLD_MS /\ withinThreshold now rest
  end.

(** Each reading is later than the one before. *)
Fixpoint increasingFrom (prev : Z) (nows : list Z) : Prop :=
  match nows with
  | [] => True
  | now :: rest => prev < now /\ increasingFrom now rest
  end.

Definition strictlyIncreasing (nows : list Z) : Prop :=
  match nows with
  | [] => True
  | now :: rest => increasingFrom now rest
  end.

(** The [Date.now()] readings of a run, in order. *)
Definition clockReadings (events : list Event) : list Z :=
  flat_map (fun e =>
              match e with
              | Chunk _ now _ => [now]
              | Merge _ now _ _ => [now]
              | _ => []
              end) events.





(** The condition under which the overlay that tells of the analysis of
    the recording is rendered. *)
Definition analysisOverlay (st : State) : bool :=
  bool_decide (status st = PROCESSING) && negb (truthy (summary st)).

(** *** Reference documents *)

Definition setDocuments (v : list RagDocument.t) (st : State) : State :=
  mkState (status st) (transcripts st) (summary st) v (errorMsg st)
    (recordedBlob st) (hasPostProcessed st) (isSessionFinished st)
    (activeTranscriptIdRef st) (lastUpdateTimeRef st).

(** [removeDocument(id)] *)
Definition removeDocument (st : State) (id : string) : State :=
  setDocuments
    (List.filter (fun d => negb (String.eqb (RagDocument.id d) id))
       (documents st))
    st.

(** *** Starting and stopping a recording *)

Definition setRecordedBlob (v : option Blob.t) (st : State) : State :=
  mkState (status st) (transcripts st) (summary st) (documents st)
    (errorMsg st) v (hasPostProcessed st) (isSessionFinished st)
    (activeTranscriptIdRef st) (lastUpdateTimeRef st).

Definition setIsSessionFinished (v : bool) (st : State) : State :=
  mkState (status st) (transcripts st) (summary st) (documents st)
    (errorMsg st) (recordedBlob st) (hasPostProcessed st) v
    (activeTranscriptIdRef st) (lastUpdateTimeRef st).

(** The message chosen in the inner [catch] of [startRecording]. *)
Definition microphoneMessage (err : MediaError) : string :=
  if String.eqb (errorName err) "NotFoundError"
     || String.eqb (errorName err) "DevicesNotFoundError"
     || match errorMessage err with
        | Some m => includes m "device not found"
        | None => false
        end
  then "マイクが見つかりません。デバイスが接続されているか確認してください。"
  else if String.eqb (errorName err) "NotAllowedError"
          || String.eqb (errorName err) "PermissionDeniedError"
  then "マイクの使用が許可されていません。ブラウザのアドレスバーから許可設定を行ってください。"
  else if String.eqb (errorName err) "NotReadableError"
          || String.eqb (errorName err) "TrackStartError"
  then "マイクにアクセスできません。他のアプリケーション（ZoomやTeamsなど）がマイクを使用していないか確認してください。"
  else "マイクへのアクセスに失敗しました。".

(** How the [try] block of [startRecording] goes: the browser offers no
    [getUserMedia]; [getUserMedia] rejects; a later step (the audio
    context, the recorder, the connection) throws an error whose [message]
    is given; or the block completes. *)
Inductive StartOutcome : Type :=
  | Unsupported
  | MicrophoneRefused (err : MediaError)
  | SetupFailed (message : option string)
  | Connected.

(** [startRecording()] with [process.env.API_KEY] given as [apiKey]. *)
Definition startRecording (st : State) (apiKey : option string)
    (outcome : StartOutcome) : State :=
  if negb (truthyOpt apiKey) then setErrorMsg (Some "API Key not found.") st
  else
    let st :=
      setActiveTranscriptId None
        (setRecordedBlob None (setErrorMsg None (setStatus CONNECTING st))) in
    let failed (message : string) :=
      setStatus ERROR (setErrorMsg (Some message) st) in
    match outcome with
    | Unsupported =>
        failed "お使いのブラウザはマイク録音をサポートしていません。"
    | MicrophoneRefused err => failed (microphoneMessage err)
    | SetupFailed message => failed (default "undefined" message)
    | Connected => st
    end.

(** The [onopen] callback of the live connection. *)
Definition onopen (st : State) : State := setStatus RECORDING st.

(** The [onmessage] callback; [inputTranscription] is
    [msg.serverContent?.inputTranscription] when it is there, holding its
    [text] when it has one. *)
Definition onmessage (st : State) (inputTranscription : option (option string))
    (now date : Z) : State :=
  match inputTranscription with
  | Some (Some text) =>
      if truthy text then handleTranscriptChunk st text now date else st
  | _ => st
  end.

(** [analyzeAudioAndDiarize] up to its first [await], for a call that
    passes both guards. *)
Definition analysisStarted (st : State) : State :=
  setErrorMsg None (setStatus PROCESSING st).

(** [analyzeAudioAndDiarize] from its first [await] on. *)
Definition analysisEnded (st : State) (targetBlob : Blob.t) (reply : Reply)
    (clock : nat -> Z) : State * list Effect :=
  let '(effects, completion) := diarize targetBlob reply clock in
  let st :=
    match completion with
    | Normal newTranscripts =>
        setHasPostProcessed true (setTranscripts newTranscripts st)
    | Throw message =>
        setErrorMsg (Some ("分析処理に失敗しました: " +:+ message)) st
    end in
  (setStatus IDLE st, effects).

(** [stopRecording()]; [chunks] is [audioChunksRef.current] once the
    recorder has stopped.  The handler calls [analyzeAudioAndDiarize]
    without awaiting it: the call runs up to its first [await], the handler
    runs to its end, and the rest of the call runs later.  The result is
    the state when the handler returns, together with the recording whose
    analysis is then under way, if there is one. *)
Definition stopRecording (st : State) (chunks : list Blob.t)
    (apiKey : option string) : State * option Blob.t :=
  let finish (st : State) :=
    setIsSessionFinished true
      (setStatus IDLE (setActiveTranscriptId None st)) in
  match chunks with
  | [] => (finish st, None)
  | _ =>
      let blob := recordingOf chunks in
      let st := setRecordedBlob (Some blob) st in
      if negb (truthyOpt apiKey) then (finish st, None)
      else (finish (analysisStarted st), Some blob)
  end.

(** The end of the analysis that a handler left under way. *)
Definition settle (returned : State * option Blob.t) (reply : Reply)
    (clock : nat -> Z) : State * list Effect :=
  match snd returned with
  | Some blob => analysisEnded (fst returned) blob reply clock
  | None => (fst returned, [])
  end.

(** The [onclose] and [onerror] callbacks of the live connection.  They
    are closures made by the call of [startRecording]: the [status] they
    test is the one of the render in which that call was made, given as
    [seen].  [onclose] sets its message when [stopRecording] has returned,
    before the analysis it started ends. *)
Definition onclose (seen : AppStatus) (st : State) (chunks : list Blob.t)
    (apiKey : option string) : State * option Blob.t :=
  if bool_decide (seen = RECORDING) then
    let '(returned, underWay) := stopRecording st chunks apiKey in
    (setErrorMsg
       (Some "サーバーとの接続が切断されました（録音データは保存されました）。")
       returned,
     underWay)
  else (st, None).

Definition onerror (seen : AppStatus) (st : State) : State :=
  if bool_decide (seen = CONNECTING) then
    setStatus ERROR
      (setErrorMsg
         (Some "接続エラーが発生しました。ネットワーク状況を確認して再接続してください。")
         st)
  else st.
End Handlers.

End LiveApp.

(** ** The component of [src/App.tsx] *)

Module SrcApp.

Record State : Type := mkState {
  status : AppStatus;
  transcripts : list TranscriptItem.t;
  summary : string;
  documents : list RagDocument.t;
  errorMsg : option string;
  recordedBlob : option Blob.t;
  hasPostProcessed : bool;
  isSessionFinished : bool
}.

Definition initial : State :=
  {| status := IDLE; transcripts := []; summary := ""; documents := [];
     errorMsg := None; recordedBlob := None; hasPostProcessed := false;
     isSessionFinished := false |}.

Definition setStatus (v : AppStatus) (st : State) : State :=
  mkState v (transcripts st) (summary st) (documents st) (errorMsg st)
    (recordedBlob st) (hasPostProcessed st) (isSessionFinished st).

Definition setTranscripts (v : list TranscriptItem.t) (st : State) : State :=
  mkState (status st) v (summary st) (documents st) (errorMsg st)
    (recordedBlob st) (hasPostProcessed st) (isSessionFinished st).

Definition setSummary (v : string) (st : State) : State :=
  mkState (status st) (transcripts st) v (documents st) (errorMsg st)
    (recordedBlob st) (hasPostProcessed st) (isSessionFinished st).

Definition setErrorMsg (v : option string) (st : State) : State :=
  mkState (status st) (transcripts st) (summary st) (documents st) v
    (recordedBlob st) (hasPostProcessed st) (isSessionFinished st).

Definition setHasPostProcessed (v : bool) (st : State) : State :=
  mkState (status st) (transcripts st) (summary st) (documents st)
    (errorMsg st) (recordedBlob st) v (isSessionFinished st).

(** [updateTranscript(id, text, isFinal)]; [date] is the [new Date()] of
    the entry created when no entry has the id. *)
Definition updateTranscript (st : State) (id text : string) (isFinal : bool)
    (date : Z) : State :=
  let prev := transcripts st in
  let existing :=
    List.find (fun t => String.eqb (TranscriptItem.id t) id) prev in
  match existing with
  | Some _ =>
      setTranscripts
        (map (fun t =>
                if String.eqb (TranscriptItem.id t) id
                then TranscriptItem.mk (TranscriptItem.id t)
                       (TranscriptItem.speaker t) (JStr text)
                       (TranscriptItem.timestamp t) isFinal
                else t)
             prev)
        st
  | None =>
      setTranscripts
        (prev ++ [TranscriptItem.mk id (JStr "Staff") (JStr text) date isFinal])%list
        st
  end.

(** The [onEdit] prop handed to [TranscriptView]. *)
Definition onEdit (st : State) (id text : string) (date : Z) : State :=
  updateTranscript st id text true date.

(** The longest suffix of [s] that starts with [c]. *)
Fixpoint fromFirst (c : ascii) (s : string) : option string :=
  match s with
  | EmptyString => None
  | String a rest =>
      if Ascii.eqb a c then Some s else fromFirst c rest
  end.

(** The longest prefix of [s] that ends with [c]. *)
Fixpoint throughLast (c : ascii) (s : string) : option string :=
  match s with
  | EmptyString => None
  | String a rest =>
      match throughLast c rest with
      | Some r => Some (String a r)
      | None => if Ascii.eqb a c then Some (String a EmptyString) else None
      end
  end.

(** [jsonText.match(/\[[\s\S]*\]/)]: from the first opening bracket to the
    last closing bracket after it. *)
Definition matchArray (jsonText : string) : option string :=
  match fromFirst "["%char jsonText with
  | Some (String open rest) =>
      match throughLast "]"%char rest with
      | Some r => Some (String open r)
      | None => None
      end
  | _ => None
  end.

Section Handlers.
Context `{JsRuntime}.

(** The callback of [result.map] in [analyzeAudioAndDiarize]. *)
Definition toTranscriptItem (clock : nat -> Z) (index : nat)
    (item : JValue) : Completion TranscriptItem.t :=
  match getProp item "speaker", getProp item "text" with
  | Some speaker, Some text =>
      Normal (TranscriptItem.mk ("auto-" +:+ pretty index)
                (if strictEqStr speaker "Staff" || strictEqStr speaker "Client"
                 then speaker else JStr "Staff")
                text (clock index) true)
  | _, _ => Throw typeErrorMessage
  end.

Definition diarizationRequest (base64Audio : string) : Request :=
  {| model := MODEL_NAMES_SUMMARY;
     parts := [InlineData "audio/webm" base64Audio;
               TextPart diarizationPrompt_src];
     systemInstruction := None;
     responseMimeType := Some "application/json";
     responseSchema := false |}.

(** The "robust JSON cleaning" of the response text. *)
Definition cleanJsonText (jsonText : string) : string :=
  match matchArray jsonText with
  | Some m => m
  | None => trim (stripFences jsonText)
  end.

(** The [try] block of [analyzeAudioAndDiarize]. *)
Definition diarize (audioBlob : Blob.t) (reply : Reply) (clock : nat -> Z)
    : list Effect * Completion (list TranscriptItem.t) :=
  let base64Audio := audioUtils.arrayBufferToBase64 (Blob.bytes audioBlob) in
  ([GenerateContent (diarizationRequest base64Audio)],
   match reply with
   | Rejected message => Throw message
   | Responded text =>
       let jsonText := cleanJsonText (textOr text "") in
       match JSON_parse jsonText with
       | Throw _ => Throw "AIの応答をJSONとして解析できませんでした。"
       | Normal result => arrayMap (toTranscriptItem clock) result
       end
   end).

(** [analyzeAudioAndDiarize(audioBlob)] with the key found by
    [getApiKey()] given as [apiKey]. *)
Definition analyzeAudioAndDiarize (st : State) (apiKey : option string)
    (audioBlob : Blob.t) (reply : Reply) (clock : nat -> Z)
    : State * list Effect :=
  if negb (truthyOpt apiKey) then (st, [])
  else
    let st := setErrorMsg None (setStatus PROCESSING st) in
    let '(effects, completion) := diarize audioBlob reply clock in
    match completion with
    | Normal newTranscripts =>
        (setStatus IDLE
           (setHasPostProcessed true (setTranscripts newTranscripts st)),
         effects)
    | Throw message =>
        (setStatus IDLE
           (setErrorMsg
              (Some ("AI分析中にエラーが発生しました: " +:+ message)) st),
         effects)
    end.

Definition isTextDocument (d : RagDocument.t) : bool :=
  String.eqb (RagDocument.type d) "text/plain"
  || String.eqb (RagDocument.type d) "application/json".

Definition conversationLine (t : TranscriptItem.t) : string :=
  "[" +:+ ToString (TranscriptItem.speaker t) +:+ "]: "
  +:+ ToString (TranscriptItem.text t).

Definition summaryRequest (st : State) (templateId customInstruction : string)
    : Request :=
  let promptText :=
    match findTemplate templateId with
    | Some t => SummaryTemplate.prompt t
    | None => ""
    end in
  let conversationLog := join nl (map conversationLine (transcripts st)) in
  let fullPrompt :=
    nl +:+ "【指示】" +:+ nl +:+ promptText +:+ nl +:+ nl
    +:+ "【追加指示】" +:+ nl +:+ customInstruction +:+ nl +:+ nl
    +:+ "【会話ログ】" +:+ nl
    +:+ (if Nat.ltb 0 (String.length conversationLog)
         then conversationLog else "(会話ログなし)")
    +:+ nl in
  let textDocs := List.filter isTextDocument (documents st) in
  let fullPrompt :=
    match textDocs with
    | [] => fullPrompt
    | _ =>
        fold_left
          (fun acc d =>
             acc +:+ "--- " +:+ RagDocument.name d +:+ " ---" +:+ nl
             +:+ RagDocument.content d +:+ nl +:+ nl)
          textDocs
          (fullPrompt +:+ nl +:+ nl +:+ "【参照資料テキスト】" +:+ nl)
    end in
  let binaryParts :=
    flat_map (fun doc =>
                if isTextDocument doc then []
                else [InlineData (RagDocument.type doc)
                        (RagDocument.content doc)])
             (documents st) in
  {| model := MODEL_NAMES_SUMMARY;
     parts := TextPart fullPrompt :: binaryParts;
     systemInstruction :=
       Some "あなたは就労移行支援事業所の熟練した支援員です。客観的かつ専門的な視点で記録を作成してください。音声や資料に含まれていない情報は絶対に捏造しないでください。";
     responseMimeType := None;
     responseSchema := false |}.

(** [generateSummary(templateId, customInstruction)] *)
Definition generateSummary (st : State) (apiKey : option string)
    (templateId customInstruction : string) (reply : Reply)
    : State * list Effect :=
  if negb (truthyOpt apiKey) then (st, [])
  else if Nat.eqb (length (transcripts st)) 0
          && Nat.eqb (length (documents st)) 0
  then (st, [Alert "要約する内容（会話ログまたは資料）がありません。"])
  else
    let req := summaryRequest st templateId customInstruction in
    let st := setStatus PROCESSING st in
    let st :=
      match reply with
      | Responded text => setSummary (textOr text "") st
      | Rejected message =>
          setErrorMsg (Some ("要約の生成に失敗しました: " +:+ message)) st
      end in
    (setStatus IDLE st, [GenerateContent req]).

(** [resetSession()]; [confirmed] is the answer to [window.confirm]. *)
Definition resetSession (st : State) (confirmed : bool) : State :=
  if negb confirmed then st else initial.

(** The condition under which the start button is rendered. *)
Definition canStartRecording (st : State) : bool :=
  negb (isSessionFinished st) && bool_decide (status st = IDLE)
  && negb (hasPostProcessed st).

Inductive Event : Type :=
  | Edit (id text : string) (date : Z)
  | Diarize (apiKey : option string) (audioBlob : Blob.t)
      (reply : Reply) (clock : nat -> Z)
  | Reset (confirmed : bool).

Definition step (st : State) (e : Event) : State :=
  match e with
  | Edit id text date => onEdit st id text date
  | Diarize apiKey blob reply clock =>
      fst (analyzeAudioAndDiarize st apiKey blob reply clock)
  | Reset confirmed => resetSession st confirmed
  end.

Definition run (st : State) (events : list Event) : State :=
  fold_left step events st.

(** *** The API key *)

(** [getApiKey()]; [viteKey] is [import.meta.env.VITE_API_KEY] and
    [nodeKey] is [process.env.API_KEY], each [None] when the object it is
    read from is missing, the variable is not set, or the read throws. *)
Definition getApiKey (viteKey nodeKey : option string) : option string :=
  if truthyOpt viteKey then viteKey
  else if truthyOpt nodeKey then nodeKey
  else None.

(** *** Reference documents *)

Definition setDocuments (v : list RagDocument.t) (st : State) : State :=
  mkState (status st) (transcripts st) (summary st) v (errorMsg st)
    (recordedBlob st) (hasPostProcessed st) (isSessionFinished st).

(** [removeDocument(id)] *)
Definition removeDocument (st : State) (id : string) : State :=
  setDocuments
    (List.filter (fun d => negb (String.eqb (RagDocument.id d) id))
       (documents st))
    st.

(** A file chosen for upload, with what reading it gives: [fileText] is
    the outcome of [file.text()], [filePayload] the base64 text that
    [FileReader.readAsDataURL] puts after the header of the data URL (or
    the reader's error), and [randomId] the
    [Math.random().toString(36).substr(2, 9)] drawn for the file when it
    has been read. *)
Record UploadedFile : Type := {
  fileName : string;
  fileType : string;
  fileText : Completion string;
  filePayload : Completion string;
  randomId : string
}.

(** [s.split(c)] for a separator of one character. *)
Fixpoint splitOn (c : ascii) (s : string) : list string :=
  match s with
  | EmptyString => [EmptyString]
  | String a rest =>
      if Ascii.eqb a c then EmptyString :: splitOn c rest
      else
        match splitOn c rest with
        | field :: fields => String a field :: fields
        | [] => [String a EmptyString]
        end
  end.

(** [reader.result] after [readAsDataURL]: the data URL of the file. *)
Definition readAsDataURL (file : UploadedFile) : Completion string :=
  payload ← filePayload file;
  Normal ("data:" +:+ fileType file +:+ ";base64," +:+ payload).

(** [fileToBase64(file)]: [result.split(',')[1]].  A data URL has a comma,
    so the array has a second element; the last case does not arise. *)
Definition fileToBase64 (file : UploadedFile) : Completion string :=
  result ← readAsDataURL file;
  match splitOn ","%char result with
  | _ :: base64 :: _ => Normal base64
  | _ => Normal ""
  end.

(** The body of the loop of [handleFileUpload]: the document made of one
    file, or the error that makes the loop skip the file. *)
Definition readDocument (file : UploadedFile) : Completion RagDocument.t :=
  read ←
    (if String.eqb (fileType file) "application/pdf" then
       content ← fileToBase64 file; Normal ("application/pdf", content)
     else if String.prefix "image/" (fileType file) then
       content ← fileToBase64 file;
       Normal (if String.eqb (fileType file) "image/png" then "image/png"
               else if String.eqb (fileType file) "image/webp" then "image/webp"
               else "image/jpeg",
               content)
     else
       content ← fileText file; Normal ("text/plain", content));
  Normal (RagDocument.mk (randomId file) (fileName file) (snd read) (fst read)).

(** [handleFileUpload(files)] *)
Definition handleFileUpload (st : State) (files : list UploadedFile) : State :=
  let newDocs :=
    flat_map (fun file =>
                match readDocument file with
                | Normal doc => [doc]
                | Throw _ => []
                end) files in
  setDocuments (documents st ++ newDocs)%list st.

(** *** Starting and stopping a recording *)

Definition setRecordedBlob (v : option Blob.t) (st : State) : State :=
  mkState (status st) (transcripts st) (summary st) (documents st)
    (errorMsg st) v (hasPostProcessed st) (isSessionFinished st).

Definition setIsSessionFinished (v : bool) (st : State) : State :=
  mkState (status st) (transcripts st) (summary st) (documents st)
    (errorMsg st) (recordedBlob st) (hasPostProcessed st) v.

(** The message of the error thrown by the inner [catch] of
    [startRecording]. *)
Definition microphoneMessage (err : MediaError) : string :=
  if String.eqb (errorName err) "NotFoundError"
     || String.eqb (errorName err) "DevicesNotFoundError"
  then "マイクが見つかりません。マイクが接続されているか確認してください。"
  else if String.eqb (errorName err) "NotAllowedError"
          || String.eqb (errorName err) "PermissionDeniedError"
  then "マイクの使用が許可されていません。ブラウザの設定でマイクへのアクセスを許可してください。"
  else if String.eqb (errorName err) "NotReadableError"
          || String.eqb (errorName err) "TrackStartError"
  then "マイクにアクセスできません。他のアプリケーション（Zoomなど）がマイクを使用していないか確認してください。"
  else "マイクの初期化に失敗しました: "
       +:+ default "undefined" (errorMessage err).

(** How the [try] block of [startRecording] goes: [getUserMedia] rejects;
    a later step throws an error whose [message] is given; or the block
    completes. *)
Inductive StartOutcome : Type :=
  | MicrophoneRefused (err : MediaError)
  | SetupFailed (message : option string)
  | Connected.

(** [startRecording()] with the key found by [getApiKey()]. *)
Definition startRecording (st : State) (apiKey : option string)
    (outcome : StartOutcome) : State :=
  if negb (truthyOpt apiKey) then
    setErrorMsg
      (Some "APIキーが設定されていません。.envファイルを確認してください。") st
  else
    let st :=
      setStatus CONNECTING
        (setSummary "" (setTranscripts [] (setErrorMsg None st))) in
    let failed (message : option string) :=
      setStatus IDLE
        (setErrorMsg (Some (textOr message "録音の開始に失敗しました")) st) in
    match outcome with
    | MicrophoneRefused err => failed (Some (microphoneMessage err))
    | SetupFailed message => failed message
    | Connected => st
    end.

(** The [onopen] callback of the live connection. *)
Definition onopen (st : State) : State := setStatus RECORDING st.

(** [stopRecording(isError)] as run by a closure whose [status] is [seen];
    [recorder] is [audioChunksRef.current] at the [stop] event of the
    recorder, and [None] when there is no recorder or it is inactive. *)
Definition stopRecordingSeen (seen : AppStatus) (st : State) (isError : bool)
    (recorder : option (list Blob.t)) (apiKey : option string)
    (reply : Reply) (clock : nat -> Z) : State * list Effect :=
  if negb (bool_decide (seen = RECORDING))
     && negb (bool_decide (seen = CONNECTING))
  then (st, [])
  else
    match recorder with
    | Some chunks =>
        let blob := recordingOf chunks in
        let st := setIsSessionFinished true (setRecordedBlob (Some blob) st) in
        if negb isError then analyzeAudioAndDiarize st apiKey blob reply clock
        else (setStatus IDLE st, [])
    | None => (setIsSessionFinished true (setStatus IDLE st), [])
    end.

(** [stopRecording()] from the stop button, whose closure is the one of
    the render on display. *)
Definition stopRecording (st : State) (recorder : option (list Blob.t))
    (apiKey : option string) (reply : Reply) (clock : nat -> Z)
    : State * list Effect :=
  stopRecordingSeen (status st) st false recorder apiKey reply clock.

(** The [onerror] callback of the live connection, a closure made by the
    call of [startRecording]: the [status] it tests, and the one the
    [stopRecording] it calls tests, is the one of the render in which that
    call was made, given as [seen]. *)
Definition onerror (seen : AppStatus) (st : State)
    (recorder : option (list Blob.t)) (apiKey : option string)
    (reply : Reply) (clock : nat -> Z) : State * list Effect :=
  if bool_decide (seen = RECORDING) then
    let '(st', effects) :=
      stopRecordingSeen seen st true recorder apiKey reply clock in
    (setErrorMsg (Some "サーバー接続が切れました（データは保存されました）") st',
     effects)
  else (st, []).

(** *** The handlers between two awaits

    An [async] handler runs up to an [await], returns, and goes on when
    the promise settles; other handlers run in between.  What follows
    gives each stretch of a handler that runs without interruption, as a
    function of the state it meets. *)

(** [startRecording] up to its first [await]; with a key it leaves the
    [try] block under way. *)
Definition startBegun (st : State) (apiKey : option string) : State :=
  if negb (truthyOpt apiKey) then
    setErrorMsg
      (Some "APIキーが設定されていません。.envファイルを確認してください。") st
  else
    setStatus CONNECTING
      (setSummary "" (setTranscripts [] (setErrorMsg None st))).

(** The end of the [try] block of [startRecording]: its [catch] when a
    step has thrown, nothing more when it completes. *)
Definition startSettled (st : State) (outcome : StartOutcome) : State :=
  let failed (message : option string) :=
    setStatus IDLE
      (setErrorMsg (Some (textOr message "録音の開始に失敗しました")) st) in
  match outcome with
  | MicrophoneRefused err => failed (Some (microphoneMessage err))
  | SetupFailed message => failed message
  | Connected => st
  end.

(** [stopRecording(isError)] up to [await blobPromise], run by a closure
    whose [status] is [seen]; [active] tells whether there is a recorder
    that is not inactive.  The second component tells whether the handler
    is left waiting for the [stop] event of the recorder. *)
Definition stopBegun (seen : AppStatus) (st : State) (active : bool)
    : State * bool :=
  if negb (bool_decide (seen = RECORDING))
     && negb (bool_decide (seen = CONNECTING))
  then (st, false)
  else if active then (st, true)
  else (setIsSessionFinished true (setStatus IDLE st), false).

(** [analyzeAudioAndDiarize] with a key, up to its first [await]. *)
Definition analysisBegun (st : State) : State :=
  setErrorMsg None (setStatus PROCESSING st).

(** [stopRecording(isError)] from the [stop] event of the recorder on;
    [chunks] is [audioChunksRef.current] at that event.  When the analysis
    of the recording is started, the handler returns with that analysis
    under way, on the blob given. *)
Definition recorderStopped (st : State) (isError : bool)
    (chunks : list Blob.t) (apiKey : option string)
    : State * option Blob.t :=
  let blob := recordingOf chunks in
  let st := setIsSessionFinished true (setRecordedBlob (Some blob) st) in
  if isError then (setStatus IDLE st, None)
  else if negb (truthyOpt apiKey) then (st, None)
  else (analysisBegun st, Some blob).

(** The request that [analyzeAudioAndDiarize] sends once the bytes of the
    blob have been read. *)
Definition analysisRequest (audioBlob : Blob.t) : Effect :=
  GenerateContent
    (diarizationRequest (audioUtils.arrayBufferToBase64 (Blob.bytes audioBlob))).

(** [analyzeAudioAndDiarize] from the settlement of its request on. *)
Definition analysisEnded (st : State) (audioBlob : Blob.t) (reply : Reply)
    (clock : nat -> Z) : State :=
  match snd (diarize audioBlob reply clock) with
  | Normal newTranscripts =>
      setStatus IDLE
        (setHasPostProcessed true (setTranscripts newTranscripts st))
  | Throw message =>
      setStatus IDLE
        (setErrorMsg
           (Some ("AI分析中にエラーが発生しました: " +:+ message)) st)
  end.

(** [generateSummary] up to its [await]: what it does at once, and whether
    a request is left pending. *)
Definition summaryBegun (st : State) (apiKey : option string)
    (templateId customInstruction : string)
    : State * list Effect * bool :=
  if negb (truthyOpt apiKey) then (st, [], false)
  else if Nat.eqb (length (transcripts st)) 0
          && Nat.eqb (length (documents st)) 0
  then (st, [Alert "要約する内容（会話ログまたは資料）がありません。"], false)
  else
    (setStatus PROCESSING st,
     [GenerateContent (summaryRequest st templateId customInstruction)],
     true).

(** [generateSummary] from the settlement of its request on. *)
Definition summaryEnded (st : State) (reply : Reply) : State :=
  setStatus IDLE
    match reply with
    | Responded text => setSummary (textOr text "") st
    | Rejected message =>
        setErrorMsg (Some ("要約の生成に失敗しました: " +:+ message)) st
    end.

(** The [onerror] callback up to the [await] of the [stopRecording] it
    calls. *)
Definition errorFired (seen : AppStatus) (st : State) (active : bool)
    : State * bool :=
  if bool_decide (seen = RECORDING) then
    let '(st', waiting) := stopBegun seen st active in
    (setErrorMsg (Some "サーバー接続が切れました（データは保存されました）") st',
     waiting)
  else (st, false).

(** A stretch of a handler. *)
Inductive Stretch : Type :=
  | StartBegun
  | StartSettled (outcome : StartOutcome)
  | Opened
  | ErrorFired (seen : AppStatus) (active : bool)
  | StopBegun (seen : AppStatus) (active : bool)
  | RecorderStopped (isError : bool) (chunks : list Blob.t)
  | AnalysisEnded (audioBlob : Blob.t) (reply : Reply) (clock : nat -> Z)
  | SummaryBegun (templateId customInstruction : string)
  | SummaryEnded (reply : Reply)
  | FilesRead (files : list UploadedFile)
  | DocumentRemoved (id : string)
  | Edited (id text : string) (date : Z)
  | ErrorDismissed
  | ResetAnswered (confirmed : bool).

(** The state a stretch leaves, with the key found by [getApiKey()]. *)
Definition stretch (apiKey : option string) (st : State) (g : Stretch)
    : State :=
  match g with
  | StartBegun => startBegun st apiKey
  | StartSettled outcome => startSettled st outcome
  | Opened => onopen st
  | ErrorFired seen active => fst (errorFired seen st active)
  | StopBegun seen active => fst (stopBegun seen st active)
  | RecorderStopped isError chunks =>
      fst (recorderStopped st isError chunks apiKey)
  | AnalysisEnded audioBlob reply clock =>
      analysisEnded st audioBlob reply clock
  | SummaryBegun templateId customInstruction =>
      fst (fst (summaryBegun st apiKey templateId customInstruction))
  | SummaryEnded reply => summaryEnded st reply
  | FilesRead files => handleFileUpload st files
  | DocumentRemoved id => removeDocument st id
  | Edited id text date => onEdit st id text date
  | ErrorDismissed => setErrorMsg None st
  | ResetAnswered confirmed => resetSession st confirmed
  end.
End Handlers.

End SrcApp.

(** ** The generate button of [SummaryPanel] *)

Module SummaryPanel.

Definition isGenerating (status : AppStatus) : bool :=
  bool_decide (status = PROCESSING).

(** The [disabled] attribute of the generate button. *)
Definition generateDisabled (status : AppStatus) : bool :=
  isGenerating status || bool_decide (status = RECORDING).

(** The two [useState] cells of the panel. *)
Record State : Type := {
  selectedTemplate : string;
  customInstruction : string
}.

(** [useState(TEMPLATES[0].id)] and [useState('')]; the constant
    [TEMPLATES] is not empty. *)
Definition initial : State :=
  {| selectedTemplate :=
       match TEMPLATES with
       | t :: _ => SummaryTemplate.id t
       | [] => ""
       end;
     customInstruction := "" |}.

(** What the user does in the panel: a click on the button rendered for
    the template at [index] of [TEMPLATES], or typing in the instruction
    box. *)
Inductive Event : Type :=
  | ClickTemplate (index : nat)
  | TypeInstruction (value : string).

Definition step (st : State) (e : Event) : State :=
  match e with
  | ClickTemplate index =>
      match nth_error TEMPLATES index with
      | Some t =>
          {| selectedTemplate := SummaryTemplate.id t;
             customInstruction := customInstruction st |}
      | None => st
      end
  | TypeInstruction value =>
      {| selectedTemplate := selectedTemplate st; customInstruction := value |}
  end.

Definition run (st : State) (events : list Event) : State :=
  fold_left step events st.

End SummaryPanel.

(** ** [TranscriptView] *)

Module TranscriptView.

(** The three returns of the component. *)
Inductive View : Type := IdleView | RecordingView | HistoryView.

Definition view (transcripts : list TranscriptItem.t) (isRecording : bool)
    : View :=
  if Nat.eqb (length transcripts) 0 && negb isRecording then IdleView
  else if isRecording then RecordingView
  else HistoryView.

(** The history view computes [item.text.length] for the [rows] of every
    text box: the render throws a [TypeError] when the text of an entry is
    [null] or [undefined].  No error boundary is above the component, so
    React then unmounts the page. *)
Definition hasNoLength (v : JValue) : bool :=
  match v with
  | JNull | JUndefined => true
  | _ => false
  end.

Definition renderThrows (transcripts : list TranscriptItem.t)
    (isRecording : bool) : bool :=
  match view transcripts isRecording with
  | HistoryView =>
      existsb (fun t => hasNoLength (TranscriptItem.text t)) transcripts
  | _ => false
  end.

(** [getSpeakerLabel(role)] *)
Definition getSpeakerLabel (role : JValue) : JValue :=
  if strictEqStr role "Staff" then JStr "支援員"
  else if strictEqStr role "Client" then JStr "利用者"
  else if strictEqStr role "AI" then JStr "AI"
  else role.

(** The character [U+0022]. *)
Definition quote : ascii := ascii_of_nat 34.

(** The [replace] of [handleDownloadCsv]: every [U+0022] of the text is
    written twice. *)
Fixpoint escapeQuotes (s : string) : string :=
  match s with
  | EmptyString => EmptyString
  | String c rest =>
      if Ascii.eqb c quote then String c (String c (escapeQuotes rest))
      else String c (escapeQuotes rest)
  end.

(** The speaker column of the CSV file. *)
Definition csvSpeaker (speaker : JValue) : string :=
  if strictEqStr speaker "Staff" then "支援員"
  else if strictEqStr speaker "Client" then "利用者"
  else "AI".

(** A file handed to the browser for download. *)
Record Download : Type := {
  downloadName : string;
  downloadType : string;
  downloadContent : string
}.

Definition csvHeader : string := "時刻,話者,内容" +:+ nl.

(** The byte order mark [0xEF, 0xBB, 0xBF]. *)
Definition bom : string :=
  String (ascii_of_nat 239) (String (ascii_of_nat 187)
    (String (ascii_of_nat 191) EmptyString)).

Section Csv.
Context `{JsRuntime}.

(** [toLocaleTimeString([], { hour: '2-digit', minute: '2-digit' })] *)
Variable toShortTime : Z -> string.

(** The line added for one entry; [t.text.replace] is a [TypeError]
    unless the text is a string. *)
Definition csvLine (t : TranscriptItem.t) : Completion string :=
  let time := toShortTime (TranscriptItem.timestamp t) in
  let speaker := csvSpeaker (TranscriptItem.speaker t) in
  match TranscriptItem.text t with
  | JStr text =>
      let safeText := dq +:+ escapeQuotes text +:+ dq in
      Normal (time +:+ "," +:+ speaker +:+ "," +:+ safeText +:+ nl)
  | _ => Throw typeErrorMessage
  end.

(** [csvContent] after the [forEach]. *)
Definition csvContent (transcripts : list TranscriptItem.t)
    : Completion string :=
  fold_left
    (fun acc t => csv ← acc; line ← csvLine t; Normal (csv +:+ line))
    transcripts (Normal csvHeader).

(** [handleDownloadCsv()]; [isoDate] is [new Date().toISOString()].
    [Normal None] is the return on an empty transcript. *)
Definition handleDownloadCsv (transcripts : list TranscriptItem.t)
    (isoDate : string) : Completion (option Download) :=
  if Nat.eqb (length transcripts) 0 then Normal None
  else
    csv ← csvContent transcripts;
    Normal (Some {| downloadName :=
                      "面談記録_" +:+ String.substring 0 10 isoDate +:+ ".csv";
                    downloadType := "text/csv;charset=utf-8;";
                    downloadContent := bom +:+ csv |}).
End Csv.

End TranscriptView.

(** ** The page of [src/App.tsx]

    What can happen on the page, one stretch of a handler at a time.  A
    handler is run by the element that calls it, when that element is
    rendered; the rest of an [async] handler runs when the promise it
    awaits settles, whatever was done in between.  The callbacks of a live
    connection can run from the call of [startRecording] that makes them
    on: the model lets them, and the settlements it lets happen are those
    the code can meet and possibly more, never fewer. *)
Module SrcScreen.

(** A handler waiting at an [await]: [startRecording] in its [try] block;
    [stopRecording] waiting for the [stop] event of the recorder;
    [analyzeAudioAndDiarize] reading the bytes of its blob, then waiting
    for the reply; [generateSummary] waiting for the reply. *)
Inductive Waiting : Type :=
  | Starting
  | Stopping (isError : bool)
  | Reading (audioBlob : Blob.t)
  | Diarizing (audioBlob : Blob.t)
  | Summarising.

(** The page between two stretches: the state of the component, the
    [status] held by the callbacks of each live connection made so far,
    and the handlers that are waiting. *)
Record Screen : Type := {
  app : SrcApp.State;
  connections : list AppStatus;
  waiting : list Waiting
}.

Definition initial : Screen :=
  {| app := SrcApp.initial; connections := []; waiting := [] |}.

(** What happens next: an interaction of the user, a callback of the live
    connection [connection], or the settlement of what the waiting handler
    [handler] awaits.  [active] tells whether there is a recorder that is
    not inactive. *)
Inductive Action : Type :=
  | ClickStart
  | StartSettles (handler : nat) (outcome : SrcApp.StartOutcome)
  | LiveOpen (connection : nat)
  | LiveError (connection : nat) (active : bool)
  | ClickStop (active : bool)
  | RecorderStops (handler : nat) (chunks : list Blob.t)
  | AnalysisSends (handler : nat)
  | AnalysisEnds (handler : nat) (reply : Reply) (clock : nat -> Z)
  | TypeInEntry (index : nat) (text : string) (date : Z)
  | ClickGenerate (templateId customInstruction : string)
  | SummaryArrives (handler : nat) (reply : Reply)
  | ChooseFiles (files : list SrcApp.UploadedFile)
  | ClickRemove (index : nat)
  | DismissError
  | ClickReset (confirmed : bool).

(** The interactions that need an element of the page. *)
Definition byUser (a : Action) : bool :=
  match a with
  | ClickStart | ClickStop _ | TypeInEntry _ _ _ | ClickGenerate _ _
  | ClickRemove _ | DismissError | ClickReset _ => true
  | _ => false
  end.

(** The render of the page throws: the page is unmounted. *)
Definition crashed (st : SrcApp.State) : bool :=
  TranscriptView.renderThrows (SrcApp.transcripts st)
    (bool_decide (SrcApp.status st = RECORDING)).

Section Screen.
Context `{JsRuntime}.

(** The key found by [getApiKey()], the same in every render. *)
Variable apiKey : option string.

(** An action on a page that is mounted.  [ChooseFiles] stands for the
    moment the files chosen have been read: [handleFileUpload] touches the
    state only then. *)
Definition proceed (s : Screen) (a : Action) : Screen * list Effect :=
  let st := app s in
  let now (st' : SrcApp.State) :=
    {| app := st'; connections := connections s; waiting := waiting s |} in
  let settled (handler : nat) (st' : SrcApp.State) (more : list Waiting) :=
    {| app := st'; connections := connections s;
       waiting := (delete handler (waiting s) ++ more)%list |} in
  match a with
  | ClickStart =>
      if SrcApp.canStartRecording st then
        if truthyOpt apiKey then
          ({| app := SrcApp.startBegun st apiKey;
              connections := (connections s ++ [SrcApp.status st])%list;
              waiting := (waiting s ++ [Starting])%list |}, [])
        else (now (SrcApp.startBegun st apiKey), [])
      else (s, [])
  | StartSettles handler outcome =>
      match waiting s !! handler with
      | Some Starting =>
          (settled handler (SrcApp.startSettled st outcome) [], [])
      | _ => (s, [])
      end
  | LiveOpen connection =>
      match connections s !! connection with
      | Some _ => (now (SrcApp.onopen st), [])
      | None => (s, [])
      end
  | LiveError connection active =>
      match connections s !! connection with
      | Some seen =>
          let '(st', waits) := SrcApp.errorFired seen st active in
          if waits then
            ({| app := st'; connections := connections s;
                waiting := (waiting s ++ [Stopping true])%list |}, [])
          else (now st', [])
      | None => (s, [])
      end
  | ClickStop active =>
      if bool_decide (SrcApp.status st = RECORDING) then
        let '(st', waits) := SrcApp.stopBegun (SrcApp.status st) st active in
        if waits then
          ({| app := st'; connections := connections s;
              waiting := (waiting s ++ [Stopping false])%list |}, [])
        else (now st', [])
      else (s, [])
  | RecorderStops handler chunks =>
      match waiting s !! handler with
      | Some (Stopping isError) =>
          let '(st', analysis) :=
            SrcApp.recorderStopped st isError chunks apiKey in
          (settled handler st'
             match analysis with
             | Some audioBlob => [Reading audioBlob]
             | None => []
             end,
           [])
      | _ => (s, [])
      end
  | AnalysisSends handler =>
      match waiting s !! handler with
      | Some (Reading audioBlob) =>
          (settled handler st [Diarizing audioBlob],
           [SrcApp.analysisRequest audioBlob])
      | _ => (s, [])
      end
  | AnalysisEnds handler reply clock =>
      match waiting s !! handler with
      | Some (Diarizing audioBlob) =>
          (settled handler (SrcApp.analysisEnded st audioBlob reply clock) [],
           [])
      | _ => (s, [])
      end
  | TypeInEntry index text date =>
      match TranscriptView.view (SrcApp.transcripts st)
              (bool_decide (SrcApp.status st = RECORDING)),
            SrcApp.transcripts st !! index with
      | TranscriptView.HistoryView, Some item =>
          (now (SrcApp.onEdit st (TranscriptItem.id item) text date), [])
      | _, _ => (s, [])
      end
  | ClickGenerate templateId customInstruction =>
      if SummaryPanel.generateDisabled (SrcApp.status st) then (s, [])
      else
        let '(st', effects, waits) :=
          SrcApp.summaryBegun st apiKey templateId customInstruction in
        if waits then
          ({| app := st'; connections := connections s;
              waiting := (waiting s ++ [Summarising])%list |}, effects)
        else (now st', effects)
  | SummaryArrives handler reply =>
      match waiting s !! handler with
      | Some Summarising =>
          (settled handler (SrcApp.summaryEnded st reply) [], [])
      | _ => (s, [])
      end
  | ChooseFiles files => (now (SrcApp.handleFileUpload st files), [])
  | ClickRemove index =>
      match SrcApp.documents st !! index with
      | Some doc => (now (SrcApp.removeDocument st (RagDocument.id doc)), [])
      | None => (s, [])
      end
  | DismissError =>
      if truthyOpt (SrcApp.errorMsg st)
      then (now (SrcApp.setErrorMsg None st), [])
      else (s, [])
  | ClickReset confirmed => (now (SrcApp.resetSession st confirmed), [])
  end.

(** An action on the page.  Once the page is unmounted nothing is left to
    click, and the state setters called by the handlers that go on do
    nothing; what those handlers send is still sent. *)
Definition act (s : Screen) (a : Action) : Screen * list Effect :=
  if crashed (app s) then
    if byUser a then (s, [])
    else
      let '(s', effects) := proceed s a in
      ({| app := app s; connections := connections s';
          waiting := waiting s' |}, effects)
  else proceed s a.

(** A series of actions: the page it leads to and everything the handlers
    did to the outside world on the way. *)
Fixpoint run (s : Screen) (actions : list Action) : Screen * list Effect :=
  match actions with
  | [] => (s, [])
  | a :: rest =>
      let '(s', effects) := act s a in
      let '(s'', more) := run s' rest in
      (s'', (effects ++ more)%list)
  end.
End Screen.

End SrcScreen.

(** ** Notions used to state the properties *)

(** A decimal numeral starts with a digit or a minus sign. *)
Definition numeralHead (s : string) : Prop :=
  match s with
  | String c _ => Ascii.is_nat c <> None \/ c = "-"%char
  | EmptyString => False
  end.

(** An id minted by the live merger from a clock reading up to [bound]. *)
Definition timeId (bound : Z) (s : string) : Prop :=
  exists n : Z, n <= bound /\ s = pretty n.

(** An id minted by a diarization handler from an array index. *)
Definition indexId (prefix : string) (s : string) : Prop :=
  exists i : nat, s = prefix +:+ pretty i.

(** Distinct ids, each minted from a reading up to [bound] or from an index. *)
Definition liveIds (bound : Z) (l : list string) : Prop :=
  NoDup l /\ Forall (fun s => timeId bound s \/ indexId "post-process-" s) l.

(** The live merger's bookkeeping: distinct ids, an active id minted from a
    reading up to [bound], and, when an entry has the active id, that entry
    is the last of the transcript. *)
Definition activeEntry (bound : Z) (st : LiveApp.State) : Prop :=
  liveIds bound (ids (LiveApp.transcripts st))
  /\ (forall a, LiveApp.activeTranscriptIdRef st = Some a -> timeId bound a)
  /\ (forall a, LiveApp.activeTranscriptIdRef st = Some a ->
                a ∈ ids (LiveApp.transcripts st) ->
                last (ids (LiveApp.transcripts st)) = Some a).

(** An entry made by the live merger for the [Staff] speaker from a
    reading up to [bound]. *)
Definition liveEntry (bound : Z) (t : TranscriptItem.t) : Prop :=
  exists n : Z,
    n <= bound /\ TranscriptItem.id t = pretty n
    /\ TranscriptItem.speaker t = JStr "Staff".

(** What the merger keeps while the clock does not step back below [r]:
    distinct ids; entries made by the merger from readings up to the last
    reading it took, or by a diarization run; an active id that is a
    numeral; and, when an entry made by the merger is left, the last
    reading taken is at most [r] and the active id is the id of an
    entry. *)
Definition mergerState (r : Z) (st : LiveApp.State) : Prop :=
  NoDup (ids (LiveApp.transcripts st))
  /\ Forall (fun t => liveEntry (LiveApp.lastUpdateTimeRef st) t
                      \/ indexId "post-process-" (TranscriptItem.id t))
       (LiveApp.transcripts st)
  /\ (forall a, LiveApp.activeTranscriptIdRef st = Some a ->
                exists n : Z, a = pretty n)
  /\ (forall t (n : Z),
         In t (LiveApp.transcripts st) -> TranscriptItem.id t = pretty n ->
         LiveApp.lastUpdateTimeRef st <= r
         /\ exists a, LiveApp.activeTranscriptIdRef st = Some a
                      /\ In a (ids (LiveApp.transcripts st))).


(** The entry a diarization handler builds from element [i] of the response
    once the speaker has been decided. *)
Definition diarizedEntry (prefix : string) (clock : nat -> Z)
    (speakerOf : JValue -> JValue) (i : nat) (item : JValue) : TranscriptItem.t :=
  TranscriptItem.mk (prefix +:+ pretty i)
    (speakerOf (default JUndefined (getProp item "speaker")))
    (default JUndefined (getProp item "text")) (clock i) true.

(** The speaker coercion of [src/App.tsx]. *)
Definition coerceSpeaker (speaker : JValue) : JValue :=
  if strictEqStr speaker "Staff" || strictEqStr speaker "Client"
  then speaker else JStr "Staff".

(** An element of a response on which the [map] callback does not throw. *)
Definition readable (item : JValue) : Prop :=
  item <> JNull /\ item <> JUndefined.

(** The order of the extended real line on samples; [NaN] is comparable
    with nothing. *)
Definition sampleLe (x y : audioUtils.Sample) : Prop :=
  match x, y with
  | audioUtils.NaN, _ | _, audioUtils.NaN => False
  | audioUtils.NegInfinity, _ => True
  | _, audioUtils.PosInfinity => True
  | audioUtils.Finite p, audioUtils.Finite q => (p <= q)%Q
  | _, _ => False
  end.

(** A value an element of a [Uint8Array] can hold. *)
Definition isByte (b : Z) : Prop := 0 <= b < 256.

(** The place of a character in the base64 alphabet. *)
Definition b64index (c : ascii) : Z :=
  let n := Z.of_N (N_of_ascii c) in
  if Z.leb 65 n && Z.leb n 90 then n - 65
  else if Z.leb 97 n && Z.leb n 122 then n - 71
  else if Z.leb 48 n && Z.leb n 57 then n + 4
  else if Z.eqb n 43 then 62
  else 63.

(** The reading of base64 text back into bytes, four characters at a time
    ([atob], the inverse built-in of [btoa]). *)
Fixpoint atob (s : string) : list Z :=
  match s with
  | String c1 (String c2 (String c3 (String c4 rest))) =>
      let s1 := b64index c1 in
      let s2 := b64index c2 in
      let s3 := b64index c3 in
      let s4 := b64index c4 in
      let b1 := s1 * 4 + s2 / 16 in
      let b2 := (s2 mod 16) * 16 + s3 / 4 in
      let b3 := (s3 mod 4) * 64 + s4 in
      if Ascii.eqb c3 "="%char then [b1]
      else if Ascii.eqb c4 "="%char then [b1; b2]
      else b1 :: b2 :: b3 :: atob rest
  | _ => []
  end.

(** The 16-bit integers stored in a byte buffer, least significant byte
    first (the reading of a [Uint8Array] back as an [Int16Array]). *)
Fixpoint int16Of (buffer : list Z) : list Z :=
  match buffer with
  | lo :: hi :: rest => audioUtils.wrap16 (lo + 256 * hi) :: int16Of rest
  | _ => []
  end.

(** *** Live fragments grouped by pauses *)

Section Bursts.
Context `{JsRuntime}.

(** The event of a fragment received from the live connection. *)
Definition chunkEvent (f : LiveApp.Fragment) : LiveApp.Event :=
  LiveApp.Chunk (LiveApp.fragmentText f) (LiveApp.arrival f) (LiveApp.created f).

(** A fragment whose text is more than white space. *)
Definition spoken (f : LiveApp.Fragment) : bool :=
  truthy (trim (LiveApp.fragmentText f)).

(** Fragments grouped into bursts: a fragment that arrives less than the
    threshold after the fragment before it continues the burst of that
    fragment, any other fragment starts a burst.  A burst is given by its
    first fragment and the fragments that continue it. *)
Fixpoint bursts (fs : list LiveApp.Fragment)
    : list (LiveApp.Fragment * list LiveApp.Fragment) :=
  match fs with
  | [] => []
  | f :: rest =>
      match bursts rest with
      | (g, more) :: others =>
          if bool_decide (LiveApp.arrival g - LiveApp.arrival f
                          < LiveApp.TIME_THRESHOLD_MS)
          then (f, g :: more) :: others
          else (f, []) :: (g, more) :: others
      | [] => [(f, [])]
      end
  end.

(** The entry that shows a burst: the id and the timestamp are those of its
    first fragment, the text is all of its fragments, and the entry is
    final when the burst is a single fragment. *)
Definition burstEntry (b : LiveApp.Fragment * list LiveApp.Fragment)
    : TranscriptItem.t :=
  TranscriptItem.mk (pretty (LiveApp.arrival (fst b))) (JStr "Staff")
    (JStr (concatAll (map LiveApp.fragmentText (fst b :: snd b))))
    (LiveApp.created (fst b))
    (match snd b with [] => true | _ => false end).

End Bursts.

(** *** Ids minted from array indices *)


(** *** Reading a CSV file *)

(** Where a reader of comma-separated values stands: in a field written
    bare (or at the start of a field), inside a quoted field, or just
    after a quote met inside a quoted field. *)
Inductive CsvMode : Type := Plain | InQuotes | AfterQuote.

Definition newline : ascii := ascii_of_nat 10.

(** The reading of comma-separated values (RFC 4180, lines ended by a line
    feed): a comma ends a field and a line feed ends a record, except in a
    quoted field, where a quote written twice stands for one quote.
    [field] and [row] are what has been read of the current field and
    record; [None] is a text that is not well formed. *)
Fixpoint parseCsv (mode : CsvMode) (field : string) (row : list string)
    (s : string) : option (list (list string)) :=
  match s with
  | EmptyString =>
      match mode with
      | InQuotes => None
      | AfterQuote => Some [(row ++ [field])%list]
      | Plain =>
          match row, field with
          | [], EmptyString => Some []
          | _, _ => Some [(row ++ [field])%list]
          end
      end
  | String c rest =>
      match mode with
      | Plain =>
          if Ascii.eqb c ","%char then
            parseCsv Plain EmptyString (row ++ [field])%list rest
          else if Ascii.eqb c newline then
            cons (row ++ [field])%list <$> parseCsv Plain EmptyString [] rest
          else if Ascii.eqb c TranscriptView.quote then
            if String.eqb field EmptyString
            then parseCsv InQuotes EmptyString row rest
            else None
          else parseCsv Plain (field +:+ String c EmptyString) row rest
      | InQuotes =>
          if Ascii.eqb c TranscriptView.quote
          then parseCsv AfterQuote field row rest
          else parseCsv InQuotes (field +:+ String c EmptyString) row rest
      | AfterQuote =>
          if Ascii.eqb c TranscriptView.quote then
            parseCsv InQuotes (field +:+ String c EmptyString) row rest
          else if Ascii.eqb c ","%char then
            parseCsv Plain EmptyString (row ++ [field])%list rest
          else if Ascii.eqb c newline then
            cons (row ++ [field])%list <$> parseCsv Plain EmptyString [] rest
          else None
      end
  end.

Definition readCsv (s : string) : option (list (list string)) :=
  parseCsv Plain EmptyString [] s.

(** A text that can stand bare in a field: no comma, quote or line feed. *)
Fixpoint plainField (s : string) : bool :=
  match s with
  | EmptyString => true
  | String c rest =>
      negb (Ascii.eqb c ","%char) && negb (Ascii.eqb c TranscriptView.quote)
      && negb (Ascii.eqb c newline) && plainField rest
  end.

(** The record the CSV file is to hold for an entry. *)
Definition csvRecord (toShortTime : Z -> string) (t : TranscriptItem.t)
    : list string :=
  [toShortTime (TranscriptItem.timestamp t);
   TranscriptView.csvSpeaker (TranscriptItem.speaker t);
   ToString (TranscriptItem.text t)].

(** *** Text inside text *)

(** [part] occurs in [whole]. *)
Definition occursIn (part whole : string) : Prop :=
  exists before after, whole = before +:+ part +:+ after.

(** No character of [s] is [c]. *)
Fixpoint without (c : ascii) (s : string) : bool :=
  match s with
  | EmptyString => true
  | String a rest => negb (Ascii.eqb a c) && without c rest
  end.

(** ** A runtime and inputs for worked examples *)

(** [s] without its leading ASCII white space. *)
Fixpoint trimStart (s : string) : string :=
  match s with
  | String a rest => if Ascii.is_space a then trimStart rest else s
  | EmptyString => EmptyString
  end.

(** The response of scenario C: one record spoken by a [Nurse]. *)
Definition nurseResponse : string :=
  "[{" +:+ dq +:+ "speaker" +:+ dq +:+ ":" +:+ dq +:+ "Nurse" +:+ dq +:+ ","
  +:+ dq +:+ "text" +:+ dq +:+ ":" +:+ dq +:+ "hi" +:+ dq +:+ "}]".

Definition nurseRecords : JValue :=
  JArr [JObj [("speaker", JStr "Nurse"); ("text", JStr "hi")]].

(** A response with one record of each speaker. *)
Definition dialogueResponse : string :=
  "[{" +:+ dq +:+ "speaker" +:+ dq +:+ ":" +:+ dq +:+ "Staff" +:+ dq +:+ ","
  +:+ dq +:+ "text" +:+ dq +:+ ":" +:+ dq +:+ "good morning" +:+ dq +:+ "},{"
  +:+ dq +:+ "speaker" +:+ dq +:+ ":" +:+ dq +:+ "Client" +:+ dq +:+ ","
  +:+ dq +:+ "text" +:+ dq +:+ ":" +:+ dq +:+ "hello" +:+ dq +:+ "}]".

Definition dialogueRecords : JValue :=
  JArr [JObj [("speaker", JStr "Staff"); ("text", JStr "good morning")];
        JObj [("speaker", JStr "Client"); ("text", JStr "hello")]].

(** [JSON.parse] on the two texts above; any other text is refused. *)
Definition exampleParse (s : string) : Completion JValue :=
  if String.eqb s nurseResponse then Normal nurseRecords
  else if String.eqb s dialogueResponse then Normal dialogueRecords
  else Throw "Unexpected token".

(** A runtime for the examples: it parses the two responses above, trims
    ASCII white space, and leaves fences alone (the example texts have
    none). *)
Definition exampleRuntime : JsRuntime.
Proof.
  refine {| JSON_parse := exampleParse;
            trim := fun s => String.rev (trimStart (String.rev (trimStart s)));
            stripFences := fun s => s;
            typeErrorMessage := "Cannot read properties of null";
            toLocaleTimeString := fun t => pretty t |}.
  - exists "Unexpected token". reflexivity.
  - reflexivity.
  - reflexivity.
Defined.

(** [l] appended to itself [n] times over: [2 ^ n] copies. *)
Fixpoint doubled (n : nat) (l : list Z) : list Z :=
  match n with
  | O => l
  | S n' => doubled n' (l ++ l)%list
  end.

(** A recording of 16 MiB. *)
Definition longRecording : Blob.t :=
  {| Blob.bytes := doubled 24 [0]; Blob.type := "audio/webm" |}.

(** * Properties *)

(** ** The PCM encoder *)

Section Encoder.
Import audioUtils.

(** An integer of the 16-bit range is stored as it is. *)
Lemma wrap16_id n : -32768 <= n <= 32767 -> wrap16 n = n.
Proof.
  intros Hn. unfold wrap16.
  destruct (Z_lt_le_dec n 0) as [Hneg|Hpos].
  - assert (Hm : n mod 65536 = n + 65536).
    { rewrite <- (Z_mod_plus_full n 1 65536). apply Z.mod_small. lia. }
    rewrite Hm. destruct (Z.leb_spec 32768 (n + 65536)); lia.
  - rewrite Z.mod_small by lia. destruct (Z.leb_spec 32768 n); lia.
Qed.

(** Scaling by an integer multiplies the numerator. *)
Lemma truncate_scale q k :
  truncate (q * inject_Z k) = Z.quot (Qnum q * k) (Z.pos (Qden q)).
Proof. unfold truncate. destruct q as [n d]. simpl. now rewrite Pos.mul_1_r. Qed.

(** Truncation reads the number, not the fraction that writes it. *)
Lemma truncate_Qeq p q : (p == q)%Q -> truncate p = truncate q.
Proof.
  destruct p as [a b], q as [c d]. unfold Qeq, truncate. simpl. intros E.
  rewrite <- (Z.quot_mul_cancel_r a (Z.pos b) (Z.pos d)) by lia.
  rewrite <- (Z.quot_mul_cancel_r c (Z.pos d) (Z.pos b)) by lia.
  rewrite E. f_equal. lia.
Qed.

(** Bounds of a scaled fraction of [[-1, 0]] after truncation. *)
Lemma quot_scaled_neg n d k :
  0 < d -> 0 <= k -> - d <= n <= 0 -> - k <= Z.quot (n * k) d <= 0.
Proof.
  intros Hd Hk Hn.
  replace (n * k) with (- ((- n) * k)) by lia.
  rewrite Z.quot_opp_l by lia.
  rewrite Z.quot_div_nonneg by nia.
  assert (0 <= (- n * k) / d) by (apply Z.div_pos; nia).
  assert ((- n * k) / d <= k).
  { apply Z.div_le_upper_bound; nia. }
  lia.
Qed.

(** Bounds of a scaled fraction of [[0, 1]] after truncation. *)
Lemma quot_scaled_pos n d k :
  0 < d -> 0 <= k -> 0 <= n <= d -> 0 <= Z.quot (n * k) d <= k.
Proof.
  intros Hd Hk Hn.
  rewrite Z.quot_div_nonneg by nia.
  split; [apply Z.div_pos; nia | apply Z.div_le_upper_bound; nia].
Qed.

Lemma Qle_bool_false x y : Qle_bool x y = false -> (y < x)%Q.
Proof.
  intros E. apply Qnot_le_lt. intros Hle.
  apply Qle_bool_iff in Hle. congruence.
Qed.

(** Order facts on one rational, decided on numerator and denominator. *)
Ltac q_order q :=
  repeat match goal with
         | H : Qle_bool _ _ = true |- _ => apply Qle_bool_iff in H
         | H : Qle_bool _ _ = false |- _ => apply Qle_bool_false in H
         end;
  destruct q as [?n ?d]; unfold Qle, Qlt, Qeq in *; simpl in *; lia.

Lemma truncate_scale_neg q :
  (-1 <= q)%Q -> (q <= 0)%Q -> -32768 <= truncate (q * 32768) <= 0.
Proof.
  intros Hlo Hhi. change (32768%Q) with (inject_Z 32768). rewrite truncate_scale.
  pose proof (quot_scaled_neg (Qnum q) (Z.pos (Qden q)) 32768) as B.
  apply B; [lia | lia | q_order q].
Qed.

Lemma truncate_scale_pos q :
  (0 <= q)%Q -> (q <= 1)%Q -> 0 <= truncate (q * 32767) <= 32767.
Proof.
  intros Hlo Hhi. change (32767%Q) with (inject_Z 32767). rewrite truncate_scale.
  pose proof (quot_scaled_pos (Qnum q) (Z.pos (Qden q)) 32767) as B.
  apply B; [lia | lia | q_order q].
Qed.

(** A negative sample within range: scaled by 32768, truncated, not wrapped. *)
Lemma encodeSample_mid_neg q :
  (-1 <= q)%Q -> (q < 0)%Q -> encodeSample (Finite q) = truncate (q * 32768).
Proof.
  intros Hlo Hhi. unfold encodeSample, min1.
  destruct (Qle_bool 1 q) eqn:E1; [exfalso; q_order q|].
  unfold maxNeg1. destruct (Qle_bool q (-1)) eqn:E2.
  - assert (Hq : (q == -1)%Q) by q_order q.
    rewrite (truncate_Qeq (q * 32768) (-1 * 32768)); [reflexivity|].
    now rewrite Hq.
  - assert (Hneg : ltZero (Finite q) = true).
    { simpl. destruct (Qle_bool 0 q) eqn:E0; [exfalso; q_order q|reflexivity]. }
    rewrite Hneg. simpl. apply wrap16_id.
    pose proof (truncate_scale_neg q Hlo (Qlt_le_weak _ _ Hhi)). lia.
Qed.

(** A non-negative sample within range: scaled by 32767, truncated, not wrapped. *)
Lemma encodeSample_mid_pos q :
  (0 <= q)%Q -> (q <= 1)%Q -> encodeSample (Finite q) = truncate (q * 32767).
Proof.
  intros Hlo Hhi. unfold encodeSample, min1.
  destruct (Qle_bool 1 q) eqn:E1.
  - assert (Hq : (q == 1)%Q) by q_order q.
    rewrite (truncate_Qeq (q * 32767) (1 * 32767)); [reflexivity|].
    now rewrite Hq.
  - unfold maxNeg1.
    destruct (Qle_bool q (-1)) eqn:E2; [exfalso; q_order q|].
    assert (Hneg : ltZero (Finite q) = false).
    { simpl. apply negb_false_iff, Qle_bool_iff, Hlo. }
    rewrite Hneg. simpl. apply wrap16_id.
    pose proof (truncate_scale_pos q Hlo Hhi). lia.
Qed.

(** Clamping from above. *)
Lemma encodeSample_high q : (1 <= q)%Q -> encodeSample (Finite q) = 32767.
Proof.
  intros Hq. unfold encodeSample, min1.
  apply Qle_bool_iff in Hq. now rewrite Hq.
Qed.

(** Clamping from below. *)
Lemma encodeSample_low q : (q <= -1)%Q -> encodeSample (Finite q) = -32768.
Proof.
  intros Hq. unfold encodeSample, min1.
  destruct (Qle_bool 1 q) eqn:E1; [exfalso; q_order q|].
  unfold maxNeg1. apply Qle_bool_iff in Hq. now rewrite Hq.
Qed.

(** Every stored value fits the [Int16Array] element. *)
Lemma encodeSample_range x : -32768 <= encodeSample x <= 32767.
Proof.
  destruct x as [| | |q]; [vm_compute; split; discriminate ..|].
  destruct (Qlt_le_dec q (-1)) as [H1|H1].
  { rewrite encodeSample_low by now apply Qlt_le_weak. lia. }
  destruct (Qlt_le_dec q 0) as [H2|H2].
  { rewrite encodeSample_mid_neg by assumption.
    pose proof (truncate_scale_neg q H1 (Qlt_le_weak _ _ H2)). lia. }
  destruct (Qlt_le_dec 1 q) as [H3|H3].
  { rewrite encodeSample_high by now apply Qlt_le_weak. lia. }
  rewrite encodeSample_mid_pos by assumption.
  pose proof (truncate_scale_pos q H2 H3). lia.
Qed.

(** The encoding depends on the number only. *)
Lemma encodeSample_same x y : sameSample x y -> encodeSample x = encodeSample y.
Proof.
  destruct x as [| | |p], y as [| | |q]; simpl; try easy. intros E.
  destruct (Qlt_le_dec p (-1)) as [H1|H1].
  { rewrite !encodeSample_low; [reflexivity | rewrite <- E | ]; now apply Qlt_le_weak. }
  destruct (Qlt_le_dec p 0) as [H2|H2].
  { rewrite !encodeSample_mid_neg; try assumption; try (rewrite <- E; assumption).
    apply truncate_Qeq. now rewrite E. }
  destruct (Qlt_le_dec 1 p) as [H3|H3].
  { rewrite !encodeSample_high; [reflexivity | rewrite <- E | ]; now apply Qlt_le_weak. }
  rewrite !encodeSample_mid_pos; try assumption; try (rewrite <- E; assumption).
  apply truncate_Qeq. now rewrite E.
Qed.

(** The character-by-character loop rebuilds its input. *)
Lemma fold_snoc_id {A} (l acc : list A) :
  fold_left (fun binary b => (binary ++ [b])%list) l acc = (acc ++ l)%list.
Proof.
  revert acc. induction l as [|x l IH]; intros acc; simpl.
  - now rewrite app_nil_r.
  - rewrite IH. now rewrite <- app_assoc.
Qed.

Lemma base64Encode_btoa bytes : base64Encode bytes = btoa bytes.
Proof. unfold base64Encode. now rewrite fold_snoc_id. Qed.

(** *** The bytes sent *)

(** Lists taken three elements at a time. *)
Lemma list_ind3 {A} (P : list A -> Prop) :
  P [] -> (forall a, P [a]) -> (forall a b, P [a; b]) ->
  (forall a b c l, P l -> P (a :: b :: c :: l)) ->
  forall l, P l.
Proof.
  intros H0 H1 H2 H3. fix IH 1. intros [|a [|b [|c l]]].
  - exact H0.
  - apply H1.
  - apply H2.
  - apply H3, IH.
Qed.

(** The 256 byte values. *)
Lemma isByte_cases (b : Z) : isByte b -> In b (map Z.of_nat (seq 0 256)).
Proof.
  intros [Hlo Hhi]. apply in_map_iff. exists (Z.to_nat b). split; [lia|].
  apply in_seq. lia.
Qed.

(** A property of bytes that a computation confirms on each of them. *)
Lemma byte_forall (P : Z -> bool) :
  forallb P (map Z.of_nat (seq 0 256)) = true ->
  forall b, isByte b -> P b = true.
Proof.
  intros Hall b Hb. rewrite forallb_forall in Hall. apply Hall.
  now apply isByte_cases.
Qed.

Lemma byte_forall2 (P : Z -> Z -> bool) :
  forallb (fun a => forallb (P a) (map Z.of_nat (seq 0 256)))
    (map Z.of_nat (seq 0 256)) = true ->
  forall a b, isByte a -> isByte b -> P a b = true.
Proof.
  intros Hall a b Ha Hb.
  apply (byte_forall (P a)); [|exact Hb].
  exact (byte_forall (fun a => forallb (P a) (map Z.of_nat (seq 0 256))) Hall a Ha).
Qed.

(** Every sextet is read back from its character, which is never the
    padding character. *)
Lemma b64index_b64char n :
  0 <= n < 64 -> b64index (b64char n) = n /\ Ascii.eqb (b64char n) "="%char = false.
Proof.
  intros Hn.
  assert (Hk : exists k : nat, n = Z.of_nat k /\ (k < 64)%nat).
  { exists (Z.to_nat n). lia. }
  destruct Hk as (k & -> & Hk).
  do 64 (destruct k as [|k]; [split; reflexivity|]). lia.
Qed.

(** The first two characters of a group give back its first byte. *)
Lemma first_byte a b :
  isByte a -> isByte b ->
  let s1 := Z.shiftr a 2 in
  let s2 := Z.lor (Z.shiftl (Z.land a 3) 4) (Z.shiftr b 4) in
  (0 <= s1 < 64) /\ (0 <= s2 < 64)
  /\ s1 * 4 + s2 / 16 = a /\ s2 mod 16 = b / 16.
Proof.
  intros Ha Hb.
  pose (P := fun a b : Z =>
    let s1 := Z.shiftr a 2 in
    let s2 := Z.lor (Z.shiftl (Z.land a 3) 4) (Z.shiftr b 4) in
    Z.leb 0 s1 && Z.ltb s1 64 && Z.leb 0 s2 && Z.ltb s2 64
    && Z.eqb (s1 * 4 + s2 / 16) a && Z.eqb (s2 mod 16) (b / 16)).
  assert (Hall : P a b = true).
  { apply byte_forall2; [vm_compute; reflexivity | exact Ha | exact Hb]. }
  unfold P in Hall. cbv zeta in Hall |- *.
  repeat (apply andb_prop in Hall as [Hall ?]).
  rewrite ?Z.leb_le, ?Z.ltb_lt, ?Z.eqb_eq in *. lia.
Qed.

(** The third character gives the rest of the second byte and the top of
    the third. *)
Lemma third_sextet b c :
  isByte b -> isByte c ->
  let s3 := Z.lor (Z.shiftl (Z.land b 15) 2) (Z.shiftr c 6) in
  let s4 := Z.land c 63 in
  (0 <= s3 < 64) /\ (0 <= s4 < 64)
  /\ s3 / 4 = b mod 16 /\ (s3 mod 4) * 64 + s4 = c.
Proof.
  intros Hb Hc.
  pose (P := fun b c : Z =>
    let s3 := Z.lor (Z.shiftl (Z.land b 15) 2) (Z.shiftr c 6) in
    let s4 := Z.land c 63 in
    Z.leb 0 s3 && Z.ltb s3 64 && Z.leb 0 s4 && Z.ltb s4 64
    && Z.eqb (s3 / 4) (b mod 16) && Z.eqb ((s3 mod 4) * 64 + s4) c).
  assert (Hall : P b c = true).
  { apply byte_forall2; [vm_compute; reflexivity | exact Hb | exact Hc]. }
  unfold P in Hall. cbv zeta in Hall |- *.
  repeat (apply andb_prop in Hall as [Hall ?]).
  rewrite ?Z.leb_le, ?Z.ltb_lt, ?Z.eqb_eq in *. lia.
Qed.

(** The sextets of a final group of one or two bytes. *)
Lemma last_sextets a :
  isByte a ->
  (0 <= Z.shiftl (Z.land a 3) 4 < 64)
  /\ Z.shiftr a 2 * 4 + Z.shiftl (Z.land a 3) 4 / 16 = a
  /\ (0 <= Z.shiftl (Z.land a 15) 2 < 64)
  /\ Z.shiftl (Z.land a 15) 2 / 4 = a mod 16.
Proof.
  intros Ha.
  pose (P := fun a : Z =>
    let s2 := Z.shiftl (Z.land a 3) 4 in
    let s3 := Z.shiftl (Z.land a 15) 2 in
    Z.leb 0 s2 && Z.ltb s2 64 && Z.eqb (Z.shiftr a 2 * 4 + s2 / 16) a
    && Z.leb 0 s3 && Z.ltb s3 64 && Z.eqb (s3 / 4) (a mod 16)).
  assert (Hall : P a = true).
  { apply byte_forall; [vm_compute; reflexivity | exact Ha]. }
  unfold P in Hall. cbv zeta in Hall.
  repeat (apply andb_prop in Hall as [Hall ?]).
  rewrite ?Z.leb_le, ?Z.ltb_lt, ?Z.eqb_eq in *. lia.
Qed.

(** Decoding undoes [btoa] on every string of bytes. *)
Lemma atob_btoa l : Forall isByte l -> atob (btoa l) = l.
Proof.
  induction l as [|a|a b|a b c l IH] using list_ind3; intros Hl.
  - reflexivity.
  - apply Forall_cons_1 in Hl as [Ha _].
    destruct (last_sextets a Ha) as (Hs2 & Hb1 & _).
    assert (Hs1 : 0 <= Z.shiftr a 2 < 64).
    { destruct (first_byte a a Ha Ha) as (Hs1 & _). exact Hs1. }
    cbn [btoa atob].
    rewrite (proj1 (b64index_b64char _ Hs1)), (proj1 (b64index_b64char _ Hs2)).
    change (Ascii.eqb "=" "=") with true. cbv iota. now rewrite Hb1.
  - apply Forall_cons_1 in Hl as [Ha Hl]. apply Forall_cons_1 in Hl as [Hb _].
    destruct (first_byte a b Ha Hb) as (Hs1 & Hs2 & Hb1 & Hmod).
    destruct (last_sextets b Hb) as (_ & _ & Hs3 & Hb2).
    cbn [btoa atob].
    rewrite (proj1 (b64index_b64char _ Hs1)), (proj1 (b64index_b64char _ Hs2)),
      (proj1 (b64index_b64char _ Hs3)), (proj2 (b64index_b64char _ Hs3)).
    change (Ascii.eqb "=" "=") with true. cbv iota.
    rewrite Hb1, Hmod, Hb2. f_equal. f_equal.
    pose proof (Z.div_mod b 16). lia.
  - apply Forall_cons_1 in Hl as [Ha Hl]. apply Forall_cons_1 in Hl as [Hb Hl].
    apply Forall_cons_1 in Hl as [Hc Hl].
    destruct (first_byte a b Ha Hb) as (Hs1 & Hs2 & Hb1 & Hmod).
    destruct (third_sextet b c Hb Hc) as (Hs3 & Hs4 & Hdiv & Hb3).
    change (btoa (a :: b :: c :: l))
      with (String (b64char (Z.shiftr a 2))
              (String (b64char (Z.lor (Z.shiftl (Z.land a 3) 4) (Z.shiftr b 4)))
                 (String (b64char (Z.lor (Z.shiftl (Z.land b 15) 2) (Z.shiftr c 6)))
                    (String (b64char (Z.land c 63)) (btoa l))))).
    cbn [atob].
    rewrite (proj1 (b64index_b64char _ Hs1)), (proj1 (b64index_b64char _ Hs2)),
      (proj1 (b64index_b64char _ Hs3)), (proj2 (b64index_b64char _ Hs3)),
      (proj1 (b64index_b64char _ Hs4)), (proj2 (b64index_b64char _ Hs4)).
    cbv iota. rewrite Hb1, Hmod, Hdiv, Hb3, (IH Hl). f_equal. f_equal.
    pose proof (Z.div_mod b 16). lia.
Qed.

(** The two bytes of a 16-bit integer are bytes, and give it back. *)
Lemma int16Bytes_spec n :
  -32768 <= n <= 32767 ->
  exists lo hi, int16Bytes n = [lo; hi] /\ isByte lo /\ isByte hi
                /\ wrap16 (lo + 256 * hi) = n.
Proof.
  intros Hn. exists (Z.land n 255), (Z.land (Z.shiftr n 8) 255).
  split; [reflexivity|].
  change 255 with (Z.ones 8). rewrite !Z.land_ones, Z.shiftr_div_pow2 by lia.
  change (2 ^ 8) with 256.
  split; [unfold isByte; apply Z.mod_pos_bound; lia|].
  split; [unfold isByte; apply Z.mod_pos_bound; lia|].
  assert (E : n mod 256 + 256 * ((n / 256) mod 256) = n mod 65536).
  { change 65536 with (256 * 256). rewrite Z.rem_mul_r by lia. reflexivity. }
  rewrite E. unfold wrap16. rewrite Z.mod_mod by lia.
  exact (wrap16_id n Hn).
Qed.

(** The byte view of an [Int16Array]: two bytes per element, and the
    elements can be read back. *)
Lemma bufferOf_spec int16 :
  Forall (fun n => -32768 <= n <= 32767) int16 ->
  Forall isByte (bufferOf int16)
  /\ length (bufferOf int16) = (2 * length int16)%nat
  /\ int16Of (bufferOf int16) = int16.
Proof.
  induction 1 as [|n l Hn _ (IHb & IHl & IHr)]; [now repeat split|].
  destruct (int16Bytes_spec n Hn) as (lo & hi & E & Hlo & Hhi & Hback).
  unfold bufferOf in *. cbn [flat_map]. rewrite E. cbn [app int16Of length].
  rewrite Hback, IHr, IHl. split; [|split; [lia | reflexivity]].
  constructor; [exact Hlo|]. constructor; [exact Hhi | exact IHb].
Qed.

Lemma encoded_in_range samples :
  Forall (fun n => -32768 <= n <= 32767) (map encodeSample samples).
Proof. apply Forall_map, Forall_forall. intros x _. apply encodeSample_range. Qed.

(** C3.  [createPcmBlob] is a function of its sample buffer.  Every sample
    encodes to an integer within [-32768, 32767], so the store into the
    [Int16Array] never wraps.  A sample at or above 1 encodes to 32767 and a
    sample at or below -1 to -32768 (clamping); a sample in [-1, 0) encodes
    to its product with 32768 truncated toward zero, and a sample in [0, 1]
    to its product with 32767 truncated toward zero.  In particular -1
    gives -32768 and 1 gives 32767.  Buffers holding the same numbers give
    the same blob.  The blob is declared [audio/pcm;rate=16000] and its
    data is the base64 text of the encoded samples: decoded, it is two
    bytes for each sample, in the order of the buffer, which read as
    little-endian signed 16-bit integers are the encoded samples. *)
Theorem createPcmBlob_clamps_scales_truncates :
  (forall x, -32768 <= encodeSample x <= 32767)
  /\ (forall q, (1 <= q)%Q -> encodeSample (Finite q) = 32767)
  /\ (forall q, (q <= -1)%Q -> encodeSample (Finite q) = -32768)
  /\ (forall q, (-1 <= q)%Q -> (q < 0)%Q ->
        encodeSample (Finite q) = truncate (q * 32768))
  /\ (forall q, (0 <= q)%Q -> (q <= 1)%Q ->
        encodeSample (Finite q) = truncate (q * 32767))
  /\ encodeSample (Finite (-1)) = -32768
  /\ encodeSample (Finite 1) = 32767
  /\ (forall xs ys, Forall2 sameSample xs ys ->
        createPcmBlob xs = createPcmBlob ys)
  /\ (forall xs,
        mimeType (createPcmBlob xs) = "audio/pcm;rate=16000"
        /\ atob (data (createPcmBlob xs)) = bufferOf (map encodeSample xs)
        /\ length (atob (data (createPcmBlob xs))) = (2 * length xs)%nat
        /\ int16Of (atob (data (createPcmBlob xs))) = map encodeSample xs).
Proof.
  repeat (split; [first [ apply encodeSample_range
                        | intros; now apply encodeSample_high
                        | intros; now apply encodeSample_low
                        | intros; now apply encodeSample_mid_neg
                        | intros; now apply encodeSample_mid_pos ]|]).
  split.
  - intros xs ys Hxy. unfold createPcmBlob. do 3 f_equal.
    induction Hxy as [|x y xs ys Hx _ IH]; simpl; [reflexivity|].
    now rewrite (encodeSample_same x y Hx), IH.
  - intros xs. split; [reflexivity|].
    destruct (bufferOf_spec _ (encoded_in_range xs)) as (Hbytes & Hlen & Hread).
    assert (Hdata : atob (data (createPcmBlob xs))
                    = bufferOf (map encodeSample xs)).
    { unfold createPcmBlob. cbn [data].
      now rewrite base64Encode_btoa, (atob_btoa _ Hbytes). }
    rewrite Hdata. split; [reflexivity|]. split; [|exact Hread].
    now rewrite Hlen, length_map.
Qed.

End Encoder.

(** ** The live merger *)

Section LiveMerge.
Import LiveApp.

(** The [if] branch of [processTranscriptUpdate]. *)
Lemma process_merge st ts text now sp date i item :
  list_find (fun t => Some (TranscriptItem.id t) = activeTranscriptIdRef st) ts
    = Some (i, item) ->
  TranscriptItem.speaker item = JStr sp ->
  now - lastUpdateTimeRef st < 3000 ->
  processTranscriptUpdate st ts text now sp date
  = (setLastUpdateTime now st,
     <[i := TranscriptItem.mk (TranscriptItem.id item) (JStr sp)
              (JStr (ToString (TranscriptItem.text item) +:+ text))
              (TranscriptItem.timestamp item) false]> ts).
Proof.
  intros Hfind Hsp Hrecent. unfold processTranscriptUpdate.
  rewrite Hfind, Hsp. simpl. rewrite String.eqb_refl.
  rewrite bool_decide_eq_true_2 by exact Hrecent. simpl.
  unfold appendText, addStr. now rewrite Hsp.
Qed.

(** The [else] branch of [processTranscriptUpdate]. *)
Lemma process_new st ts text now sp date :
  (forall i item,
      list_find (fun t => Some (TranscriptItem.id t) = activeTranscriptIdRef st) ts
        = Some (i, item) ->
      ~ (TranscriptItem.speaker item = JStr sp /\ now - lastUpdateTimeRef st < 3000)) ->
  processTranscriptUpdate st ts text now sp date
  = (setLastUpdateTime now (setActiveTranscriptId (Some (pretty now)) st),
     (ts ++ [TranscriptItem.mk (pretty now) (JStr sp) (JStr text) date true])%list).
Proof.
  intros Hno. unfold processTranscriptUpdate.
  destruct (list_find _ ts) as [[i item]|] eqn:Hfind; [|reflexivity].
  specialize (Hno i item eq_refl).
  destruct (strictEqStr (TranscriptItem.speaker item) sp) eqn:Hsp; [|reflexivity].
  destruct (bool_decide (now - lastUpdateTimeRef st < TIME_THRESHOLD_MS)) eqn:Hr;
    [|reflexivity].
  exfalso. apply Hno. split.
  - destruct (TranscriptItem.speaker item); simpl in Hsp; try discriminate.
    apply String.eqb_eq in Hsp. now subst.
  - now apply bool_decide_eq_true_1 in Hr.
Qed.

Section Sequence.
Context `{JsRuntime}.

(** A fragment event installs the array that the merger returns. *)
Lemma step_merge st text now sp date :
  step st (Merge text now sp date)
  = setTranscripts
      (snd (processTranscriptUpdate st (transcripts st) text now sp date))
      (fst (processTranscriptUpdate st (transcripts st) text now sp date)).
Proof.
  simpl. now destruct (processTranscriptUpdate st (transcripts st) text now sp date).
Qed.

Lemma append_empty_r (s : string) : s +:+ "" = s.
Proof. induction s as [|a s IH]; [reflexivity | exact (f_equal (String a) IH)]. Qed.

Lemma append_assoc3 (a b c : string) : (a +:+ b) +:+ c = a +:+ (b +:+ c).
Proof. induction a as [|x a IH]; [reflexivity | exact (f_equal (String x) IH)]. Qed.

(** Once a single entry is active, every fragment of the same speaker that
    arrives within the threshold is folded into it. *)
Lemma run_merges_into_active sp (rest : list Fragment) :
  forall st i a date fin,
    transcripts st = [TranscriptItem.mk i (JStr sp) (JStr a) date fin] ->
    activeTranscriptIdRef st = Some i ->
    withinThreshold (lastUpdateTimeRef st) (map arrival rest) ->
    transcripts (run st (map (mergeEvent sp) rest))
    = [TranscriptItem.mk i (JStr sp)
         (JStr (a +:+ concatAll (map fragmentText rest))) date
         (match rest with [] => fin | _ => false end)].
Proof.
  induction rest as [|f rest IH]; intros st i a date fin Hts Hact Hwithin.
  - cbn. rewrite Hts. unfold concatAll. cbn. now rewrite append_empty_r.
  - destruct Hwithin as [Hrecent Hwithin].
    cbn [map run fold_left]. fold (run (step st (mergeEvent sp f)) (map (mergeEvent sp) rest)).
    unfold mergeEvent at 1. rewrite step_merge.
    erewrite process_merge; cycle 1.
    { rewrite Hts, Hact. cbn. rewrite decide_True by reflexivity. reflexivity. }
    { reflexivity. }
    { exact Hrecent. }
    rewrite Hts. cbn [fst snd].
    erewrite IH; cycle 1.
    { reflexivity. }
    { exact Hact. }
    { exact Hwithin. }
    cbn [TranscriptItem.id TranscriptItem.text TranscriptItem.timestamp ToString
         map]. unfold concatAll. cbn [foldr].
    rewrite append_assoc3. now destruct rest.
Qed.
End Sequence.

End LiveMerge.

(** ** Ids of transcript entries *)

Lemma pretty_N_char_digit x : Ascii.is_nat (pretty_N_char x) <> None.
Proof. unfold pretty_N_char. repeat case_match; discriminate. Qed.

(** The digits of a positive number start with a digit. *)
Lemma pretty_N_go_head x : forall s,
  (0 < x)%N \/ numeralHead s -> numeralHead (pretty_N_go x s).
Proof.
  induction (N.lt_wf_0 x) as [x _ IH]. intros s Hs.
  destruct (N.eq_dec x 0%N) as [->|Hx].
  - rewrite pretty_N_go_0. destruct Hs as [Hs|Hs]; [lia | exact Hs].
  - rewrite pretty_N_go_step by lia. apply IH.
    + apply N.div_lt; lia.
    + right. left. apply pretty_N_char_digit.
Qed.

Lemma pretty_N_head (x : N) : numeralHead (pretty x).
Proof.
  unfold pretty, pretty_N. case_decide as Hx.
  - left. discriminate.
  - apply pretty_N_go_head. left. lia.
Qed.

Lemma pretty_Z_head (z : Z) : numeralHead (pretty z).
Proof.
  destruct z as [|p|p]; unfold pretty, pretty_Z.
  - left. discriminate.
  - apply (pretty_N_head (N.pos p)).
  - right. reflexivity.
Qed.

Lemma pretty_Z_not_prefixed (z : Z) (c : ascii) (s : string) :
  Ascii.is_nat c = None -> c <> "-"%char -> pretty z <> String c s.
Proof.
  intros Hc Hd E. pose proof (pretty_Z_head z) as Hh. rewrite E in Hh.
  destruct Hh as [Hh|Hh]; [now apply Hh | now apply Hd].
Qed.

(** An id built from an index is never the numeral of a clock reading. *)
Lemma post_process_not_numeral (z : Z) (i : nat) :
  pretty z <> "post-process-" +:+ pretty i.
Proof. apply pretty_Z_not_prefixed; [reflexivity | discriminate]. Qed.

Section MapItems.
Context `{JsRuntime}.

(** A successful [map] yields one result per element, element by element. *)
Lemma mapItems_Normal {T} (f : nat -> JValue -> Completion T) items :
  forall index out,
    mapItems f index items = Normal out ->
    Forall2 (fun p t => f (fst p) (snd p) = Normal t)
            (zip (seq index (length items)) items) out.
Proof.
  induction items as [|item rest IH]; intros index out Hmap; simpl in Hmap.
  - injection Hmap as <-. constructor.
  - destruct (f index item) as [t|m] eqn:Hf; simpl in Hmap; [|discriminate].
    destruct (mapItems f (S index) rest) as [ts|m] eqn:Hrest; simpl in Hmap;
      [|discriminate].
    injection Hmap as <-. simpl. constructor; [exact Hf | now apply IH].
Qed.

Lemma mapItems_length {T} (f : nat -> JValue -> Completion T) items index out :
  mapItems f index items = Normal out -> length out = length items.
Proof.
  intros Hmap. apply mapItems_Normal, Forall2_length in Hmap.
  rewrite length_zip_with, length_seq in Hmap. lia.
Qed.

(** The [map] throws exactly when the callback throws on some element. *)
Lemma mapItems_Throw {T} (f : nat -> JValue -> Completion T) items :
  forall index m,
    mapItems f index items = Throw m ->
    exists i item, items !! i = Some item /\ f (index + i)%nat item = Throw m.
Proof.
  induction items as [|item rest IH]; intros index m Hmap; simpl in Hmap;
    [discriminate|].
  destruct (f index item) as [t|m'] eqn:Hf; simpl in Hmap.
  - destruct (mapItems f (S index) rest) as [ts|m'] eqn:Hrest; simpl in Hmap;
      [discriminate|].
    injection Hmap as ->. destruct (IH _ _ Hrest) as (i & it & Hi & Hthrow).
    exists (S i), it. split; [exact Hi|].
    now replace (index + S i)%nat with (S index + i)%nat by lia.
  - injection Hmap as ->. exists 0%nat, item. split; [reflexivity|].
    now rewrite Nat.add_0_r.
Qed.

Lemma mapItems_total {T} (f : nat -> JValue -> Completion T) items :
  forall index,
    (forall i item, items !! i = Some item ->
                    exists t, f (index + i)%nat item = Normal t) ->
    exists out, mapItems f index items = Normal out.
Proof.
  intros index Hok. destruct (mapItems f index items) as [out|m] eqn:Hmap;
    [now exists out|].
  destruct (mapItems_Throw _ _ _ _ Hmap) as (i & item & Hi & Hthrow).
  destruct (Hok i item Hi) as [t Ht]. congruence.
Qed.
End MapItems.

Lemma liveIds_nil bound : liveIds bound [].
Proof. split; constructor. Qed.

Lemma liveIds_mono b b' l : b <= b' -> liveIds b l -> liveIds b' l.
Proof.
  intros Hb [Hnd Hall]. split; [exact Hnd|].
  eapply Forall_impl; [exact Hall|]. intros s [(n & Hn & ->)|Hs]; [left|now right].
  exists n. split; [lia | reflexivity].
Qed.

(** The numeral of a later reading is a fresh id. *)
Lemma liveIds_snoc b now l :
  b < now -> liveIds b l -> liveIds now (l ++ [pretty now]).
Proof.
  intros Hb [Hnd Hall]. split.
  - apply NoDup_app. split; [exact Hnd|]. split; [|apply NoDup_singleton].
    intros s Hs Hin. apply list_elem_of_singleton in Hin. subst s.
    rewrite Forall_forall in Hall. destruct (Hall _ Hs) as [(n & Hn & E)|(i & E)].
    + apply (inj pretty) in E. lia.
    + now apply post_process_not_numeral in E.
  - apply Forall_app. split.
    + eapply Forall_impl; [exact Hall|].
      intros s [(n & Hn & ->)|Hs]; [left|now right].
      exists n. split; [lia | reflexivity].
    + constructor; [|constructor]. left. exists now. split; [lia | reflexivity].
Qed.

(** Ids built from distinct indices are distinct. *)
Lemma indexed_ids_NoDup prefix index n :
  NoDup (map (fun i : nat => prefix +:+ pretty i) (seq index n)).
Proof.
  assert (Hinj : Inj (=) (=) (fun i : nat => prefix +:+ pretty i)).
  { intros i j E. apply (inj (String.app prefix)) in E. now apply (inj pretty) in E. }
  apply (NoDup_fmap_2 _), NoDup_seq.
Qed.

Lemma liveIds_indexed b index n :
  liveIds b (map (fun i : nat => "post-process-" +:+ pretty i) (seq index n)).
Proof.
  split; [apply indexed_ids_NoDup|].
  apply Forall_forall. intros s Hs. right.
  apply list_elem_of_fmap in Hs as (i & -> & _). now exists i.
Qed.

Section MapIds.
Context `{JsRuntime}.

Lemma mapItems_ids (f : nat -> JValue -> Completion TranscriptItem.t)
    (name : nat -> string) :
  (forall i item t, f i item = Normal t -> TranscriptItem.id t = name i) ->
  forall items index out,
    mapItems f index items = Normal out ->
    ids out = map name (seq index (length items)).
Proof.
  intros Hname. induction items as [|item rest IH]; intros index out Hmap;
    simpl in Hmap.
  - now injection Hmap as <-.
  - destruct (f index item) as [t|m] eqn:Hf; simpl in Hmap; [|discriminate].
    destruct (mapItems f (S index) rest) as [ts|m] eqn:Hrest; simpl in Hmap;
      [|discriminate].
    injection Hmap as <-. simpl. f_equal; [now apply (Hname _ item) | now apply IH].
Qed.

Lemma mapItems_Forall {T} (f : nat -> JValue -> Completion T) (P : T -> Prop) :
  (forall i item t, f i item = Normal t -> P t) ->
  forall items index out,
    mapItems f index items = Normal out -> Forall P out.
Proof.
  intros HP. induction items as [|item rest IH]; intros index out Hmap;
    simpl in Hmap.
  - injection Hmap as <-. constructor.
  - destruct (f index item) as [t|m] eqn:Hf; simpl in Hmap; [|discriminate].
    destruct (mapItems f (S index) rest) as [ts|m] eqn:Hrest; simpl in Hmap;
      [|discriminate].
    injection Hmap as <-. constructor; [now apply (HP index item) | exact (IH _ _ Hrest)].
Qed.

Lemma live_toTranscriptItem_Normal clock i item t :
  LiveApp.toTranscriptItem clock i item = Normal t ->
  t = TranscriptItem.mk ("post-process-" +:+ pretty i)
        (default JUndefined (getProp item "speaker"))
        (default JUndefined (getProp item "text")) (clock i) true
  /\ getProp item "speaker" <> None.
Proof.
  unfold LiveApp.toTranscriptItem.
  destruct (getProp item "speaker") as [sp|] eqn:Es; [|discriminate].
  destruct (getProp item "text") as [tx|] eqn:Et; [|discriminate].
  intros [= <-]. split; [reflexivity | discriminate].
Qed.

Lemma src_toTranscriptItem_Normal clock i item t :
  SrcApp.toTranscriptItem clock i item = Normal t ->
  exists sp,
    getProp item "speaker" = Some sp
    /\ t = TranscriptItem.mk ("auto-" +:+ pretty i)
             (if strictEqStr sp "Staff" || strictEqStr sp "Client"
              then sp else JStr "Staff")
             (default JUndefined (getProp item "text")) (clock i) true.
Proof.
  unfold SrcApp.toTranscriptItem.
  destruct (getProp item "speaker") as [sp|] eqn:Es; [|discriminate].
  destruct (getProp item "text") as [tx|] eqn:Et; [|discriminate].
  intros [= <-]. now exists sp.
Qed.
End MapIds.

Section LiveIds.
Context `{JsRuntime}.
Import LiveApp.

(** Replacing an entry by one with the same id keeps the ids. *)
Lemma ids_insert_same (l : list TranscriptItem.t) i item item' :
  l !! i = Some item -> TranscriptItem.id item' = TranscriptItem.id item ->
  ids (<[i := item']> l) = ids l.
Proof.
  intros Hi Hid. unfold ids.
  change (map TranscriptItem.id (<[i:=item']> l))
    with (TranscriptItem.id <$> <[i:=item']> l).
  rewrite list_fmap_insert, Hid. apply list_insert_id.
  now rewrite list_lookup_fmap, Hi.
Qed.

(** The merger keeps every entry where it is; at most it adds one at the end. *)
Lemma process_ids st ts text now sp date :
  let out := snd (processTranscriptUpdate st ts text now sp date) in
  ids out = ids ts \/ ids out = (ids ts ++ [pretty now])%list.
Proof.
  unfold processTranscriptUpdate.
  destruct (list_find _ ts) as [[i item]|] eqn:Hfind; simpl.
  - apply list_find_Some in Hfind as (Hi & _ & _).
    destruct (strictEqStr (TranscriptItem.speaker item) sp
              && bool_decide (now - lastUpdateTimeRef st < TIME_THRESHOLD_MS));
      simpl.
    + left. now apply ids_insert_same with item.
    + right. unfold ids. now rewrite map_app.
  - right. unfold ids. now rewrite map_app.
Qed.

Lemma step_merge_transcripts st text now sp date :
  transcripts (step st (Merge text now sp date))
  = snd (processTranscriptUpdate st (transcripts st) text now sp date).
Proof.
  simpl. now destruct (processTranscriptUpdate st (transcripts st) text now sp date).
Qed.

Lemma step_chunk_transcripts st text now date :
  transcripts (step st (Chunk text now date)) = transcripts st
  \/ transcripts (step st (Chunk text now date))
     = snd (processTranscriptUpdate st (transcripts st) text now "Staff" date).
Proof.
  simpl. unfold handleTranscriptChunk.
  destruct (negb (truthy (trim text))); [now left | right].
  now destruct (processTranscriptUpdate st (transcripts st) text now "Staff" date).
Qed.

(** A chunk that is not blank is a fragment of the [Staff] speaker; a blank
    one changes nothing. *)
Lemma step_chunk_merge st text now date :
  step st (Chunk text now date)
  = if truthy (trim text) then step st (Merge text now "Staff" date) else st.
Proof.
  cbn [step]. unfold handleTranscriptChunk. now destruct (truthy (trim text)).
Qed.

Lemma live_updateTranscript_ids st id newText :
  ids (transcripts (updateTranscript st id newText)) = ids (transcripts st).
Proof.
  unfold updateTranscript, ids. simpl. rewrite map_map. apply map_ext.
  intros t. now destruct (String.eqb (TranscriptItem.id t) id).
Qed.

(** A diarization run either leaves the transcript alone or installs the
    entries built from the response. *)
Lemma live_analyze_transcripts st apiKey blob reply clock :
  let st' := fst (analyzeAudioAndDiarize st apiKey blob reply clock) in
  transcripts st' = transcripts st
  \/ exists items,
       mapItems (toTranscriptItem clock) 0 items = Normal (transcripts st').
Proof.
  unfold analyzeAudioAndDiarize.
  destruct (match blob with Some b => Some b | None => recordedBlob st end)
    as [target|]; [|now left].
  destruct (negb (truthyOpt apiKey)); [now left|].
  destruct (diarize target reply clock) as [effects completion] eqn:Hd.
  destruct completion as [new|m]; [|now left].
  right. simpl. unfold diarize in Hd.
  destruct (bool_decide _) in Hd; [discriminate|].
  injection Hd as _ Hc. destruct reply as [m|jsonText]; [discriminate|].
  destruct (negb (truthyOpt jsonText)); [discriminate|].
  destruct (JSON_parse (default "" jsonText)) as [parsed|m]; simpl in Hc;
    [|discriminate].
  destruct parsed; simpl in Hc; try discriminate. now exists items.
Qed.

Lemma live_toTranscriptItem_id clock i item t :
  toTranscriptItem clock i item = Normal t ->
  TranscriptItem.id t = "post-process-" +:+ pretty i.
Proof. intros Ht. now apply live_toTranscriptItem_Normal in Ht as [-> _]. Qed.

(** One event keeps the ids distinct, the bound moving to its reading. *)
Lemma step_liveIds st e b :
  liveIds b (ids (transcripts st)) ->
  increasingFrom b (clockReadings [e]) ->
  liveIds (List.last (clockReadings [e]) b) (ids (transcripts (step st e))).
Proof.
  intros Hinv Hinc. destruct e as [text now date|text now sp date|id newText
                                  |apiKey blob reply clock|confirmed].
  - simpl in Hinc. destruct Hinc as [Hb _]. cbn [clockReadings flat_map app List.last].
    destruct (step_chunk_transcripts st text now date) as [-> | ->].
    + apply liveIds_mono with b; [lia | exact Hinv].
    + destruct (process_ids st (transcripts st) text now "Staff" date) as [-> | ->].
      * apply liveIds_mono with b; [lia | exact Hinv].
      * now apply liveIds_snoc with b.
  - simpl in Hinc. destruct Hinc as [Hb _]. cbn [clockReadings flat_map app List.last].
    rewrite step_merge_transcripts.
    destruct (process_ids st (transcripts st) text now sp date) as [-> | ->].
    + apply liveIds_mono with b; [lia | exact Hinv].
    + now apply liveIds_snoc with b.
  - cbn [clockReadings flat_map app List.last step].
    now rewrite live_updateTranscript_ids.
  - cbn [clockReadings flat_map app List.last step].
    destruct (live_analyze_transcripts st apiKey blob reply clock) as [-> | [items Hmap]];
      [exact Hinv|].
    rewrite (mapItems_ids _ (fun i : nat => "post-process-" +:+ pretty i)
               (live_toTranscriptItem_id clock) _ _ _ Hmap).
    apply liveIds_indexed.
  - cbn [clockReadings flat_map app List.last step]. unfold resetSession.
    destruct (_ && negb confirmed); [exact Hinv | apply liveIds_nil].
Qed.

Lemma last_nonempty_default (n : Z) l a b :
  List.last (n :: l) a = List.last (n :: l) b.
Proof.
  revert n. induction l as [|m l IH]; intros n; [reflexivity|].
  change (List.last (m :: l) a = List.last (m :: l) b). apply IH.
Qed.

Lemma increasingFrom_app b l1 l2 :
  increasingFrom b (l1 ++ l2)
  <-> increasingFrom b l1 /\ increasingFrom (List.last l1 b) l2.
Proof.
  revert b. induction l1 as [|n l1 IH]; intros b.
  - simpl. tauto.
  - cbn [app increasingFrom]. rewrite IH.
    destruct l1 as [|m l1]; [simpl; tauto|].
    rewrite (last_nonempty_default m l1 n b).
    change (List.last (n :: m :: l1) b) with (List.last (m :: l1) b). tauto.
Qed.

(** Distinct ids along a run whose readings increase. *)
Lemma run_liveIds events : forall st b,
  liveIds b (ids (transcripts st)) ->
  increasingFrom b (clockReadings events) ->
  exists b', liveIds b' (ids (transcripts (run st events))).
Proof.
  induction events as [|e events IH]; intros st b Hinv Hinc.
  - now exists b.
  - assert (E : clockReadings (e :: events)
                = (clockReadings [e] ++ clockReadings events)%list).
    { unfold clockReadings. simpl. now rewrite app_nil_r. }
    rewrite E in Hinc.
    apply increasingFrom_app in Hinc as [H1 H2].
    apply (IH (step st e) (List.last (clockReadings [e]) b)); [|exact H2].
    now apply step_liveIds.
Qed.
End LiveIds.

Section ActiveEntry.
Context `{JsRuntime}.
Import LiveApp.

(** What the merger leaves behind: either the ids and the active id are as
    before, or a numeral of [now] was appended and made the active id. *)
Lemma process_ids_active st ts text now sp date :
  let out := processTranscriptUpdate st ts text now sp date in
  (ids (snd out) = ids ts
   /\ activeTranscriptIdRef (fst out) = activeTranscriptIdRef st)
  \/ (ids (snd out) = (ids ts ++ [pretty now])%list
      /\ activeTranscriptIdRef (fst out) = Some (pretty now)).
Proof.
  unfold processTranscriptUpdate.
  destruct (list_find _ ts) as [[i item]|] eqn:Hfind; cbn.
  - apply list_find_Some in Hfind as (Hi & _ & _).
    destruct (strictEqStr (TranscriptItem.speaker item) sp
              && bool_decide (now - lastUpdateTimeRef st < TIME_THRESHOLD_MS));
      cbn.
    + left. split; [now apply ids_insert_same with item | reflexivity].
    + right. split; [unfold ids; now rewrite map_app | reflexivity].
  - right. split; [unfold ids; now rewrite map_app | reflexivity].
Qed.

Lemma activeEntry_merge st text now sp date b :
  b < now -> activeEntry b st -> activeEntry now (step st (Merge text now sp date)).
Proof.
  intros Hb (Hids & Htime & Hlast). unfold activeEntry.
  rewrite step_merge_transcripts.
  assert (Hact : activeTranscriptIdRef (step st (Merge text now sp date))
                 = activeTranscriptIdRef
                     (fst (processTranscriptUpdate st (transcripts st)
                             text now sp date))).
  { cbn [step].
    now destruct (processTranscriptUpdate st (transcripts st) text now sp date). }
  rewrite Hact.
  destruct (process_ids_active st (transcripts st) text now sp date)
    as [[-> ->] | [-> ->]].
  - split; [apply liveIds_mono with b; [lia | exact Hids]|]. split.
    + intros a Ha. destruct (Htime a Ha) as (n & Hn & ->).
      exists n. split; [lia | reflexivity].
    + exact Hlast.
  - split; [now apply liveIds_snoc with b|]. split.
    + intros a [= <-]. exists now. split; [lia | reflexivity].
    + intros a [= <-] _. apply last_snoc.
Qed.

Lemma activeEntry_mono st b b' : b <= b' -> activeEntry b st -> activeEntry b' st.
Proof.
  intros Hb (Hids & Htime & Hlast).
  split; [now apply liveIds_mono with b|]. split; [|exact Hlast].
  intros a Ha. destruct (Htime a Ha) as (n & Hn & ->).
  exists n. split; [lia | reflexivity].
Qed.

Lemma step_activeEntry st e b :
  activeEntry b st ->
  increasingFrom b (clockReadings [e]) ->
  activeEntry (List.last (clockReadings [e]) b) (step st e).
Proof.
  intros Hinv Hinc. destruct e as [text now date|text now sp date|id newText
                                  |apiKey blob reply clock|confirmed].
  - cbn in Hinc. destruct Hinc as [Hb _]. cbn [clockReadings flat_map app List.last].
    rewrite step_chunk_merge. destruct (truthy (trim text)).
    + now apply activeEntry_merge with b.
    + apply activeEntry_mono with b; [lia | exact Hinv].
  - cbn in Hinc. destruct Hinc as [Hb _]. cbn [clockReadings flat_map app List.last].
    now apply activeEntry_merge with b.
  - cbn [clockReadings flat_map app List.last step].
    destruct Hinv as (Hids & Htime & Hlast). unfold activeEntry.
    rewrite live_updateTranscript_ids.
    split; [exact Hids|]. split; [exact Htime | exact Hlast].
  - cbn [clockReadings flat_map app List.last step].
    destruct Hinv as (Hids & Htime & Hlast). unfold activeEntry.
    assert (Hact : activeTranscriptIdRef
                     (fst (analyzeAudioAndDiarize st apiKey blob reply clock))
                   = activeTranscriptIdRef st).
    { unfold analyzeAudioAndDiarize.
      destruct (match blob with Some b0 => Some b0 | None => recordedBlob st end);
        [|reflexivity].
      destruct (negb (truthyOpt apiKey)); [reflexivity|].
      now destruct (diarize t reply clock) as [effects [entries|m]]. }
    rewrite Hact.
    destruct (live_analyze_transcripts st apiKey blob reply clock)
      as [-> | [items Hmap]];
      [split; [exact Hids|]; split; [exact Htime | exact Hlast]|].
    rewrite (mapItems_ids _ (fun i : nat => "post-process-" +:+ pretty i)
               (live_toTranscriptItem_id clock) _ _ _ Hmap).
    split; [apply liveIds_indexed|]. split; [exact Htime|].
    intros a Ha Hin. exfalso. destruct (Htime a Ha) as (n & _ & ->).
    apply list_elem_of_fmap in Hin as (i & E & _).
    now apply post_process_not_numeral in E.
  - cbn [clockReadings flat_map app List.last step]. unfold resetSession.
    destruct (_ && negb confirmed); [exact Hinv|].
    split; [apply liveIds_nil|]. split; [discriminate|].
    intros a _ Hin. cbn in Hin. now apply not_elem_of_nil in Hin.
Qed.

Lemma run_activeEntry events : forall st b,
  activeEntry b st ->
  increasingFrom b (clockReadings events) ->
  exists b', activeEntry b' (run st events).
Proof.
  induction events as [|e events IH]; intros st b Hinv Hinc.
  - now exists b.
  - assert (E : clockReadings (e :: events)
                = (clockReadings [e] ++ clockReadings events)%list).
    { unfold clockReadings. simpl. now rewrite app_nil_r. }
    rewrite E in Hinc. apply increasingFrom_app in Hinc as [H1 H2].
    apply (IH (step st e) (List.last (clockReadings [e]) b)); [|exact H2].
    now apply step_activeEntry.
Qed.

(** While the clock readings increase, the entry that the merger finds
    through [activeTranscriptIdRef] is the last entry of the transcript. *)
Lemma active_entry_is_last events i item :
  strictlyIncreasing (clockReadings events) ->
  list_find (fun t => Some (TranscriptItem.id t)
                      = activeTranscriptIdRef (run initial events))
    (transcripts (run initial events)) = Some (i, item) ->
  S i = length (transcripts (run initial events)).
Proof.
  intros Hinc Hfind.
  assert (Hfrom : exists b, increasingFrom b (clockReadings events)).
  { destruct (clockReadings events) as [|now rest].
    - now exists 0.
    - exists (now - 1). split; [lia | exact Hinc]. }
  destruct Hfrom as [b Hfrom].
  assert (Hinit : activeEntry b initial).
  { split; [apply liveIds_nil|]. split; [discriminate|].
    intros a Ha. discriminate. }
  destruct (run_activeEntry events initial b Hinit Hfrom)
    as (b' & [Hnd _] & _ & Hlast).
  apply list_find_Some in Hfind as (Hi & Hid & _).
  symmetry in Hid.
  assert (Hids : ids (transcripts (run initial events)) !! i
                 = Some (TranscriptItem.id item)).
  { unfold ids. change (map TranscriptItem.id ?l) with (TranscriptItem.id <$> l).
    now rewrite list_lookup_fmap, Hi. }
  pose proof (Hlast _ Hid (list_elem_of_lookup_2 _ _ _ Hids)) as Hl.
  rewrite last_lookup in Hl.
  pose proof (NoDup_lookup _ _ _ _ Hnd Hids Hl) as ->.
  unfold ids. rewrite length_map.
  apply lookup_lt_Some in Hi. lia.
Qed.

End ActiveEntry.

(** ** The ids while the clock does not step back *)

Section Distinct.
Context `{JsRuntime}.
Import LiveApp.





Lemma mergerState_mono r r' st : r <= r' -> mergerState r st -> mergerState r' st.
Proof.
  intros Hr (Hnd & Hall & Hnum & Hact).
  split; [exact Hnd|]. split; [exact Hall|]. split; [exact Hnum|].
  intros t n Hin Hid. destruct (Hact t n Hin Hid) as [Hlast Ha].
  split; [lia | exact Ha].
Qed.





End Distinct.

Section SrcIds.
Context `{JsRuntime}.
Import SrcApp.

(** [find] fails exactly when no entry has the id. *)
Lemma find_id_None (l : list TranscriptItem.t) id :
  List.find (fun t => String.eqb (TranscriptItem.id t) id) l = None
  <-> id ∉ ids l.
Proof.
  induction l as [|t l IH]; simpl.
  - split; [intros _ Hin; inversion Hin | reflexivity].
  - destruct (String.eqb_spec (TranscriptItem.id t) id) as [E|E].
    + split; [discriminate|]. intros Hnin. exfalso. apply Hnin. rewrite E. left.
    + rewrite IH. rewrite not_elem_of_cons. split; [intros Hn; split; congruence | tauto].
Qed.


(** Editing an id that is absent appends a new [Staff] entry. *)
Lemma src_updateTranscript_absent st id text isFinal date :
  id ∉ ids (transcripts st) ->
  transcripts (updateTranscript st id text isFinal date)
  = (transcripts st
     ++ [TranscriptItem.mk id (JStr "Staff") (JStr text) date isFinal])%list.
Proof.
  intros Hnin. unfold updateTranscript.
  apply find_id_None in Hnin. now rewrite Hnin.
Qed.



Lemma src_toTranscriptItem_id clock i item t :
  toTranscriptItem clock i item = Normal t ->
  TranscriptItem.id t = "auto-" +:+ pretty i.
Proof. intros Ht. now apply src_toTranscriptItem_Normal in Ht as (sp & _ & ->). Qed.

Lemma src_toTranscriptItem_final clock i item t :
  toTranscriptItem clock i item = Normal t -> TranscriptItem.isFinal t = true.
Proof. intros Ht. now apply src_toTranscriptItem_Normal in Ht as (sp & _ & ->). Qed.


End SrcIds.

(** ** The merge rule of the live transcript *)

Section MergeRule.
Context `{JsRuntime}.

(** C1.  The merge rule of [processTranscriptUpdate].  When the transcript
    holds an entry whose id is the one kept in [activeTranscriptIdRef], that
    entry has the speaker of the incoming fragment, and the fragment arrives
    less than 3000 ms after the time kept in [lastUpdateTimeRef] (the arrival
    of the previous fragment), the fragment's text is appended to the text of
    that entry, its [isFinal] becomes [false], and no entry is added.  In
    every other case an entry with the decimal numeral of the arrival time as
    id, the fragment's speaker and text and [isFinal = true] is appended at
    the end and becomes the active entry.  Hence fragments of one speaker
    that start on an empty transcript and each arrive less than 3000 ms after
    the one before end as a single entry whose text is their concatenation in
    arrival order.  After every call the time kept is the arrival of the
    fragment just processed, and, along every run whose clock readings
    increase, the entry found through [activeTranscriptIdRef] is the last
    entry of the transcript, the one created last. *)
Theorem live_merge_rule :
  (forall st ts text now speaker date i item,
      list_find (fun t => Some (TranscriptItem.id t)
                          = LiveApp.activeTranscriptIdRef st) ts
        = Some (i, item) ->
      TranscriptItem.speaker item = JStr speaker ->
      now - LiveApp.lastUpdateTimeRef st < 3000 ->
      LiveApp.processTranscriptUpdate st ts text now speaker date
      = (LiveApp.setLastUpdateTime now st,
         <[i := TranscriptItem.mk (TranscriptItem.id item) (JStr speaker)
                  (JStr (ToString (TranscriptItem.text item) +:+ text))
                  (TranscriptItem.timestamp item) false]> ts))
  /\ (forall st ts text now speaker date,
         (forall i item,
             list_find (fun t => Some (TranscriptItem.id t)
                                 = LiveApp.activeTranscriptIdRef st) ts
               = Some (i, item) ->
             ~ (TranscriptItem.speaker item = JStr speaker
                /\ now - LiveApp.lastUpdateTimeRef st < 3000)) ->
         LiveApp.processTranscriptUpdate st ts text now speaker date
         = (LiveApp.setLastUpdateTime now
              (LiveApp.setActiveTranscriptId (Some (pretty now)) st),
            (ts ++ [TranscriptItem.mk (pretty now) (JStr speaker) (JStr text)
                      date true])%list))
  /\ (forall st speaker (first : LiveApp.Fragment) (rest : list LiveApp.Fragment),
         LiveApp.transcripts st = [] ->
         LiveApp.withinThreshold (LiveApp.arrival first)
           (map LiveApp.arrival rest) ->
         LiveApp.transcripts
           (LiveApp.run st (map (LiveApp.mergeEvent speaker) (first :: rest)))
         = [TranscriptItem.mk (pretty (LiveApp.arrival first)) (JStr speaker)
              (JStr (concatAll (map LiveApp.fragmentText (first :: rest))))
              (LiveApp.created first)
              (match rest with [] => true | _ => false end)])
  /\ (forall st ts text now speaker date,
         LiveApp.lastUpdateTimeRef
           (fst (LiveApp.processTranscriptUpdate st ts text now speaker date))
         = now)
  /\ (forall events i item,
         LiveApp.strictlyIncreasing (LiveApp.clockReadings events) ->
         list_find (fun t => Some (TranscriptItem.id t)
                             = LiveApp.activeTranscriptIdRef
                                 (LiveApp.run LiveApp.initial events))
           (LiveApp.transcripts (LiveApp.run LiveApp.initial events))
           = Some (i, item) ->
         S i = length (LiveApp.transcripts (LiveApp.run LiveApp.initial events))).
Proof.
  split; [|split; [|split; [|split]]].
  - intros. now apply process_merge.
  - intros. now apply process_new.
  - intros st speaker first rest Hempty Hwithin.
    cbn [map]. unfold LiveApp.run. cbn [fold_left].
    fold (LiveApp.run (LiveApp.step st (LiveApp.mergeEvent speaker first))
            (map (LiveApp.mergeEvent speaker) rest)).
    unfold LiveApp.mergeEvent at 1. rewrite step_merge.
    rewrite process_new; cycle 1.
    { intros i item Hfind. rewrite Hempty in Hfind. discriminate. }
    rewrite Hempty. cbn [fst snd app].
    erewrite run_merges_into_active; cycle 1.
    { reflexivity. }
    { reflexivity. }
    { exact Hwithin. }
    unfold concatAll. reflexivity.
  - intros st ts text now speaker date. unfold LiveApp.processTranscriptUpdate.
    destruct (list_find _ ts) as [[i item]|]; [|reflexivity].
    now destruct (strictEqStr (TranscriptItem.speaker item) speaker
                  && bool_decide (now - LiveApp.lastUpdateTimeRef st
                                  < LiveApp.TIME_THRESHOLD_MS)).
  - intros events i item. apply active_entry_is_last.
Qed.

End MergeRule.

(** Scenario A: two fragments of one speaker, 500 ms apart, end as one
    entry.  Scenario B: a fragment five seconds after the previous one
    starts a second entry. *)
Lemma live_merge_rule_scenarios :
  let hello := {| LiveApp.fragmentText := "こんにちは";
                  LiveApp.arrival := 1000; LiveApp.created := 1001 |} in
  let regards := {| LiveApp.fragmentText := "、よろしく";
                    LiveApp.arrival := 1500; LiveApp.created := 1502 |} in
  let morning := TranscriptItem.mk "0" (JStr "Staff") (JStr "おはよう") 1 true in
  let st :=
    LiveApp.setLastUpdateTime 0
      (LiveApp.setActiveTranscriptId (Some "0") LiveApp.initial) in
  LiveApp.withinThreshold 1000 [1500]
  /\ LiveApp.transcripts
       (@LiveApp.run exampleRuntime LiveApp.initial
          (map (LiveApp.mergeEvent "Staff") [hello; regards]))
     = [TranscriptItem.mk "1000" (JStr "Staff") (JStr "こんにちは、よろしく")
          1001 false]
  /\ LiveApp.processTranscriptUpdate st [morning] "、元気です" 500 "Staff" 501
     = (LiveApp.setLastUpdateTime 500 st,
        [TranscriptItem.mk "0" (JStr "Staff") (JStr "おはよう、元気です") 1 false])
  /\ LiveApp.processTranscriptUpdate st [morning] "こんばんは" 5000 "Staff" 5001
     = (LiveApp.setLastUpdateTime 5000
          (LiveApp.setActiveTranscriptId (Some "5000") st),
        [morning;
         TranscriptItem.mk "5000" (JStr "Staff") (JStr "こんばんは") 5001 true])
  /\ LiveApp.strictlyIncreasing
       (LiveApp.clockReadings
          [LiveApp.Chunk "おはよう" 0 1; LiveApp.Chunk "こんばんは" 5000 5001])
  /\ 2%nat
     = length (LiveApp.transcripts
                 (@LiveApp.run exampleRuntime LiveApp.initial
                    [LiveApp.Chunk "おはよう" 0 1;
                     LiveApp.Chunk "こんばんは" 5000 5001])).
Proof.
  intros hello regards morning st.
  assert (Hwithin : LiveApp.withinThreshold 1000 [1500]).
  { simpl. unfold LiveApp.TIME_THRESHOLD_MS. lia. }
  assert (Hinc : LiveApp.strictlyIncreasing
                   (LiveApp.clockReadings
                      [LiveApp.Chunk "おはよう" 0 1;
                       LiveApp.Chunk "こんばんは" 5000 5001])).
  { cbn. lia. }
  destruct (@live_merge_rule exampleRuntime)
    as (Hmerge & Hnew & Hone & _ & Hlast).
  split; [exact Hwithin|]. split; [|split; [|split; [|split; [exact Hinc|]]]];
    [| | |exact (Hlast _ 1%nat
                   (TranscriptItem.mk "5000" (JStr "Staff") (JStr "こんばんは")
                      5001 true)
                   Hinc eq_refl)].
  - exact (Hone LiveApp.initial "Staff" hello [regards] eq_refl Hwithin).
  - refine (Hmerge st [morning] "、元気です" 500 "Staff" 501 0%nat morning
              eq_refl eq_refl _).
    cbn. lia.
  - refine (Hnew st [morning] "こんばんは" 5000 "Staff" 5001 _).
    intros i item _ [_ Hrecent]. cbn in Hrecent. lia.
Defined.

(** ** Diarization *)

Section Diarization.
Context `{JsRuntime}.

(** When the callback never throws, [map] is the indexed image of the array. *)
Lemma mapItems_imap {T} (f : nat -> JValue -> Completion T)
    (g : nat -> JValue -> T) items :
  forall index,
    (forall i item, items !! i = Some item ->
                    f (index + i)%nat item = Normal (g (index + i)%nat item)) ->
    mapItems f index items = Normal (imap (fun i => g (index + i)%nat) items).
Proof.
  induction items as [|item rest IH]; intros index Hf; [reflexivity|].
  cbn [mapItems]. rewrite <- (Nat.add_0_r index) at 1.
  rewrite (Hf 0%nat item eq_refl). cbn.
  rewrite (IH (S index)).
  - cbn. rewrite Nat.add_0_r. do 2 f_equal. apply imap_ext.
    intros i x _. cbn. f_equal. lia.
  - intros i it Hi. replace (S index + i)%nat with (index + S i)%nat by lia.
    now apply Hf.
Qed.

Lemma getProp_readable item k : readable item -> getProp item k <> None.
Proof. intros [Hn Hu]. destruct item; simpl; congruence. Qed.

Lemma getProp_unreadable item k : ~ readable item -> getProp item k = None.
Proof.
  intros Hnr. destruct item; try reflexivity; exfalso; apply Hnr; split; discriminate.
Qed.

Lemma live_toTranscriptItem_readable clock i item :
  readable item ->
  LiveApp.toTranscriptItem clock i item
  = Normal (diarizedEntry "post-process-" clock (fun v => v) i item).
Proof.
  intros Hr. unfold LiveApp.toTranscriptItem, diarizedEntry.
  pose proof (getProp_readable item "speaker" Hr).
  pose proof (getProp_readable item "text" Hr).
  destruct (getProp item "speaker"), (getProp item "text");
    [reflexivity | congruence ..].
Qed.

Lemma src_toTranscriptItem_readable clock i item :
  readable item ->
  SrcApp.toTranscriptItem clock i item
  = Normal (diarizedEntry "auto-" clock coerceSpeaker i item).
Proof.
  intros Hr. unfold SrcApp.toTranscriptItem, diarizedEntry, coerceSpeaker.
  pose proof (getProp_readable item "speaker" Hr).
  pose proof (getProp_readable item "text" Hr).
  destruct (getProp item "speaker"), (getProp item "text");
    [reflexivity | congruence ..].
Qed.

(** The transcript built from a response whose elements are all readable. *)
Lemma live_arrayMap_readable clock items :
  Forall readable items ->
  arrayMap (LiveApp.toTranscriptItem clock) (JArr items)
  = Normal (imap (diarizedEntry "post-process-" clock (fun v => v)) items).
Proof.
  intros Hall. unfold arrayMap.
  rewrite (mapItems_imap _ (diarizedEntry "post-process-" clock (fun v => v))).
  - reflexivity.
  - intros i item Hi. apply live_toTranscriptItem_readable.
    rewrite Forall_forall in Hall. apply Hall. eapply list_elem_of_lookup_2, Hi.
Qed.

Lemma src_arrayMap_readable clock items :
  Forall readable items ->
  arrayMap (SrcApp.toTranscriptItem clock) (JArr items)
  = Normal (imap (diarizedEntry "auto-" clock coerceSpeaker) items).
Proof.
  intros Hall. unfold arrayMap.
  rewrite (mapItems_imap _ (diarizedEntry "auto-" clock coerceSpeaker)).
  - reflexivity.
  - intros i item Hi. apply src_toTranscriptItem_readable.
    rewrite Forall_forall in Hall. apply Hall. eapply list_elem_of_lookup_2, Hi.
Qed.

End Diarization.

Section DiarizationRuns.
Context `{JsRuntime}.

(** [analyzeAudioAndDiarize] once the key and the recording are there. *)
Lemma live_analyze_run st apiKey blobToAnalyze targetBlob reply clock :
  truthyOpt apiKey = true ->
  match blobToAnalyze with
  | Some b => Some b
  | None => LiveApp.recordedBlob st
  end = Some targetBlob ->
  LiveApp.analyzeAudioAndDiarize st apiKey blobToAnalyze reply clock
  = (LiveApp.setStatus IDLE
       (match snd (LiveApp.diarize targetBlob reply clock) with
        | Normal entries =>
            LiveApp.setHasPostProcessed true
              (LiveApp.setTranscripts entries
                 (LiveApp.setErrorMsg None (LiveApp.setStatus PROCESSING st)))
        | Throw message =>
            LiveApp.setErrorMsg
              (Some ("分析処理に失敗しました: " +:+ message))
              (LiveApp.setErrorMsg None (LiveApp.setStatus PROCESSING st))
        end),
     fst (LiveApp.diarize targetBlob reply clock)).
Proof.
  intros Hkey Htarget. unfold LiveApp.analyzeAudioAndDiarize.
  rewrite Htarget, Hkey. cbn [negb].
  now destruct (LiveApp.diarize targetBlob reply clock) as [effects [entries|m]].
Qed.

Lemma src_analyze_run st apiKey audioBlob reply clock :
  truthyOpt apiKey = true ->
  SrcApp.analyzeAudioAndDiarize st apiKey audioBlob reply clock
  = (SrcApp.setStatus IDLE
       (match snd (SrcApp.diarize audioBlob reply clock) with
        | Normal entries =>
            SrcApp.setHasPostProcessed true
              (SrcApp.setTranscripts entries
                 (SrcApp.setErrorMsg None (SrcApp.setStatus PROCESSING st)))
        | Throw message =>
            SrcApp.setErrorMsg
              (Some ("AI分析中にエラーが発生しました: " +:+ message))
              (SrcApp.setErrorMsg None (SrcApp.setStatus PROCESSING st))
        end),
     fst (SrcApp.diarize audioBlob reply clock)).
Proof.
  intros Hkey. unfold SrcApp.analyzeAudioAndDiarize. rewrite Hkey. cbn [negb].
  now destruct (SrcApp.diarize audioBlob reply clock) as [effects [entries|m]].
Qed.

(** Entries installed by a successful run come from [map] over an array. *)
Lemma live_diarize_Normal targetBlob reply clock entries :
  snd (LiveApp.diarize targetBlob reply clock) = Normal entries ->
  exists items,
    mapItems (LiveApp.toTranscriptItem clock) 0 items = Normal entries.
Proof.
  unfold LiveApp.diarize. destruct (bool_decide _); [discriminate|]. cbn [snd].
  destruct reply as [m|jsonText]; [discriminate|].
  destruct (negb (truthyOpt jsonText)); [discriminate|].
  destruct (JSON_parse (default "" jsonText)) as [parsed|m]; cbn; [|discriminate].
  destruct parsed; cbn; try discriminate. intros Hmap. now exists items.
Qed.

Lemma src_diarize_Normal audioBlob reply clock entries :
  snd (SrcApp.diarize audioBlob reply clock) = Normal entries ->
  exists items,
    mapItems (SrcApp.toTranscriptItem clock) 0 items = Normal entries.
Proof.
  unfold SrcApp.diarize. cbn [snd].
  destruct reply as [m|text]; [discriminate|].
  destruct (JSON_parse _) as [parsed|m]; [|discriminate].
  destruct parsed; cbn; try discriminate. intros Hmap. now exists items.
Qed.

Lemma live_entries_fresh clock items index entries :
  mapItems (LiveApp.toTranscriptItem clock) index items = Normal entries ->
  Forall (fun t => TranscriptItem.isFinal t = true) entries /\ NoDup (ids entries).
Proof.
  intros Hmap. split.
  - refine (mapItems_Forall _ _ _ _ _ _ Hmap).
    intros i item t Ht. now apply live_toTranscriptItem_Normal in Ht as [-> _].
  - rewrite (mapItems_ids _ (fun i : nat => "post-process-" +:+ pretty i)
               (live_toTranscriptItem_id clock) _ _ _ Hmap).
    apply indexed_ids_NoDup.
Qed.

Lemma src_entries_fresh clock items index entries :
  mapItems (SrcApp.toTranscriptItem clock) index items = Normal entries ->
  Forall (fun t => TranscriptItem.isFinal t = true) entries /\ NoDup (ids entries).
Proof.
  intros Hmap. split.
  - exact (mapItems_Forall _ _ (src_toTranscriptItem_final clock) _ _ _ Hmap).
  - rewrite (mapItems_ids _ (fun i : nat => "auto-" +:+ pretty i)
               (src_toTranscriptItem_id clock) _ _ _ Hmap).
    apply indexed_ids_NoDup.
Qed.

(** An empty response text cleans to the empty text. *)
Lemma cleanJsonText_empty : SrcApp.cleanJsonText "" = "".
Proof. unfold SrcApp.cleanJsonText. cbn. now rewrite stripFences_empty, trim_empty. Qed.

Lemma textOr_empty text : truthyOpt text = false -> textOr text "" = "".
Proof.
  destruct text as [s|]; [|reflexivity]. cbn. unfold textOr.
  now destruct (truthy s).
Qed.

(** C2.  A diarization run, in either component, ends in one of two ways.
    When its [try] block completes, the transcript afterwards is exactly the
    list of entries built from the parsed response (whatever the transcript
    was before), each with [isFinal = true] and with ids that differ from
    one another, and the status is back to [IDLE].  When the block throws,
    the transcript afterwards equals the transcript before, the error
    message is set and the status is back to [IDLE].  A rejected request, an
    empty response text and a text that [JSON.parse] refuses all make the
    block throw; a response that parses to an array of readable elements
    makes it complete with one entry per element. *)
Theorem diarization_replaces_or_keeps :
  (forall st apiKey blobToAnalyze targetBlob reply clock,
      truthyOpt apiKey = true ->
      match blobToAnalyze with
      | Some b => Some b
      | None => LiveApp.recordedBlob st
      end = Some targetBlob ->
      let st' :=
        fst (LiveApp.analyzeAudioAndDiarize st apiKey blobToAnalyze reply clock) in
      match snd (LiveApp.diarize targetBlob reply clock) with
      | Normal entries =>
          LiveApp.transcripts st' = entries
          /\ Forall (fun t => TranscriptItem.isFinal t = true) entries
          /\ NoDup (ids entries)
          /\ LiveApp.status st' = IDLE
      | Throw message =>
          LiveApp.transcripts st' = LiveApp.transcripts st
          /\ LiveApp.errorMsg st'
             = Some ("分析処理に失敗しました: " +:+ message)
          /\ LiveApp.status st' = IDLE
      end)
  /\ (forall st apiKey audioBlob reply clock,
         truthyOpt apiKey = true ->
         let st' :=
           fst (SrcApp.analyzeAudioAndDiarize st apiKey audioBlob reply clock) in
         match snd (SrcApp.diarize audioBlob reply clock) with
         | Normal entries =>
             SrcApp.transcripts st' = entries
             /\ Forall (fun t => TranscriptItem.isFinal t = true) entries
             /\ NoDup (ids entries)
             /\ SrcApp.status st' = IDLE
         | Throw message =>
             SrcApp.transcripts st' = SrcApp.transcripts st
             /\ SrcApp.errorMsg st'
                = Some ("AI分析中にエラーが発生しました: " +:+ message)
             /\ SrcApp.status st' = IDLE
         end)
  /\ (forall targetBlob reply clock,
         (exists message, reply = Rejected message)
         \/ (exists text, reply = Responded text /\ truthyOpt text = false)
         \/ (exists text message,
                reply = Responded (Some text) /\ JSON_parse text = Throw message) ->
         exists message,
           snd (LiveApp.diarize targetBlob reply clock) = Throw message)
  /\ (forall audioBlob reply clock,
         (exists message, reply = Rejected message)
         \/ (exists text, reply = Responded text /\ truthyOpt text = false)
         \/ (exists text message,
                reply = Responded text
                /\ JSON_parse (SrcApp.cleanJsonText (textOr text "")) = Throw message) ->
         exists message,
           snd (SrcApp.diarize audioBlob reply clock) = Throw message)
  /\ (forall targetBlob text items clock,
         Z.of_nat (String.length
                     (audioUtils.arrayBufferToBase64 (Blob.bytes targetBlob)))
         <= 19 * 1024 * 1024 ->
         truthy text = true ->
         JSON_parse text = Normal (JArr items) ->
         Forall readable items ->
         snd (LiveApp.diarize targetBlob (Responded (Some text)) clock)
         = Normal (imap (diarizedEntry "post-process-" clock (fun v => v)) items))
  /\ (forall audioBlob text items clock,
         JSON_parse (SrcApp.cleanJsonText (textOr text "")) = Normal (JArr items) ->
         Forall readable items ->
         snd (SrcApp.diarize audioBlob (Responded text) clock)
         = Normal (imap (diarizedEntry "auto-" clock coerceSpeaker) items)).
Proof.
  repeat apply conj.
  - intros st apiKey blobToAnalyze targetBlob reply clock Hkey Htarget st'.
    subst st'. rewrite (live_analyze_run _ _ _ _ _ _ Hkey Htarget). cbn [fst].
    destruct (snd (LiveApp.diarize targetBlob reply clock)) as [entries|m] eqn:Hd.
    + apply live_diarize_Normal in Hd as [items Hmap].
      destruct (live_entries_fresh _ _ _ _ Hmap) as [Hfin Hnd]. now repeat split.
    + now repeat split.
  - intros st apiKey audioBlob reply clock Hkey st'.
    subst st'. rewrite (src_analyze_run _ _ _ _ _ Hkey). cbn [fst].
    destruct (snd (SrcApp.diarize audioBlob reply clock)) as [entries|m] eqn:Hd.
    + apply src_diarize_Normal in Hd as [items Hmap].
      destruct (src_entries_fresh _ _ _ _ Hmap) as [Hfin Hnd]. now repeat split.
    + now repeat split.
  - intros targetBlob reply clock Hfail. unfold LiveApp.diarize.
    destruct (bool_decide _); [now eexists|]. cbn [snd].
    destruct Hfail as [[m ->]|[(text & -> & Hempty)|(text & m & -> & Hparse)]].
    + now eexists.
    + rewrite Hempty. now eexists.
    + destruct (negb (truthyOpt (Some text))); [now eexists|].
      change (default "" (Some text)) with text. rewrite Hparse. now eexists.
  - intros audioBlob reply clock Hfail. unfold SrcApp.diarize. cbn [snd].
    destruct Hfail as [[m ->]|[(text & -> & Hempty)|(text & m & -> & Hparse)]].
    + now eexists.
    + rewrite (textOr_empty _ Hempty), cleanJsonText_empty.
      destruct JSON_parse_empty as [m ->]. now eexists.
    + rewrite Hparse. now eexists.
  - intros targetBlob text items clock Hsize Htext Hparse Hread.
    unfold LiveApp.diarize, LiveApp.MAX_BASE64_LENGTH.
    rewrite bool_decide_eq_false_2 by lia. cbn [snd truthyOpt].
    rewrite Htext. cbn [negb]. change (default "" (Some text)) with text.
    rewrite Hparse.
    now apply live_arrayMap_readable.
  - intros audioBlob text items clock Hparse Hread.
    unfold SrcApp.diarize. cbn [snd]. rewrite Hparse.
    now apply src_arrayMap_readable.
Qed.

End DiarizationRuns.

(** ** The speaker of a diarized entry *)

Section Speakers.
Context `{JsRuntime}.

Lemma coerceSpeaker_cases v :
  (v = JStr "Staff" /\ coerceSpeaker v = JStr "Staff")
  \/ (v = JStr "Client" /\ coerceSpeaker v = JStr "Client")
  \/ (v <> JStr "Staff" /\ v <> JStr "Client" /\ coerceSpeaker v = JStr "Staff").
Proof.
  unfold coerceSpeaker.
  destruct v as [| |b|r|s|l|f];
    try (right; right; split; [discriminate | split; [discriminate | reflexivity]]).
  cbn [strictEqStr].
  destruct (String.eqb_spec s "Staff") as [->|Hs]; [now left|].
  destruct (String.eqb_spec s "Client") as [->|Hc]; [now right; left|].
  right; right. repeat split; congruence.
Qed.

(** In [src/App.tsx] every record of a parsed response becomes an entry, in
    order, whose speaker is [Staff] or [Client]: [Staff] and [Client] are
    kept, anything else becomes [Staff]. *)
Lemma src_diarization_coerces_speaker clock items entries :
  mapItems (SrcApp.toTranscriptItem clock) 0 items = Normal entries ->
  length entries = length items
  /\ (forall i item, items !! i = Some item ->
        exists t, entries !! i = Some t
          /\ TranscriptItem.speaker t
             = coerceSpeaker (default JUndefined (getProp item "speaker"))
          /\ TranscriptItem.text t = default JUndefined (getProp item "text"))
  /\ Forall (fun t => TranscriptItem.speaker t = JStr "Staff"
                      \/ TranscriptItem.speaker t = JStr "Client") entries.
Proof.
  intros Hmap. split; [exact (mapItems_length _ _ _ _ Hmap)|]. split.
  - intros i item Hi. pose proof (mapItems_Normal _ _ _ _ Hmap) as Hall.
    assert (Hz : zip (seq 0 (length items)) items !! i = Some (i, item)).
    { apply lookup_zip_with_Some. exists i, item. repeat split; [|exact Hi].
      apply lookup_seq. split; [reflexivity|]. now apply lookup_lt_Some in Hi. }
    destruct (Forall2_lookup_l _ _ _ _ _ Hall Hz) as (t & Ht & Hf).
    cbn [fst snd] in Hf. exists t. split; [exact Ht|].
    apply src_toTranscriptItem_Normal in Hf as (sp & Hsp & ->).
    rewrite Hsp. now split.
  - refine (mapItems_Forall _ _ _ _ _ _ Hmap). intros i item t Ht.
    apply src_toTranscriptItem_Normal in Ht as (sp & _ & ->). cbn.
    destruct (coerceSpeaker_cases sp) as [[_ E]|[[_ E]|(_ & _ & E)]];
      unfold coerceSpeaker in E; rewrite E; tauto.
Qed.

End Speakers.

(** C5.  Scenario C on both components: the response holds one record
    whose speaker is [Nurse].  [src/App.tsx] stores the entry with speaker
    [Staff]; the live-merging component stores it with speaker [Nurse]. *)
Theorem nurse_record_speaker :
  let blob := {| Blob.bytes := [0; 1; 2]; Blob.type := "audio/webm" |} in
  SrcApp.transcripts
    (fst (@SrcApp.analyzeAudioAndDiarize exampleRuntime SrcApp.initial
            (Some "key") blob (Responded (Some nurseResponse)) (fun _ => 0)))
  = [TranscriptItem.mk "auto-0" (JStr "Staff") (JStr "hi") 0 true]
  /\ LiveApp.transcripts
       (fst (@LiveApp.analyzeAudioAndDiarize exampleRuntime LiveApp.initial
               (Some "key") (Some blob)
               (Responded (Some nurseResponse)) (fun _ => 0)))
     = [TranscriptItem.mk "post-process-0" (JStr "Nurse") (JStr "hi") 0 true].
Proof. split; reflexivity. Qed.

(** ** Guards of the two external calls *)

Section Guards.
Context `{JsRuntime}.

(** [btoa] yields four characters for every three bytes, padding included. *)
Lemma btoa_length (l : list Z) :
  Z.of_nat (String.length (audioUtils.btoa l))
  = 4 * ((Z.of_nat (length l) + 2) / 3).
Proof.
  induction l as [|a|a b|a b c l IH] using list_ind3; try reflexivity.
  change (audioUtils.btoa (a :: b :: c :: l))
    with (String (audioUtils.b64char (Z.shiftr a 2))
            (String (audioUtils.b64char
                       (Z.lor (Z.shiftl (Z.land a 3) 4) (Z.shiftr b 4)))
               (String (audioUtils.b64char
                          (Z.lor (Z.shiftl (Z.land b 15) 2) (Z.shiftr c 6)))
                  (String (audioUtils.b64char (Z.land c 63))
                     (audioUtils.btoa l))))).
  cbn [String.length length].
  replace (Z.of_nat (S (S (S (length l)))) + 2)
    with ((Z.of_nat (length l) + 2) + 1 * 3) by lia.
  rewrite Z.div_add by lia. lia.
Qed.

Lemma arrayBufferToBase64_length (buffer : list Z) :
  Z.of_nat (String.length (audioUtils.arrayBufferToBase64 buffer))
  = 4 * ((Z.of_nat (length buffer) + 2) / 3).
Proof.
  unfold audioUtils.arrayBufferToBase64. rewrite fold_snoc_id, app_nil_l.
  apply btoa_length.
Qed.

Lemma doubled_length n : forall l,
  Z.of_nat (length (doubled n l)) = 2 ^ Z.of_nat n * Z.of_nat (length l).
Proof.
  induction n as [|n IH]; intros l.
  - change (doubled 0 l) with l. rewrite Z.pow_0_r. lia.
  - change (doubled (S n) l) with (doubled n (l ++ l)).
    rewrite IH, length_app, Nat2Z.inj_succ, Z.pow_succ_r by lia. lia.
Qed.

Lemma longRecording_base64_length :
  Z.of_nat (String.length
              (audioUtils.arrayBufferToBase64 (Blob.bytes longRecording)))
  = 22369624.
Proof.
  change (Blob.bytes longRecording) with (doubled 24 [0]).
  rewrite arrayBufferToBase64_length, doubled_length. reflexivity.
Qed.

(** The live-merging component refuses an encoded recording longer than
    [19 * 1024 * 1024] characters before any request is sent: the transcript
    is kept, the error message is set and the status is back to [IDLE]. *)
Lemma live_diarization_rejects_oversized_payload
    st apiKey blobToAnalyze targetBlob reply clock :
  truthyOpt apiKey = true ->
  match blobToAnalyze with
  | Some b => Some b
  | None => LiveApp.recordedBlob st
  end = Some targetBlob ->
  19 * 1024 * 1024
  < Z.of_nat (String.length
                (audioUtils.arrayBufferToBase64 (Blob.bytes targetBlob))) ->
  LiveApp.analyzeAudioAndDiarize st apiKey blobToAnalyze reply clock
  = (LiveApp.setStatus IDLE
       (LiveApp.setErrorMsg
          (Some "分析処理に失敗しました: 録音データが大きすぎます（約60分以上）。CSVエクスポートで保存してください。")
          (LiveApp.setErrorMsg None (LiveApp.setStatus PROCESSING st))),
     []).
Proof.
  intros Hkey Htarget Hsize.
  rewrite (live_analyze_run _ _ _ _ _ _ Hkey Htarget).
  unfold LiveApp.diarize, LiveApp.MAX_BASE64_LENGTH.
  now rewrite bool_decide_eq_true_2 by exact Hsize.
Qed.

(** [src/App.tsx] sends the request whatever the size of the recording. *)
Lemma src_diarization_always_requests st apiKey audioBlob reply clock :
  truthyOpt apiKey = true ->
  snd (SrcApp.analyzeAudioAndDiarize st apiKey audioBlob reply clock)
  = [GenerateContent
       (SrcApp.diarizationRequest
          (audioUtils.arrayBufferToBase64 (Blob.bytes audioBlob)))].
Proof.
  intros Hkey. now rewrite (src_analyze_run _ _ _ _ _ Hkey).
Qed.

(** [src/App.tsx] refuses to summarize nothing: no request, no state change. *)
Lemma src_generateSummary_rejects_empty_input
    st apiKey templateId customInstruction reply :
  truthyOpt apiKey = true ->
  SrcApp.transcripts st = [] -> SrcApp.documents st = [] ->
  SrcApp.generateSummary st apiKey templateId customInstruction reply
  = (st, [Alert "要約する内容（会話ログまたは資料）がありません。"]).
Proof.
  intros Hkey Hts Hdocs. unfold SrcApp.generateSummary.
  now rewrite Hkey, Hts, Hdocs.
Qed.

(** The live-merging component sends the request whatever the transcript
    and the documents hold. *)
Lemma live_generateSummary_always_requests
    st apiKey templateId customInstruction reply :
  truthyOpt apiKey = true ->
  snd (LiveApp.generateSummary st apiKey templateId customInstruction reply)
  = [GenerateContent (LiveApp.summaryRequest st templateId customInstruction)].
Proof.
  intros Hkey. unfold LiveApp.generateSummary. now rewrite Hkey.
Qed.

End Guards.

(** C6.  Summary generation asked on an empty transcript with no document.
    [src/App.tsx] raises its alert, sends nothing and leaves the state as it
    was.  The live-merging component sends a generation request and, when
    the service answers, stores the answer as the summary. *)
Theorem generateSummary_on_empty_input :
  forall (runtime : JsRuntime) templateId customInstruction text,
    SrcApp.generateSummary SrcApp.initial (Some "key")
      templateId customInstruction (Responded (Some text))
    = (SrcApp.initial,
       [Alert "要約する内容（会話ログまたは資料）がありません。"])
    /\ LiveApp.generateSummary LiveApp.initial (Some "key")
         templateId customInstruction (Responded (Some text))
       = (LiveApp.setSummary (textOr (Some text) "要約生成失敗") LiveApp.initial,
          [GenerateContent
             (LiveApp.summaryRequest LiveApp.initial
                templateId customInstruction)]).
Proof.
  intros runtime templateId customInstruction text. split.
  - now apply src_generateSummary_rejects_empty_input.
  - reflexivity.
Qed.

(** C7.  Diarization asked on a recording whose encoded form is longer than
    [19 * 1024 * 1024] characters.  The live-merging component sends nothing,
    keeps the transcript and sets the error message.  [src/App.tsx] sends
    the request with the whole recording inline. *)
Theorem diarization_of_oversized_recording :
  forall (runtime : JsRuntime) st st' reply clock,
    19 * 1024 * 1024
    < Z.of_nat (String.length
                  (audioUtils.arrayBufferToBase64 (Blob.bytes longRecording)))
    /\ snd (LiveApp.analyzeAudioAndDiarize st (Some "key")
              (Some longRecording) reply clock) = []
    /\ LiveApp.transcripts
         (fst (LiveApp.analyzeAudioAndDiarize st (Some "key")
                 (Some longRecording) reply clock))
       = LiveApp.transcripts st
    /\ snd (SrcApp.analyzeAudioAndDiarize st' (Some "key")
              longRecording reply clock)
       = [GenerateContent
            (SrcApp.diarizationRequest
               (audioUtils.arrayBufferToBase64 (Blob.bytes longRecording)))].
Proof.
  intros runtime st st' reply clock.
  assert (Hsize : 19 * 1024 * 1024
                  < Z.of_nat (String.length
                                (audioUtils.arrayBufferToBase64
                                   (Blob.bytes longRecording)))).
  { rewrite longRecording_base64_length. lia. }
  split; [exact Hsize|].
  pose proof (live_diarization_rejects_oversized_payload
                st (Some "key") (Some longRecording) longRecording reply clock
                eq_refl eq_refl Hsize) as Hlive.
  rewrite Hlive. split; [reflexivity|]. split; [reflexivity|].
  apply src_diarization_always_requests. reflexivity.
Qed.

(** ** Gating of recording and generation *)

(** C8.  In [src/App.tsx] the start button is offered only when the status
    is [IDLE]; the live-merging component also offers it when the status is
    [ERROR], or [PROCESSING] with a summary on display.  The generate
    button of [SummaryPanel] is disabled exactly when the status is
    [RECORDING] or [PROCESSING]; in particular it is enabled when [IDLE]. *)
Theorem recording_and_generation_gating :
  (forall st, SrcApp.canStartRecording st = true -> SrcApp.status st = IDLE)
  /\ (forall st,
         LiveApp.canStartRecording st = true ->
         LiveApp.status st = IDLE \/ LiveApp.status st = ERROR
         \/ (LiveApp.status st = PROCESSING /\ LiveApp.summary st <> ""))
  /\ (forall status,
         SummaryPanel.generateDisabled status = true
         <-> status = RECORDING \/ status = PROCESSING)
  /\ SummaryPanel.generateDisabled IDLE = false.
Proof.
  split; [|split; [|split]].
  - intros st Hstart. unfold SrcApp.canStartRecording in Hstart.
    apply andb_prop in Hstart as [Hstart _].
    apply andb_prop in Hstart as [_ Hidle].
    now apply bool_decide_eq_true_1 in Hidle.
  - intros st Hstart. unfold LiveApp.canStartRecording in Hstart.
    apply andb_prop in Hstart as [Hstart _].
    apply andb_prop in Hstart as [Hstatus _].
    apply orb_prop in Hstatus as [Hstatus|Hproc].
    + apply orb_prop in Hstatus as [Hidle|Herr].
      * left. now apply bool_decide_eq_true_1 in Hidle.
      * right; left. now apply bool_decide_eq_true_1 in Herr.
    + right; right. apply andb_prop in Hproc as [Hproc Hsum]. split.
      * now apply bool_decide_eq_true_1 in Hproc.
      * intros E. rewrite E in Hsum. discriminate.
  - intros status. unfold SummaryPanel.generateDisabled, SummaryPanel.isGenerating.
    destruct status; cbn; split; intros Hs;
      try discriminate; try tauto;
      destruct Hs as [Hs|Hs]; discriminate.
  - reflexivity.
Qed.

(** The start button on an idle, fresh session; the generate button while
    recording. *)
Lemma recording_and_generation_gating_example :
  SrcApp.canStartRecording SrcApp.initial = true
  /\ SrcApp.status SrcApp.initial = IDLE
  /\ SummaryPanel.generateDisabled RECORDING = true.
Proof.
  split; [reflexivity|]. split.
  - exact (proj1 recording_and_generation_gating SrcApp.initial eq_refl).
  - apply (proj1 (proj2 (proj2 recording_and_generation_gating))). now left.
Defined.

(** The claim as worded fails twice: generation is disabled, not permitted,
    while [PROCESSING]; and the live-merging component offers a new
    recording from [ERROR]. *)
Lemma generation_disabled_while_processing :
  SummaryPanel.generateDisabled PROCESSING = true
  /\ LiveApp.canStartRecording (LiveApp.setStatus ERROR LiveApp.initial) = true.
Proof. split; reflexivity. Qed.

(** ** Editing an entry *)

Section Editing.
Context `{JsRuntime}.




(** C10.  In [src/App.tsx], [updateTranscript] called with an id that no
    entry has appends, at the end, an entry with that id, speaker [Staff],
    the given text and [isFinal] flag and the current date: the transcript
    grows by one and its earlier entries stay in place. *)
Theorem src_edit_of_unknown_id_appends_staff_entry :
  forall st id text isFinal date,
    id ∉ ids (SrcApp.transcripts st) ->
    SrcApp.transcripts (SrcApp.updateTranscript st id text isFinal date)
    = (SrcApp.transcripts st
       ++ [TranscriptItem.mk id (JStr "Staff") (JStr text) date isFinal])%list
    /\ SrcApp.transcripts (SrcApp.updateTranscript st id text isFinal date)
       <> SrcApp.transcripts st.
Proof.
  intros st id text isFinal date Hnin.
  rewrite (src_updateTranscript_absent _ _ _ _ _ Hnin). split; [reflexivity|].
  intros E. apply (f_equal length) in E. rewrite length_app in E. cbn in E. lia.
Qed.

End Editing.

(** ** Distinct ids and insertion order *)

Section Order.
Context `{JsRuntime}.




End Order.



(** ** Worked examples *)

(** A run on a session that already holds a live entry: a response with one
    record per speaker replaces the transcript; a rejected request keeps it. *)
Lemma diarization_replaces_or_keeps_example :
  let prior :=
    LiveApp.setTranscripts [LiveApp.newEntry "1000" "Staff" "live text" 1000]
      LiveApp.initial in
  let blob := {| Blob.bytes := [1; 2; 3]; Blob.type := "audio/webm" |} in
  LiveApp.transcripts
    (fst (@LiveApp.analyzeAudioAndDiarize exampleRuntime prior (Some "key")
            (Some blob) (Responded (Some dialogueResponse)) (fun _ => 7)))
  = [TranscriptItem.mk "post-process-0" (JStr "Staff") (JStr "good morning") 7 true;
     TranscriptItem.mk "post-process-1" (JStr "Client") (JStr "hello") 7 true]
  /\ LiveApp.transcripts
       (fst (@LiveApp.analyzeAudioAndDiarize exampleRuntime prior (Some "key")
               (Some blob) (Rejected "503") (fun _ => 7)))
     = LiveApp.transcripts prior.
Proof.
  intros prior blob.
  pose proof (proj1 (@diarization_replaces_or_keeps exampleRuntime) prior
                (Some "key") (Some blob) blob
                (Responded (Some dialogueResponse)) (fun _ => 7)
                eq_refl eq_refl) as Hok.
  pose proof (proj1 (@diarization_replaces_or_keeps exampleRuntime) prior
                (Some "key") (Some blob) blob (Rejected "503") (fun _ => 7)
                eq_refl eq_refl) as Hfail.
  split; [exact (proj1 Hok) | exact (proj1 Hfail)].
Defined.

(** Half scale on either side of zero, a sample beyond full scale, and
    the blob of the two full-scale samples. *)
Lemma createPcmBlob_example :
  audioUtils.encodeSample (audioUtils.Finite (1 # 2)%Q) = 16383
  /\ audioUtils.encodeSample (audioUtils.Finite (- (1 # 2))%Q) = -16384
  /\ audioUtils.encodeSample (audioUtils.Finite (3 # 2)%Q) = 32767
  /\ audioUtils.encodeSample (audioUtils.Finite (- (7 # 4))%Q) = -32768
  /\ audioUtils.data
       (audioUtils.createPcmBlob
          [audioUtils.Finite 1%Q; audioUtils.Finite (- (1))%Q])
     = "/38AgA=="
  /\ int16Of
       (atob (audioUtils.data
                (audioUtils.createPcmBlob
                   [audioUtils.Finite 1%Q; audioUtils.Finite (- (1))%Q])))
     = [32767; -32768].
Proof.
  destruct createPcmBlob_clamps_scales_truncates
    as (_ & Hhigh & Hlow & Hneg & Hpos & _ & _ & _ & Hblob).
  split; [|split; [|split; [|split; [|split]]]].
  - rewrite (Hpos (1 # 2)%Q); [reflexivity | discriminate | discriminate].
  - rewrite (Hneg (- (1 # 2))%Q); [reflexivity | discriminate | reflexivity].
  - apply Hhigh. discriminate.
  - apply Hlow. discriminate.
  - reflexivity.
  - exact (proj2 (proj2 (proj2
             (Hblob [audioUtils.Finite 1%Q; audioUtils.Finite (- (1))%Q])))).
Defined.



(** An edit addressed to an id that no entry has. *)
Lemma src_edit_of_unknown_id_example :
  ("ghost" ∉ ids (SrcApp.transcripts SrcApp.initial))
  /\ SrcApp.transcripts (SrcApp.updateTranscript SrcApp.initial "ghost" "text" true 5)
     = [TranscriptItem.mk "ghost" (JStr "Staff") (JStr "text") 5 true].
Proof.
  assert (Hnin : "ghost" ∉ ids (SrcApp.transcripts SrcApp.initial))
    by apply not_elem_of_nil.
  split; [exact Hnin|].
  exact (proj1 (src_edit_of_unknown_id_appends_staff_entry
                  SrcApp.initial "ghost" "text" true 5 Hnin)).
Defined.

(** * Further properties *)

(** ** The transport encoding of the PCM samples *)

(** X1.  The size of what the encoders produce.  [createPcmBlob] views its
    samples as two bytes each, every one a value from 0 to 255, and its
    base64 text has four characters for every three of those bytes, the
    last group padded: [4 * ceil(2 n / 3)] characters for [n] samples.
    [arrayBufferToBase64] gives [4 * ceil(n / 3)] characters for a buffer of
    [n] bytes. *)
Theorem encoded_payload_size :
  (forall samples,
      let bytes := audioUtils.bufferOf (map audioUtils.encodeSample samples) in
      length bytes = (2 * length samples)%nat
      /\ Forall isByte bytes
      /\ Z.of_nat (String.length (audioUtils.data (audioUtils.createPcmBlob samples)))
         = 4 * ((2 * Z.of_nat (length samples) + 2) / 3))
  /\ (forall buffer,
         Z.of_nat (String.length (audioUtils.arrayBufferToBase64 buffer))
         = 4 * ((Z.of_nat (length buffer) + 2) / 3)).
Proof.
  split.
  - intros samples bytes. subst bytes.
    destruct (bufferOf_spec _ (encoded_in_range samples)) as (Hb & Hl & _).
    rewrite length_map in Hl. split; [exact Hl|]. split; [exact Hb|].
    unfold audioUtils.createPcmBlob. cbn [audioUtils.data].
    rewrite base64Encode_btoa, btoa_length, Hl. f_equal. f_equal. lia.
  - intros buffer. apply arrayBufferToBase64_length.
Qed.

(** X2.  Nothing is lost in transport.  Two byte buffers with the same
    base64 text are the same buffer, and two sample buffers whose blobs
    carry the same text hold the same 16-bit values: the text determines
    the quantised samples. *)
Theorem encoded_payload_lossless :
  (forall buffer buffer',
      Forall isByte buffer -> Forall isByte buffer' ->
      audioUtils.arrayBufferToBase64 buffer
      = audioUtils.arrayBufferToBase64 buffer' ->
      buffer = buffer')
  /\ (forall samples samples',
         audioUtils.data (audioUtils.createPcmBlob samples)
         = audioUtils.data (audioUtils.createPcmBlob samples') ->
         map audioUtils.encodeSample samples
         = map audioUtils.encodeSample samples')
  /\ (forall samples,
         int16Of (atob (audioUtils.data (audioUtils.createPcmBlob samples)))
         = map audioUtils.encodeSample samples).
Proof.
  assert (Hback : forall samples,
             int16Of (atob (audioUtils.data (audioUtils.createPcmBlob samples)))
             = map audioUtils.encodeSample samples).
  { intros samples. unfold audioUtils.createPcmBlob. cbn [audioUtils.data].
    destruct (bufferOf_spec _ (encoded_in_range samples)) as (Hb & _ & Hr).
    now rewrite base64Encode_btoa, (atob_btoa _ Hb). }
  split; [|split; [|exact Hback]].
  - intros buffer buffer' Hb Hb' E.
    unfold audioUtils.arrayBufferToBase64 in E.
    rewrite !fold_snoc_id, !app_nil_l in E.
    rewrite <- (atob_btoa _ Hb), <- (atob_btoa _ Hb'). now rewrite E.
  - intros samples samples' E.
    rewrite <- (Hback samples), <- (Hback samples'). now rewrite E.
Qed.

(** Two samples that quantise alike travel as the same text. *)
Lemma encoded_payload_lossless_example :
  audioUtils.data (audioUtils.createPcmBlob [audioUtils.Finite (1 # 2)%Q])
  = audioUtils.data
      (audioUtils.createPcmBlob [audioUtils.Finite (16383 # 32767)%Q])
  /\ map audioUtils.encodeSample [audioUtils.Finite (1 # 2)%Q]
     = map audioUtils.encodeSample [audioUtils.Finite (16383 # 32767)%Q].
Proof.
  assert (E : audioUtils.data
                (audioUtils.createPcmBlob [audioUtils.Finite (1 # 2)%Q])
              = audioUtils.data
                  (audioUtils.createPcmBlob [audioUtils.Finite (16383 # 32767)%Q]))
    by reflexivity.
  split; [exact E|].
  exact (proj1 (proj2 encoded_payload_lossless) _ _ E).
Defined.

(** ** Order and the PCM encoder *)

Section EncoderOrder.
Import audioUtils.

(** Truncation toward zero keeps the order of the rationals. *)
Lemma truncate_mono p q : (p <= q)%Q -> truncate p <= truncate q.
Proof.
  destruct p as [a b], q as [c d]. unfold Qle, truncate. cbn [Qnum Qden].
  intros Hle.
  rewrite <- (Z.quot_mul_cancel_r a (Z.pos b) (Z.pos d)) by lia.
  rewrite <- (Z.quot_mul_cancel_r c (Z.pos d) (Z.pos b)) by lia.
  rewrite (Z.mul_comm (Z.pos d) (Z.pos b)).
  apply Z.quot_le_mono; lia.
Qed.

Lemma scale_mono p q (k : Q) : (0 <= k)%Q -> (p <= q)%Q -> (p * k <= q * k)%Q.
Proof. intros Hk Hle. now apply Qmult_le_compat_r. Qed.

(** The encoder on two finite samples in order. *)
Lemma encodeSample_mono_finite p q :
  (p <= q)%Q -> encodeSample (Finite p) <= encodeSample (Finite q).
Proof.
  intros Hle.
  destruct (Qlt_le_dec q 1) as [Hq1|Hq1]; cycle 1.
  { rewrite (encodeSample_high q Hq1). apply encodeSample_range. }
  destruct (Qlt_le_dec (-1) p) as [Hp1|Hp1]; cycle 1.
  { rewrite (encodeSample_low p Hp1). apply encodeSample_range. }
  assert (Hp_lo : (-1 <= p)%Q) by now apply Qlt_le_weak.
  assert (Hq_hi : (q <= 1)%Q) by now apply Qlt_le_weak.
  assert (Hq_lo : (-1 <= q)%Q) by now apply (Qle_trans _ p).
  assert (Hp_hi : (p <= 1)%Q) by now apply (Qle_trans _ q).
  destruct (Qlt_le_dec p 0) as [Hp0|Hp0], (Qlt_le_dec q 0) as [Hq0|Hq0].
  - rewrite (encodeSample_mid_neg p Hp_lo Hp0), (encodeSample_mid_neg q Hq_lo Hq0).
    apply truncate_mono, scale_mono; [discriminate | exact Hle].
  - rewrite (encodeSample_mid_neg p Hp_lo Hp0), (encodeSample_mid_pos q Hq0 Hq_hi).
    pose proof (truncate_scale_neg p Hp_lo (Qlt_le_weak _ _ Hp0)).
    pose proof (truncate_scale_pos q Hq0 Hq_hi). lia.
  - exfalso. apply (Qlt_irrefl 0).
    apply (Qle_lt_trans _ p); [exact Hp0|]. now apply (Qle_lt_trans _ q).
  - rewrite (encodeSample_mid_pos p Hp0 Hp_hi), (encodeSample_mid_pos q Hq0 Hq_hi).
    apply truncate_mono, scale_mono; [discriminate | exact Hle].
Qed.

End EncoderOrder.

(** X3.  The encoder keeps the order of the samples: a sample that is not
    above another never encodes to a larger integer, across the clamped and
    the scaled ranges and the two infinities.  [NaN], which no comparison
    orders, encodes to 0, as zero does; the infinities encode to the two
    ends of the 16-bit range. *)
Theorem encodeSample_keeps_order :
  (forall x y, sampleLe x y ->
      audioUtils.encodeSample x <= audioUtils.encodeSample y)
  /\ audioUtils.encodeSample audioUtils.NaN = 0
  /\ audioUtils.encodeSample (audioUtils.Finite 0) = 0
  /\ audioUtils.encodeSample audioUtils.PosInfinity = 32767
  /\ audioUtils.encodeSample audioUtils.NegInfinity = -32768.
Proof.
  split; [|now repeat split].
  intros x y Hxy.
  destruct x as [| | |p], y as [| | |q]; cbn in Hxy; try contradiction;
    try apply (proj2 (encodeSample_range _));
    try apply (proj1 (encodeSample_range _)).
  now apply encodeSample_mono_finite.
Qed.

(** A quiet negative sample against a louder positive one. *)
Lemma encodeSample_keeps_order_example :
  sampleLe (audioUtils.Finite (- (1 # 4))%Q) (audioUtils.Finite (1 # 3)%Q)
  /\ audioUtils.encodeSample (audioUtils.Finite (- (1 # 4))%Q)
     <= audioUtils.encodeSample (audioUtils.Finite (1 # 3)%Q).
Proof.
  assert (Hle : sampleLe (audioUtils.Finite (- (1 # 4))%Q)
                  (audioUtils.Finite (1 # 3)%Q)) by discriminate.
  split; [exact Hle|].
  exact (proj1 encodeSample_keeps_order _ _ Hle).
Defined.

(** ** The live transcript as bursts of speech *)

Section LiveBursts.
Context `{JsRuntime}.
Import LiveApp.

Lemma bursts_cons f rest :
  bursts (f :: rest)
  = match bursts rest with
    | (g, more) :: others =>
        if bool_decide (arrival g - arrival f < TIME_THRESHOLD_MS)
        then (f, g :: more) :: others
        else (f, []) :: (g, more) :: others
    | [] => [(f, [])]
    end.
Proof. reflexivity. Qed.

(** The first burst starts with the first fragment. *)
Lemma bursts_head g rest :
  exists more others, bursts (g :: rest) = (g, more) :: others.
Proof.
  rewrite bursts_cons. destruct (bursts rest) as [|[g' more'] others]; [eauto|].
  destruct (bool_decide _); eauto.
Qed.

Lemma last_cons_same (b : Z) l a : List.last (b :: l) a = List.last l b.
Proof.
  rewrite (last_nonempty_default _ _ _ b). now destruct l.
Qed.

(** Fragments within the threshold of one another, followed by a pause,
    are one burst. *)
Lemma bursts_chain pre : forall f0 fs,
  withinThreshold (arrival f0) (map arrival pre) ->
  match fs with
  | [] => True
  | g :: _ =>
      ~ (arrival g - List.last (map arrival pre) (arrival f0) < TIME_THRESHOLD_MS)
  end ->
  bursts ((f0 :: pre) ++ fs) = (f0, pre) :: bursts fs.
Proof.
  induction pre as [|f1 pre IH]; intros f0 fs Hchain Hpause.
  - cbn [app map List.last] in *. destruct fs as [|g rest]; [reflexivity|].
    rewrite (bursts_cons f0).
    destruct (bursts_head g rest) as (more & others & E). rewrite E.
    now rewrite bool_decide_eq_false_2.
  - destruct Hchain as [Hnear Hchain].
    change ((f0 :: f1 :: pre) ++ fs)%list with (f0 :: (f1 :: pre) ++ fs)%list.
    rewrite (bursts_cons f0), (IH f1 fs Hchain).
    + now rewrite bool_decide_eq_true_2.
    + destruct fs as [|g rest]; [exact I|].
      cbn [map] in Hpause. now rewrite last_cons_same in Hpause.
Qed.

Lemma withinThreshold_snoc l : forall a x,
  withinThreshold a l -> x - List.last l a < TIME_THRESHOLD_MS ->
  withinThreshold a (l ++ [x]).
Proof.
  induction l as [|b l IH]; intros a x Hl Hx.
  - cbn in *. now split.
  - destruct Hl as [Hb Hl]. split; [exact Hb|]. apply IH; [exact Hl|].
    now rewrite last_cons_same in Hx.
Qed.

Lemma increasingFrom_last l : forall a,
  increasingFrom a l -> a <= List.last l a.
Proof.
  induction l as [|b l IH]; intros a Hl; [cbn; lia|].
  destruct Hl as [Hb Hl]. rewrite last_cons_same. specialize (IH b Hl). lia.
Qed.

Lemma increasingFrom_snoc l : forall a x,
  increasingFrom a l -> List.last l a < x -> increasingFrom a (l ++ [x]).
Proof.
  induction l as [|b l IH]; intros a x Hl Hx.
  - cbn in *. now split.
  - destruct Hl as [Hb Hl]. split; [exact Hb|]. apply IH; [exact Hl|].
    now rewrite last_cons_same in Hx.
Qed.

Lemma map_snoc {A B} (f : A -> B) l x : map f (l ++ [x]) = (map f l ++ [f x])%list.
Proof. now rewrite map_app. Qed.

Lemma concatAll_snoc l x : concatAll (l ++ [x]) = concatAll l +:+ x.
Proof.
  unfold concatAll. induction l as [|a l IH]; cbn [app foldr].
  - apply append_empty_r.
  - rewrite IH. symmetry. apply append_assoc3.
Qed.

(** The entry of the active id is found at the end of the transcript when
    every earlier id was minted from an earlier reading. *)
Lemma find_active_last (ts : list TranscriptItem.t) e n :
  TranscriptItem.id e = pretty n ->
  Forall (fun s => exists m : Z, m < n /\ s = pretty m) (ids ts) ->
  list_find (fun t => Some (TranscriptItem.id t) = Some (pretty n)) (ts ++ [e])
  = Some (length ts, e).
Proof.
  intros He Hts. apply list_find_Some. split; [|split].
  - rewrite lookup_app_r by lia. now rewrite Nat.sub_diag.
  - now rewrite He.
  - intros j y Hj Hlt Hy. rewrite lookup_app_l in Hj by exact Hlt.
    rewrite Forall_forall in Hts.
    destruct (Hts (TranscriptItem.id y)) as (m & Hm & E).
    + apply list_elem_of_In. unfold ids. apply in_map.
      apply list_elem_of_In. eapply list_elem_of_lookup_2. exact Hj.
    + injection Hy as Hy. rewrite E in Hy. apply (inj pretty) in Hy. lia.
Qed.

(** From a state whose last entry shows the burst in progress, the
    fragments that follow extend the grouping. *)
Lemma run_chunks_bursts fs : forall f0 pre st ts,
  transcripts st = (ts ++ [burstEntry (f0, pre)])%list ->
  activeTranscriptIdRef st = Some (pretty (arrival f0)) ->
  Forall (fun s => exists m : Z, m < arrival f0 /\ s = pretty m) (ids ts) ->
  lastUpdateTimeRef st = List.last (map arrival pre) (arrival f0) ->
  withinThreshold (arrival f0) (map arrival pre) ->
  increasingFrom (arrival f0) (map arrival pre) ->
  Forall (fun f => spoken f = true) fs ->
  increasingFrom (List.last (map arrival pre) (arrival f0)) (map arrival fs) ->
  transcripts (run st (map chunkEvent fs))
  = (ts ++ map burstEntry (bursts ((f0 :: pre) ++ fs)))%list.
Proof.
  induction fs as [|g rest IH];
    intros f0 pre st ts Hts Hact Hids Hlast Hchain Hpre Hspoken Hinc.
  - cbn [map run fold_left]. rewrite Hts, (bursts_chain pre f0 [] Hchain I).
    reflexivity.
  - apply Forall_cons_1 in Hspoken as [Hg Hspoken]. destruct Hinc as [Hlt Hinc].
    pose proof (increasingFrom_last _ _ Hpre) as Hle.
    cbn [map run fold_left].
    fold (run (step st (chunkEvent g)) (map chunkEvent rest)).
    unfold chunkEvent at 1. rewrite step_chunk_merge.
    unfold spoken in Hg. rewrite Hg, step_merge.
    assert (Hfind :
              list_find (fun t => Some (TranscriptItem.id t)
                                  = activeTranscriptIdRef st) (transcripts st)
              = Some (length ts, burstEntry (f0, pre))).
    { rewrite Hts, Hact. now apply find_active_last. }
    destruct (decide (arrival g - lastUpdateTimeRef st < 3000)) as [Hnear|Hfar].
    + rewrite (process_merge _ _ _ _ _ _ _ _ Hfind eq_refl Hnear).
      cbn [fst snd].
      replace ((f0 :: pre) ++ g :: rest)%list
        with ((f0 :: (pre ++ [g])) ++ rest)%list
        by (cbn [app]; now rewrite <- app_assoc).
      apply IH.
      * cbn [transcripts setTranscripts]. rewrite Hts.
        replace (length ts) with (length ts + 0)%nat by lia.
        rewrite insert_app_r. f_equal.
        unfold burstEntry. cbn [fst snd TranscriptItem.id TranscriptItem.text
                                  TranscriptItem.timestamp ToString].
        change (f0 :: pre ++ [g])%list with ((f0 :: pre) ++ [g])%list.
        rewrite (map_snoc fragmentText), concatAll_snoc.
        cbn [insert list_insert map]. now destruct pre.
      * exact Hact.
      * exact Hids.
      * cbn [lastUpdateTimeRef setTranscripts setLastUpdateTime].
        now rewrite map_snoc, last_last.
      * rewrite map_snoc. apply withinThreshold_snoc; [exact Hchain|].
        now rewrite <- Hlast.
      * rewrite map_snoc. now apply increasingFrom_snoc.
      * exact Hspoken.
      * now rewrite map_snoc, last_last.
    + rewrite process_new; cycle 1.
      { intros i item _ [_ Hnear]. now apply Hfar. }
      cbn [fst snd].
      rewrite (bursts_chain pre f0 (g :: rest) Hchain); cycle 1.
      { now rewrite <- Hlast. }
      change (map burstEntry ((f0, pre) :: bursts (g :: rest)))
        with ([burstEntry (f0, pre)] ++ map burstEntry (bursts ([g] ++ rest)))%list.
      rewrite (app_assoc ts [burstEntry (f0, pre)]).
      apply (IH g [] _ (ts ++ [burstEntry (f0, pre)])%list).
      * cbn [transcripts setTranscripts]. rewrite Hts. f_equal. f_equal.
        unfold burstEntry, concatAll.
        cbn [fst snd map foldr]. now rewrite append_empty_r.
      * reflexivity.
      * unfold ids. rewrite map_app. apply Forall_app. split.
        -- eapply Forall_impl; [exact Hids|].
           intros s (m & Hm & ->). exists m. split; [lia | reflexivity].
        -- constructor; [|constructor]. exists (arrival f0).
           split; [lia | reflexivity].
      * reflexivity.
      * exact I.
      * exact I.
      * exact Hspoken.
      * exact Hinc.
Qed.

(** A blank fragment leaves the session as it is. *)
Lemma run_chunks_spoken fs : forall st,
  run st (map chunkEvent fs) = run st (map chunkEvent (List.filter spoken fs)).
Proof.
  induction fs as [|f fs IH]; intros st; [reflexivity|].
  cbn [map List.filter run fold_left].
  fold (run (step st (chunkEvent f)) (map chunkEvent fs)).
  destruct (spoken f) eqn:Hf.
  - cbn [map run fold_left].
    fold (run (step st (chunkEvent f)) (map chunkEvent (List.filter spoken fs))).
    apply IH.
  - unfold chunkEvent at 1. rewrite step_chunk_merge.
    unfold spoken in Hf. rewrite Hf. apply IH.
Qed.

Lemma increasingFrom_weaken l : forall a b,
  a <= b -> increasingFrom b l -> increasingFrom a l.
Proof.
  destruct l as [|x l]; intros a b Hab Hl; [exact I|].
  destruct Hl. split; [lia | assumption].
Qed.

Lemma increasingFrom_filter (P : Fragment -> bool) fs : forall a,
  increasingFrom a (map arrival fs) ->
  increasingFrom a (map arrival (List.filter P fs)).
Proof.
  induction fs as [|f fs IH]; intros a Hl; [exact I|].
  destruct Hl as [Hf Hl]. cbn [List.filter].
  destruct (P f).
  - split; [exact Hf | now apply IH].
  - apply IH. apply (increasingFrom_weaken _ a (arrival f)); [lia | exact Hl].
Qed.

(** A message that carries a transcription text is the fragment event. *)
Lemma onmessage_chunk st text now date :
  LiveApp.onmessage st (Some (Some text)) now date
  = LiveApp.step st (LiveApp.Chunk text now date).
Proof.
  unfold LiveApp.onmessage. cbn [LiveApp.step].
  unfold truthy. destruct (String.eqb_spec text "") as [->|_]; [|reflexivity].
  unfold LiveApp.handleTranscriptChunk. now rewrite trim_empty.
Qed.

Lemma onmessage_run fs : forall st,
  fold_left
    (fun st f =>
       LiveApp.onmessage st (Some (Some (LiveApp.fragmentText f)))
         (LiveApp.arrival f) (LiveApp.created f))
    fs st
  = LiveApp.run st (map chunkEvent fs).
Proof.
  induction fs as [|f fs IH]; intros st; [reflexivity|].
  cbn [fold_left map LiveApp.run].
  fold (LiveApp.run (LiveApp.step st (chunkEvent f)) (map chunkEvent fs)).
  rewrite IH. now rewrite onmessage_chunk.
Qed.

End LiveBursts.

(** X4.  What the live transcript holds after a run of fragments.  Along
    messages received by [onmessage] on a fresh session, each with a
    transcription text, with increasing [Date.now()] readings, blank
    fragments leave no trace and the others are grouped by pauses: a
    fragment that arrives less than 3000 ms after the spoken fragment
    before it is appended to the entry of that fragment, any other starts
    an entry.  The transcript is the list of these groups in order
    of arrival; each entry has the numeral of the arrival of its first
    fragment as id, [Staff] as speaker, the texts of its fragments joined in
    order as text, the date read for its first fragment as timestamp, and is
    final exactly when it holds a single fragment.  No text is lost or
    reordered. *)
Theorem live_fragments_group_into_bursts :
  forall (runtime : JsRuntime) (fs : list LiveApp.Fragment),
    LiveApp.strictlyIncreasing (map LiveApp.arrival fs) ->
    let received :=
      fold_left
        (fun st f =>
           LiveApp.onmessage st (Some (Some (LiveApp.fragmentText f)))
             (LiveApp.arrival f) (LiveApp.created f))
        fs LiveApp.initial in
    received = LiveApp.run LiveApp.initial (map chunkEvent fs)
    /\ LiveApp.transcripts received
       = map burstEntry (bursts (List.filter spoken fs)).
Proof.
  intros runtime fs Hinc received. subst received.
  rewrite onmessage_run. split; [reflexivity|].
  rewrite run_chunks_spoken.
  assert (Hinc' : LiveApp.strictlyIncreasing
                    (map LiveApp.arrival (List.filter spoken fs))).
  { clear -Hinc. induction fs as [|f fs IH]; [exact I|].
    cbn [List.filter]. destruct (spoken f).
    - cbn [map LiveApp.strictlyIncreasing] in *. now apply increasingFrom_filter.
    - apply IH. cbn [map LiveApp.strictlyIncreasing] in Hinc.
      destruct fs as [|g fs]; [exact I|].
      cbn [map LiveApp.strictlyIncreasing]. destruct Hinc as [_ Hinc]. exact Hinc. }
  assert (Hall : Forall (fun f => spoken f = true) (List.filter spoken fs)).
  { apply Forall_forall. intros f Hf.
    apply list_elem_of_In, filter_In in Hf. now destruct Hf. }
  destruct (List.filter spoken fs) as [|f rest]; [reflexivity|].
  apply Forall_cons_1 in Hall as [Hf Hall].
  cbn [map LiveApp.run fold_left].
  fold (LiveApp.run (LiveApp.step LiveApp.initial (chunkEvent f))
          (map chunkEvent rest)).
  unfold chunkEvent at 1. rewrite step_chunk_merge.
  unfold spoken in Hf. rewrite Hf, step_merge.
  rewrite process_new; cycle 1.
  { intros i item Hfind. discriminate Hfind. }
  cbn [fst snd].
  apply (run_chunks_bursts rest f [] _ []).
  - cbn [LiveApp.transcripts LiveApp.setTranscripts LiveApp.initial app].
    unfold burstEntry, concatAll. cbn [fst snd map foldr].
    now rewrite append_empty_r.
  - reflexivity.
  - constructor.
  - reflexivity.
  - exact I.
  - exact I.
  - exact Hall.
  - exact Hinc'.
Qed.

(** Two fragments half a sentence apart with a blank one between them, and
    a fragment after a long pause. *)
Lemma live_fragments_group_into_bursts_example :
  let fs :=
    [ {| LiveApp.fragmentText := "こん"; LiveApp.arrival := 1000;
         LiveApp.created := 1 |};
      {| LiveApp.fragmentText := " "; LiveApp.arrival := 1500;
         LiveApp.created := 2 |};
      {| LiveApp.fragmentText := "にちは"; LiveApp.arrival := 2500;
         LiveApp.created := 3 |};
      {| LiveApp.fragmentText := "はい"; LiveApp.arrival := 9000;
         LiveApp.created := 4 |} ] in
  LiveApp.strictlyIncreasing (map LiveApp.arrival fs)
  /\ LiveApp.transcripts
       (fold_left
          (fun st f =>
             @LiveApp.onmessage exampleRuntime st
               (Some (Some (LiveApp.fragmentText f)))
               (LiveApp.arrival f) (LiveApp.created f))
          fs LiveApp.initial)
     = [TranscriptItem.mk "1000" (JStr "Staff") (JStr "こんにちは") 1 false;
        TranscriptItem.mk "9000" (JStr "Staff") (JStr "はい") 4 true].
Proof.
  intros fs.
  assert (Hinc : LiveApp.strictlyIncreasing (map LiveApp.arrival fs))
    by (cbn; lia).
  split; [exact Hinc|].
  rewrite (proj2 (live_fragments_group_into_bursts exampleRuntime fs Hinc)).
  reflexivity.
Defined.

(** ** Reference documents *)

Section Documents.
Context `{JsRuntime}.

Lemma without_app c a b : without c (a +:+ b) = without c a && without c b.
Proof.
  induction a as [|x a IH]; [reflexivity|].
  change (String x a +:+ b) with (String x (a +:+ b)).
  cbn [without]. rewrite IH. now rewrite andb_assoc.
Qed.

(** Splitting at the first separator. *)
Lemma splitOn_first c a b :
  without c a = true ->
  SrcApp.splitOn c (a +:+ String c b) = a :: SrcApp.splitOn c b.
Proof.
  induction a as [|x a IH]; intros Ha.
  - change (EmptyString +:+ String c b) with (String c b).
    cbn [SrcApp.splitOn]. now rewrite Ascii.eqb_refl.
  - cbn [without] in Ha. apply andb_prop in Ha as [Hx Ha].
    change (String x a +:+ String c b) with (String x (a +:+ String c b)).
    cbn [SrcApp.splitOn]. apply negb_true_iff in Hx. rewrite Hx, (IH Ha).
    reflexivity.
Qed.

Lemma splitOn_whole c b : without c b = true -> SrcApp.splitOn c b = [b].
Proof.
  induction b as [|x b IH]; intros Hb; [reflexivity|].
  cbn [without] in Hb. apply andb_prop in Hb as [Hx Hb].
  cbn [SrcApp.splitOn]. apply negb_true_iff in Hx. now rewrite Hx, (IH Hb).
Qed.

(** [fileToBase64] gives the payload of the data URL. *)
Lemma fileToBase64_payload file payload :
  SrcApp.filePayload file = Normal payload ->
  without ","%char (SrcApp.fileType file) = true ->
  without ","%char payload = true ->
  SrcApp.fileToBase64 file = Normal payload.
Proof.
  intros Hread Htype Hpayload.
  unfold SrcApp.fileToBase64, SrcApp.readAsDataURL. rewrite Hread. cbn [mbind Completion_bind].
  replace ("data:" +:+ SrcApp.fileType file +:+ ";base64," +:+ payload)
    with (("data:" +:+ SrcApp.fileType file +:+ ";base64")
          +:+ String ","%char payload).
  - rewrite splitOn_first.
    + now rewrite (splitOn_whole _ _ Hpayload).
    + change ("data:" +:+ SrcApp.fileType file +:+ ";base64")
        with ("data:" +:+ (SrcApp.fileType file +:+ ";base64")).
      rewrite !without_app, Htype. reflexivity.
  - rewrite !append_assoc3. reflexivity.
Qed.

(** A state is its eight cells. *)
Lemma src_setDocuments_same st :
  SrcApp.setDocuments (SrcApp.documents st) st = st.
Proof. now destruct st. Qed.

Lemma live_setDocuments_same st :
  LiveApp.setDocuments (LiveApp.documents st) st = st.
Proof. now destruct st. Qed.

(** Filtering out an id that no document has keeps the list. *)
Lemma filter_absent (docs : list RagDocument.t) id :
  Forall (fun d => RagDocument.id d <> id) docs ->
  List.filter (fun d => negb (String.eqb (RagDocument.id d) id)) docs = docs.
Proof.
  induction 1 as [|d docs Hd _ IH]; [reflexivity|].
  cbn [List.filter]. apply String.eqb_neq in Hd. rewrite Hd. cbn [negb].
  now rewrite IH.
Qed.

Lemma filter_removes (docs : list RagDocument.t) id :
  Forall (fun d => RagDocument.id d <> id)
    (List.filter (fun d => negb (String.eqb (RagDocument.id d) id)) docs).
Proof.
  apply Forall_forall. intros d Hd. apply list_elem_of_In, filter_In in Hd.
  destruct Hd as [_ Hd]. apply negb_true_iff in Hd. now apply String.eqb_neq.
Qed.

Lemma filter_keeps (docs : list RagDocument.t) id d :
  In d docs -> RagDocument.id d <> id ->
  In d (List.filter (fun d => negb (String.eqb (RagDocument.id d) id)) docs).
Proof.
  intros Hin Hd. apply filter_In. split; [exact Hin|].
  apply negb_true_iff. now apply String.eqb_neq.
Qed.

Lemma sublist_List_filter {A} (f : A -> bool) l : sublist (List.filter f l) l.
Proof.
  induction l as [|x l IH]; [constructor|].
  cbn [List.filter]. destruct (f x); now constructor.
Qed.

End Documents.

(** X5.  Removing a reference document by id, in either component.  No
    document with that id remains; every document with another id stays,
    and documents keep their order; an id that no document has leaves the
    state as it is.  In [src/App.tsx], removing the id of a file just
    uploaded, when no earlier document has that id, gives back the state
    before the upload. *)
Theorem removeDocument_removes_exactly_the_id :
  (forall st id,
      Forall (fun d => RagDocument.id d <> id)
        (SrcApp.documents (SrcApp.removeDocument st id))
      /\ (forall d, In d (SrcApp.documents st) -> RagDocument.id d <> id ->
             In d (SrcApp.documents (SrcApp.removeDocument st id)))
      /\ sublist (SrcApp.documents (SrcApp.removeDocument st id))
           (SrcApp.documents st)
      /\ (Forall (fun d => RagDocument.id d <> id) (SrcApp.documents st) ->
          SrcApp.removeDocument st id = st))
  /\ (forall st id,
         Forall (fun d => RagDocument.id d <> id)
           (LiveApp.documents (LiveApp.removeDocument st id))
         /\ (forall d, In d (LiveApp.documents st) -> RagDocument.id d <> id ->
                In d (LiveApp.documents (LiveApp.removeDocument st id)))
         /\ sublist (LiveApp.documents (LiveApp.removeDocument st id))
              (LiveApp.documents st)
         /\ (Forall (fun d => RagDocument.id d <> id) (LiveApp.documents st) ->
             LiveApp.removeDocument st id = st))
  /\ (forall st file doc,
         SrcApp.readDocument file = Normal doc ->
         Forall (fun d => RagDocument.id d <> SrcApp.randomId file)
           (SrcApp.documents st) ->
         SrcApp.removeDocument (SrcApp.handleFileUpload st [file])
           (SrcApp.randomId file)
         = st).
Proof.
  split; [|split].
  - intros st id. split; [apply filter_removes|].
    split; [intros d; apply filter_keeps|].
    split; [apply sublist_List_filter|].
    intros Habsent. unfold SrcApp.removeDocument.
    rewrite (filter_absent _ _ Habsent). apply src_setDocuments_same.
  - intros st id. split; [apply filter_removes|].
    split; [intros d; apply filter_keeps|].
    split; [apply sublist_List_filter|].
    intros Habsent. unfold LiveApp.removeDocument.
    rewrite (filter_absent _ _ Habsent). apply live_setDocuments_same.
  - intros st file doc Hread Hfresh.
    unfold SrcApp.removeDocument, SrcApp.handleFileUpload.
    cbn [flat_map]. rewrite Hread. cbn [app SrcApp.documents SrcApp.setDocuments].
    rewrite List.filter_app, (filter_absent _ _ Hfresh). cbn [List.filter].
    assert (Hid : RagDocument.id doc = SrcApp.randomId file).
    { unfold SrcApp.readDocument in Hread.
      destruct (if String.eqb (SrcApp.fileType file) "application/pdf" then _ else _)
        as [read|m]; [|discriminate].
      cbn in Hread. injection Hread as <-. reflexivity. }
    rewrite Hid, String.eqb_refl. cbn [negb]. rewrite app_nil_r.
    now destruct st.
Qed.

(** A note is uploaded to a session that holds one document, and removed. *)
Lemma removeDocument_removes_exactly_the_id_example :
  let plan := RagDocument.mk "p1" "plan.txt" "support plan" "text/plain" in
  let st := SrcApp.setDocuments [plan] SrcApp.initial in
  let note :=
    {| SrcApp.fileName := "note.txt"; SrcApp.fileType := "text/plain";
       SrcApp.fileText := Normal "met on Monday";
       SrcApp.filePayload := Throw "unused";
       SrcApp.randomId := "k3j9x0q1z" |} in
  SrcApp.documents (SrcApp.handleFileUpload st [note])
  = [plan; RagDocument.mk "k3j9x0q1z" "note.txt" "met on Monday" "text/plain"]
  /\ SrcApp.removeDocument (SrcApp.handleFileUpload st [note]) "k3j9x0q1z" = st.
Proof.
  intros plan st note. split; [reflexivity|].
  refine (proj2 (proj2 removeDocument_removes_exactly_the_id) st note
            (RagDocument.mk "k3j9x0q1z" "note.txt" "met on Monday" "text/plain")
            eq_refl _).
  constructor; [discriminate | constructor].
Defined.

(** ** From an uploaded file to the summary request *)

Section Uploads.
Context `{JsRuntime}.

(** What [readDocument] makes of a file it can read. *)
Lemma readDocument_Normal file doc :
  SrcApp.readDocument file = Normal doc ->
  RagDocument.id doc = SrcApp.randomId file
  /\ RagDocument.name doc = SrcApp.fileName file
  /\ ((String.eqb (SrcApp.fileType file) "application/pdf" = true
       /\ RagDocument.type doc = "application/pdf"
       /\ SrcApp.fileToBase64 file = Normal (RagDocument.content doc))
      \/ (String.eqb (SrcApp.fileType file) "application/pdf" = false
          /\ String.prefix "image/" (SrcApp.fileType file) = true
          /\ In (RagDocument.type doc) ["image/png"; "image/webp"; "image/jpeg"]
          /\ SrcApp.fileToBase64 file = Normal (RagDocument.content doc))
      \/ (String.eqb (SrcApp.fileType file) "application/pdf" = false
          /\ String.prefix "image/" (SrcApp.fileType file) = false
          /\ RagDocument.type doc = "text/plain"
          /\ SrcApp.fileText file = Normal (RagDocument.content doc))).
Proof.
  unfold SrcApp.readDocument. intros Hread.
  destruct (String.eqb (SrcApp.fileType file) "application/pdf") eqn:Hpdf.
  - destruct (SrcApp.fileToBase64 file) as [content|m]; [|discriminate].
    cbn in Hread. injection Hread as <-. cbn. split; [reflexivity|].
    split; [reflexivity|]. left. now repeat split.
  - destruct (String.prefix "image/" (SrcApp.fileType file)) eqn:Himg.
    + destruct (SrcApp.fileToBase64 file) as [content|m]; [|discriminate].
      cbn in Hread. injection Hread as <-. cbn. split; [reflexivity|].
      split; [reflexivity|]. right; left. split; [reflexivity|].
      split; [reflexivity|]. split; [|reflexivity].
      destruct (String.eqb (SrcApp.fileType file) "image/png"); [now left|].
      destruct (String.eqb (SrcApp.fileType file) "image/webp");
        [right; now left | right; right; now left].
    + destruct (SrcApp.fileText file) as [content|m]; [|discriminate].
      cbn in Hread. injection Hread as <-. cbn. split; [reflexivity|].
      split; [reflexivity|]. right; right. now repeat split.
Qed.

End Uploads.

(** X6.  What [handleFileUpload] of [src/App.tsx] stores.  The documents
    held before stay in front, in order, and each file that can be read
    adds one document, with the id drawn for it and the name of the file;
    a file that cannot be read adds nothing.  A PDF is stored as
    [application/pdf], a file whose type starts with [image/] as
    [image/png], [image/webp] or [image/jpeg], and any other file as
    [text/plain] with the text of the file as content.  For a PDF or an
    image the content is what [fileToBase64] gives: the part of the data
    URL between its first comma and the next, which is the base64 text of
    the file whenever neither that text nor the type of the file holds a
    comma. *)
Theorem handleFileUpload_stores_readable_files :
  (forall st files,
      exists newDocs,
        SrcApp.handleFileUpload st files
        = SrcApp.setDocuments (SrcApp.documents st ++ newDocs)%list st
        /\ (forall doc, In doc newDocs <->
               exists file, In file files
                            /\ SrcApp.readDocument file = Normal doc)
        /\ (length newDocs <= length files)%nat)
  /\ (forall file doc,
         SrcApp.readDocument file = Normal doc ->
         RagDocument.id doc = SrcApp.randomId file
         /\ RagDocument.name doc = SrcApp.fileName file
         /\ In (RagDocument.type doc)
              ["application/pdf"; "image/png"; "image/webp"; "image/jpeg";
               "text/plain"]
         /\ (SrcApp.isTextDocument doc = true ->
             SrcApp.fileText file = Normal (RagDocument.content doc))
         /\ (SrcApp.isTextDocument doc = false ->
             SrcApp.fileToBase64 file = Normal (RagDocument.content doc)))
  /\ (forall file payload,
         SrcApp.filePayload file = Normal payload ->
         without ","%char (SrcApp.fileType file) = true ->
         without ","%char payload = true ->
         SrcApp.fileToBase64 file = Normal payload).
Proof.
  split; [|split].
  - intros st files.
    exists (flat_map (fun file =>
                        match SrcApp.readDocument file with
                        | Normal doc => [doc]
                        | Throw _ => []
                        end) files).
    split; [reflexivity|]. split.
    + intros doc. rewrite in_flat_map. split.
      * intros (file & Hin & Hdoc). exists file. split; [exact Hin|].
        destruct (SrcApp.readDocument file) as [d|m]; [|contradiction].
        destruct Hdoc as [->|[]]. reflexivity.
      * intros (file & Hin & Hread). exists file. split; [exact Hin|].
        rewrite Hread. now left.
    + induction files as [|file files IH]; [reflexivity|].
      cbn [flat_map]. rewrite length_app.
      destruct (SrcApp.readDocument file); cbn [length]; lia.
  - intros file doc Hread.
    destruct (readDocument_Normal file doc Hread) as (Hid & Hname & Hcases).
    split; [exact Hid|]. split; [exact Hname|].
    unfold SrcApp.isTextDocument.
    destruct Hcases as [(_ & Ht & Hc)|[(_ & _ & Ht & Hc)|(_ & _ & Ht & Hc)]].
    + rewrite Ht. split; [now left|]. split; [discriminate | now intros _].
    + split.
      { destruct Ht as [<-|[<-|[<-|[]]]];
          [right; now left | right; right; now left
          | right; right; right; now left]. }
      destruct Ht as [<-|[<-|[<-|[]]]]; (split; [discriminate | now intros _]).
    + rewrite Ht. split; [do 4 right; now left|].
      split; [now intros _ | discriminate].
  - intros file payload. apply fileToBase64_payload.
Qed.

(** A scanned form and a note are chosen; a third file cannot be read. *)
Lemma handleFileUpload_stores_readable_files_example :
  let scan :=
    {| SrcApp.fileName := "form.png"; SrcApp.fileType := "image/png";
       SrcApp.fileText := Throw "unused"; SrcApp.filePayload := Normal "iVBORw0KGgo=";
       SrcApp.randomId := "a1b2c3d4e" |} in
  let broken :=
    {| SrcApp.fileName := "old.pdf"; SrcApp.fileType := "application/pdf";
       SrcApp.fileText := Throw "unused"; SrcApp.filePayload := Throw "NotReadableError";
       SrcApp.randomId := "zzzzzzzzz" |} in
  let note :=
    {| SrcApp.fileName := "note.md"; SrcApp.fileType := "";
       SrcApp.fileText := Normal "met on Monday"; SrcApp.filePayload := Throw "unused";
       SrcApp.randomId := "k3j9x0q1z" |} in
  SrcApp.documents
    (SrcApp.handleFileUpload SrcApp.initial [scan; broken; note])
  = [RagDocument.mk "a1b2c3d4e" "form.png" "iVBORw0KGgo=" "image/png";
     RagDocument.mk "k3j9x0q1z" "note.md" "met on Monday" "text/plain"]
  /\ SrcApp.fileToBase64 scan = Normal "iVBORw0KGgo=".
Proof.
  intros scan broken note. split; [reflexivity|].
  exact (proj2 (proj2 handleFileUpload_stores_readable_files)
           scan "iVBORw0KGgo=" eq_refl eq_refl eq_refl).
Defined.

Section SummaryRequests.
Context `{JsRuntime}.

(** The block written in the prompt of [src/App.tsx] for a text document. *)
Lemma fold_blocks (block : RagDocument.t -> string) docs : forall acc,
  fold_left (fun acc d => acc +:+ block d) docs acc
  = acc +:+ concatAll (map block docs).
Proof.
  induction docs as [|d docs IH]; intros acc; cbn [fold_left map].
  - unfold concatAll. cbn [foldr]. now rewrite append_empty_r.
  - rewrite IH. unfold concatAll. cbn [foldr]. now rewrite append_assoc3.
Qed.

Lemma concatAll_app l1 l2 : concatAll (l1 ++ l2) = concatAll l1 +:+ concatAll l2.
Proof.
  unfold concatAll. induction l1 as [|a l1 IH]; [reflexivity|].
  cbn [app foldr]. rewrite IH. symmetry. apply append_assoc3.
Qed.

Lemma occursIn_blocks (block : RagDocument.t -> string) docs d acc :
  In d docs -> occursIn (block d) (acc +:+ concatAll (map block docs)).
Proof.
  intros Hin. apply in_split in Hin as (l1 & l2 & ->).
  rewrite map_app, concatAll_app. cbn [map].
  exists (acc +:+ concatAll (map block l1)), (concatAll (map block l2)).
  unfold concatAll at 2. cbn [foldr]. fold (concatAll (map block l2)).
  now rewrite !append_assoc3.
Qed.

End SummaryRequests.

(** X7.  Every reference document is part of the summary request.  In
    [src/App.tsx] the request is one text part followed by inline data: a
    document of type [text/plain] or [application/json] is written in the
    text part, name and content, and every other document is one inline
    part with its type and content; the inline parts are those documents in
    their order and nothing else.  In the live-merging component a
    [text/plain] document is a text part of its own with name and content,
    and any other document is an inline part followed by a caption that
    names it. *)
Theorem summary_request_carries_every_document :
  forall runtime : JsRuntime,
  (forall st templateId customInstruction,
      exists prompt,
        parts (SrcApp.summaryRequest st templateId customInstruction)
        = TextPart prompt
          :: map (fun d => InlineData (RagDocument.type d) (RagDocument.content d))
               (List.filter (fun d => negb (SrcApp.isTextDocument d))
                  (SrcApp.documents st))
        /\ (forall doc,
               In doc (SrcApp.documents st) ->
               SrcApp.isTextDocument doc = true ->
               occursIn ("--- " +:+ RagDocument.name doc +:+ " ---" +:+ nl
                         +:+ RagDocument.content doc +:+ nl +:+ nl)
                 prompt))
  /\ (forall st templateId customInstruction doc,
         In doc (LiveApp.documents st) ->
         let sent :=
           parts (LiveApp.summaryRequest st templateId customInstruction) in
         (RagDocument.type doc = "text/plain" ->
          In (TextPart (nl +:+ "--- " +:+ RagDocument.name doc +:+ " ---" +:+ nl
                        +:+ RagDocument.content doc +:+ nl
                        +:+ "----------------" +:+ nl)) sent)
         /\ (RagDocument.type doc <> "text/plain" ->
             In (InlineData (RagDocument.type doc) (RagDocument.content doc)) sent
             /\ In (TextPart ("(上記は資料: " +:+ RagDocument.name doc +:+ ")"))
                  sent)).
Proof.
  intros runtime. split.
  - intros st templateId customInstruction.
    unfold SrcApp.summaryRequest. cbn [parts].
    match goal with
    | |- context [fold_left _ _ ?start] => set (header := start)
    end.
    match goal with
    | |- context [match List.filter SrcApp.isTextDocument _ with
                  | [] => ?b | _ :: _ => _ end] => set (base := b) in *
    end.
    eexists. split.
    + f_equal. induction (SrcApp.documents st) as [|d docs IH]; [reflexivity|].
      cbn [flat_map List.filter]. destruct (SrcApp.isTextDocument d); cbn [negb].
      * exact IH.
      * cbn [map app]. now rewrite IH.
    + intros doc Hin Htext.
      assert (Hdoc : In doc (List.filter SrcApp.isTextDocument (SrcApp.documents st))).
      { apply filter_In. now split. }
      destruct (List.filter SrcApp.isTextDocument (SrcApp.documents st))
        as [|d0 textDocs] eqn:Hdocs; [contradiction|].
      rewrite (fold_blocks
                 (fun d => "--- " +:+ RagDocument.name d +:+ " ---" +:+ nl
                           +:+ RagDocument.content d +:+ nl +:+ nl)).
      now apply (occursIn_blocks
                   (fun d => "--- " +:+ RagDocument.name d +:+ " ---" +:+ nl
                             +:+ RagDocument.content d +:+ nl +:+ nl)).
  - intros st templateId customInstruction doc Hin sent. subst sent.
    unfold LiveApp.summaryRequest. cbn [parts].
    destruct (LiveApp.documents st) as [|d0 docs] eqn:Hdocs; [contradiction|].
    assert (Hparts : forall p, In p (LiveApp.documentParts doc) ->
              In p (flat_map LiveApp.documentParts (d0 :: docs))).
    { intros p Hp. apply in_flat_map. now exists doc. }
    unfold LiveApp.documentParts in Hparts at 1. split.
    + intros Htype. rewrite Htype in Hparts. cbn in Hparts.
      right; right. apply Hparts. now left.
    + intros Htype. apply String.eqb_neq in Htype. rewrite Htype in Hparts.
      split; right; right; apply Hparts; [now left | right; now left].
Qed.

(** A note and a scanned form in [src/App.tsx]. *)
Lemma summary_request_carries_every_document_example :
  let note := RagDocument.mk "n" "note.md" "met on Monday" "text/plain" in
  let scan := RagDocument.mk "s" "form.png" "iVBORw0KGgo=" "image/png" in
  let st := SrcApp.setDocuments [note; scan] SrcApp.initial in
  In (InlineData "image/png" "iVBORw0KGgo=")
    (parts (@SrcApp.summaryRequest st "free" ""))
  /\ exists prompt,
       hd_error (parts (SrcApp.summaryRequest st "free" "")) = Some (TextPart prompt)
       /\ occursIn ("--- note.md ---" +:+ nl +:+ "met on Monday" +:+ nl +:+ nl)
            prompt.
Proof.
  intros note scan st.
  destruct (proj1 (summary_request_carries_every_document exampleRuntime)
              st "free" "") as (prompt & Hparts & Htext).
  split.
  - rewrite Hparts. right. now left.
  - exists prompt. split; [now rewrite Hparts|].
    apply (Htext note); [now left | reflexivity].
Defined.

(** ** The handlers of [src/App.tsx], stretch by stretch *)

Section SrcStretches.
Context `{JsRuntime}.
Variable apiKey : option string.

(** Each handler is its stretches run one after the other. *)
Lemma startRecording_stretches st outcome :
  SrcApp.startRecording st apiKey outcome
  = if truthyOpt apiKey
    then SrcApp.startSettled (SrcApp.startBegun st apiKey) outcome
    else SrcApp.startBegun st apiKey.
Proof.
  unfold SrcApp.startRecording, SrcApp.startBegun, SrcApp.startSettled.
  destruct (truthyOpt apiKey); [|reflexivity]. cbn [negb]. now destruct outcome.
Qed.

Lemma analyze_stretches st audioBlob reply clock :
  truthyOpt apiKey = true ->
  SrcApp.analyzeAudioAndDiarize st apiKey audioBlob reply clock
  = (SrcApp.analysisEnded (SrcApp.analysisBegun st) audioBlob reply clock,
     [SrcApp.analysisRequest audioBlob]).
Proof.
  intros Hkey.
  unfold SrcApp.analyzeAudioAndDiarize, SrcApp.analysisEnded,
    SrcApp.analysisBegun, SrcApp.analysisRequest.
  rewrite Hkey. cbn [negb].
  destruct (SrcApp.diarize audioBlob reply clock) as [effects completion] eqn:Hd.
  unfold SrcApp.diarize in Hd. injection Hd as <- _. cbn [snd].
  now destruct completion.
Qed.

Lemma generateSummary_stretches st templateId customInstruction reply :
  SrcApp.generateSummary st apiKey templateId customInstruction reply
  = (if snd (SrcApp.summaryBegun st apiKey templateId customInstruction)
     then SrcApp.summaryEnded
            (fst (fst (SrcApp.summaryBegun st apiKey templateId
                         customInstruction))) reply
     else fst (fst (SrcApp.summaryBegun st apiKey templateId customInstruction)),
     snd (fst (SrcApp.summaryBegun st apiKey templateId customInstruction))).
Proof.
  unfold SrcApp.generateSummary, SrcApp.summaryBegun, SrcApp.summaryEnded.
  destruct (negb (truthyOpt apiKey)); [reflexivity|].
  destruct (_ && _); [reflexivity|]. now destruct reply.
Qed.

Lemma stopRecording_stretches seen st isError chunks reply clock :
  SrcApp.stopRecordingSeen seen st isError (Some chunks) apiKey reply clock
  = if snd (SrcApp.stopBegun seen st true) then
      match snd (SrcApp.recorderStopped st isError chunks apiKey) with
      | Some audioBlob =>
          (SrcApp.analysisEnded
             (fst (SrcApp.recorderStopped st isError chunks apiKey))
             audioBlob reply clock,
           [SrcApp.analysisRequest audioBlob])
      | None => (fst (SrcApp.recorderStopped st isError chunks apiKey), [])
      end
    else (st, []).
Proof.
  unfold SrcApp.stopRecordingSeen, SrcApp.stopBegun, SrcApp.recorderStopped.
  destruct (negb (bool_decide (seen = RECORDING))
            && negb (bool_decide (seen = CONNECTING))); [reflexivity|].
  cbn [snd fst]. destruct isError; cbn [negb]; [reflexivity|].
  destruct (truthyOpt apiKey) eqn:Hkey; cbn [negb fst snd].
  - now rewrite analyze_stretches.
  - unfold SrcApp.analyzeAudioAndDiarize. now rewrite Hkey.
Qed.






(** The stretches that write [isSessionFinished]. *)
Lemma stretch_finished st g :
  g <> SrcApp.ResetAnswered true ->
  SrcApp.isSessionFinished st = true ->
  SrcApp.isSessionFinished (SrcApp.stretch apiKey st g) = true.
Proof.
  intros Hg Hst. destruct g; cbn [SrcApp.stretch].
  - unfold SrcApp.startBegun. now destruct (negb (truthyOpt apiKey)).
  - unfold SrcApp.startSettled. now destruct outcome.
  - exact Hst.
  - unfold SrcApp.errorFired, SrcApp.stopBegun.
    destruct (bool_decide (seen = RECORDING)); [|exact Hst].
    destruct (negb true && _); [exact Hst|]. now destruct active.
  - unfold SrcApp.stopBegun. destruct (_ && _); [exact Hst|].
    now destruct active.
  - unfold SrcApp.recorderStopped. destruct isError; [reflexivity|].
    now destruct (negb (truthyOpt apiKey)).
  - unfold SrcApp.analysisEnded.
    now destruct (snd (SrcApp.diarize audioBlob reply clock)).
  - unfold SrcApp.summaryBegun. destruct (negb (truthyOpt apiKey));
      [exact Hst|]. now destruct (_ && _).
  - unfold SrcApp.summaryEnded. now destruct reply.
  - exact Hst.
  - exact Hst.
  - unfold SrcApp.onEdit, SrcApp.updateTranscript.
    now destruct (List.find _ _).
  - exact Hst.
  - destruct confirmed; [contradiction | exact Hst].
Qed.

Lemma src_start_shown_idle shown :
  SrcApp.canStartRecording shown = true -> SrcApp.status shown = IDLE.
Proof.
  intros Hstart. unfold SrcApp.canStartRecording in Hstart.
  apply andb_prop in Hstart as [Hstart _].
  apply andb_prop in Hstart as [_ Hidle].
  now apply bool_decide_eq_true_1 in Hidle.
Qed.

End SrcStretches.



(** ** The page of [src/App.tsx] *)

Section SrcPage.
Context `{JsRuntime}.
Variable apiKey : option string.

Lemma run_cons s a rest :
  SrcScreen.run apiKey s (a :: rest)
  = (fst (SrcScreen.run apiKey (fst (SrcScreen.act apiKey s a)) rest),
     (snd (SrcScreen.act apiKey s a)
      ++ snd (SrcScreen.run apiKey (fst (SrcScreen.act apiKey s a)) rest))%list).
Proof.
  cbn [SrcScreen.run]. destruct (SrcScreen.act apiKey s a) as [s' effects].
  cbn [fst snd]. now destruct (SrcScreen.run apiKey s' rest).
Qed.

(** A property kept by every action holds along every series. *)
Lemma run_invariant (P : SrcScreen.Screen -> Prop) :
  (forall s a, P s -> P (fst (SrcScreen.act apiKey s a))) ->
  forall actions s, P s -> P (fst (SrcScreen.run apiKey s actions)).
Proof.
  intros Hstep. induction actions as [|a rest IH]; intros s Hs; [exact Hs|].
  rewrite run_cons. cbn [fst]. apply IH, Hstep, Hs.
Qed.

(** The connections an action leaves are those of the page it would leave
    were the page mounted. *)
Lemma act_connections s a :
  SrcScreen.connections (fst (SrcScreen.act apiKey s a))
  = SrcScreen.connections s
  \/ SrcScreen.connections (fst (SrcScreen.act apiKey s a))
     = SrcScreen.connections (fst (SrcScreen.proceed apiKey s a)).
Proof.
  unfold SrcScreen.act. destruct (SrcScreen.crashed (SrcScreen.app s));
    [|now right].
  destruct (SrcScreen.byUser a); [now left|].
  right. now destruct (SrcScreen.proceed apiKey s a).
Qed.

(** The callbacks of every connection hold the status of an idle page. *)
Lemma proceed_idle_connections s a :
  Forall (fun seen => seen = IDLE) (SrcScreen.connections s) ->
  Forall (fun seen => seen = IDLE)
    (SrcScreen.connections (fst (SrcScreen.proceed apiKey s a))).
Proof.
  intros Hs. destruct a; unfold SrcScreen.proceed; cbv beta zeta;
    try (repeat case_match; cbn [fst SrcScreen.connections]; exact Hs).
  destruct (SrcApp.canStartRecording (SrcScreen.app s)) eqn:Hstart; [|exact Hs].
  destruct (truthyOpt apiKey); cbn [fst SrcScreen.connections]; [|exact Hs].
  apply Forall_app. split; [exact Hs|].
  constructor; [|constructor]. now apply src_start_shown_idle.
Qed.

Lemma act_idle_connections s a :
  Forall (fun seen => seen = IDLE) (SrcScreen.connections s) ->
  Forall (fun seen => seen = IDLE)
    (SrcScreen.connections (fst (SrcScreen.act apiKey s a))).
Proof.
  intros Hs. destruct (act_connections s a) as [-> | ->]; [exact Hs|].
  now apply proceed_idle_connections.
Qed.

End SrcPage.

(** A second start before any stop: a file is uploaded, a recording is
    started, a summary is asked for while the connection is being made, the
    connection opens and the summary arrives.  The page is idle and shows
    the start button, the first [startRecording] still in its [try]
    block. *)
Lemma page_second_start_example :
  let file :=
    {| SrcApp.fileName := "note.md"; SrcApp.fileType := "text/markdown";
       SrcApp.fileText := Normal "met on Monday";
       SrcApp.filePayload := Normal "bWV0IG9uIE1vbmRheQ==";
       SrcApp.randomId := "k3x9q2m1z" |} in
  let s :=
    fst (@SrcScreen.run exampleRuntime (Some "key") SrcScreen.initial
           [SrcScreen.ChooseFiles [file]; SrcScreen.ClickStart;
            SrcScreen.ClickGenerate "free" ""; SrcScreen.LiveOpen 0;
            SrcScreen.SummaryArrives 1 (Responded (Some "summary"))]) in
  SrcApp.status (SrcScreen.app s) = IDLE
  /\ SrcApp.canStartRecording (SrcScreen.app s) = true
  /\ SrcScreen.waiting s = [SrcScreen.Starting]
  /\ SrcScreen.connections s = [IDLE].
Proof. intros file s. now repeat split. Qed.

(** X9.  The callbacks of the live connection that test the status never
    act.  They are made by the call of [startRecording] and test the status
    of the render in which the start button was clicked, a render that
    shows the button: in [src/App.tsx] that status is [IDLE], so [onerror]
    (which acts on [RECORDING]) saves nothing and reports nothing, after any
    series of interactions; in the live-merging component it is [IDLE],
    [ERROR] or [PROCESSING], so [onclose] (which acts on [RECORDING]) and
    [onerror] (which acts on [CONNECTING]) leave the state as it is. *)
Theorem connection_callbacks_never_act :
  forall runtime : JsRuntime,
  (forall apiKey actions connection active,
      let s := fst (SrcScreen.run apiKey SrcScreen.initial actions) in
      SrcScreen.act apiKey s (SrcScreen.LiveError connection active) = (s, []))
  /\ (forall shown st recorder apiKey reply clock,
         SrcApp.canStartRecording shown = true ->
         SrcApp.onerror (SrcApp.status shown) st recorder apiKey reply clock
         = (st, []))
  /\ (forall shown st chunks apiKey,
         LiveApp.canStartRecording shown = true ->
         LiveApp.onclose (LiveApp.status shown) st chunks apiKey = (st, None)
         /\ LiveApp.onerror (LiveApp.status shown) st = st)
  /\ (forall shown st active,
         SrcApp.canStartRecording shown = true ->
         SrcApp.errorFired (SrcApp.status shown) st active = (st, false)).
Proof.
  intros runtime. split; [|split; [|split]].
  - intros apiKey actions connection active s.
    assert (Hidle : Forall (fun seen => seen = IDLE) (SrcScreen.connections s)).
    { subst s.
      apply (run_invariant apiKey
               (fun s => Forall (fun seen => seen = IDLE)
                           (SrcScreen.connections s))).
      - intros s a. apply act_idle_connections.
      - constructor. }
    clearbody s.
    assert (Hproceed : SrcScreen.proceed apiKey s
                         (SrcScreen.LiveError connection active) = (s, [])).
    { unfold SrcScreen.proceed. cbv beta zeta.
      destruct (SrcScreen.connections s !! connection) as [seen|] eqn:E;
        [|reflexivity].
      rewrite Forall_forall in Hidle.
      rewrite (Hidle seen (list_elem_of_lookup_2 _ _ _ E)).
      unfold SrcApp.errorFired.
      rewrite bool_decide_eq_false_2 by discriminate. now destruct s. }
    unfold SrcScreen.act. rewrite Hproceed. cbn [SrcScreen.byUser].
    destruct (SrcScreen.crashed (SrcScreen.app s)); [|reflexivity].
    now destruct s.
  - intros shown st recorder apiKey reply clock Hstart.
    rewrite (src_start_shown_idle shown Hstart). unfold SrcApp.onerror.
    now rewrite bool_decide_eq_false_2 by discriminate.
  - intros shown st chunks apiKey Hstart.
    unfold LiveApp.canStartRecording in Hstart.
    apply andb_prop in Hstart as [Hstart _].
    apply andb_prop in Hstart as [Hstatus _].
    unfold LiveApp.onclose, LiveApp.onerror.
    destruct (LiveApp.status shown); cbn in Hstatus; try discriminate;
      now rewrite !bool_decide_eq_false_2 by discriminate.
  - intros shown st active Hstart.
    rewrite (src_start_shown_idle shown Hstart). unfold SrcApp.errorFired.
    now rewrite bool_decide_eq_false_2 by discriminate.
Qed.

(** The connection of a recording started on a fresh page fails while the
    page records. *)
Lemma connection_callbacks_never_act_example :
  let recording :=
    SrcApp.onopen
      (SrcApp.startRecording SrcApp.initial (Some "key") SrcApp.Connected) in
  SrcApp.canStartRecording SrcApp.initial = true
  /\ SrcApp.status recording = RECORDING
  /\ @SrcApp.onerror exampleRuntime (SrcApp.status SrcApp.initial) recording
       (Some [Blob.mk [1; 2] "audio/webm"]) (Some "key") (Rejected "closed")
       (fun _ => 0)
     = (recording, []).
Proof.
  intros recording. split; [reflexivity|]. split; [reflexivity|].
  exact (proj1 (proj2 (connection_callbacks_never_act exampleRuntime))
           SrcApp.initial recording (Some [Blob.mk [1; 2] "audio/webm"])
           (Some "key") (Rejected "closed") (fun _ => 0) eq_refl).
Defined.

Section Sessions.
Context `{JsRuntime}.

(** The events of the live-merging component other than a reset leave
    [isSessionFinished] as it is. *)
Lemma live_step_finished st e :
  (forall confirmed, e <> LiveApp.Reset confirmed) ->
  LiveApp.isSessionFinished (LiveApp.step st e) = LiveApp.isSessionFinished st.
Proof.
  intros He. destruct e; cbn [LiveApp.step].
  - unfold LiveApp.handleTranscriptChunk.
    destruct (negb (truthy (trim text))); [reflexivity|].
    unfold LiveApp.processTranscriptUpdate.
    destruct (list_find _ _) as [[i item]|]; [|reflexivity].
    destruct (_ && _); reflexivity.
  - unfold LiveApp.processTranscriptUpdate.
    destruct (list_find _ _) as [[i item]|]; [|reflexivity].
    destruct (_ && _); reflexivity.
  - reflexivity.
  - unfold LiveApp.analyzeAudioAndDiarize.
    destruct (match blobToAnalyze with Some b => Some b | None => _ end);
      [|reflexivity].
    destruct (negb (truthyOpt apiKey)); [reflexivity|].
    destruct (LiveApp.diarize _ reply clock) as [effects [entries|m]]; reflexivity.
  - now contradiction (He confirmed).
Qed.

Lemma live_run_finished events : forall st,
  Forall (fun e => forall confirmed, e <> LiveApp.Reset confirmed) events ->
  LiveApp.isSessionFinished (LiveApp.run st events)
  = LiveApp.isSessionFinished st.
Proof.
  induction events as [|e rest IH]; intros st Hall; [reflexivity|].
  apply Forall_cons_1 in Hall as [He Hall].
  cbn [LiveApp.run fold_left]. fold (LiveApp.run (LiveApp.step st e) rest).
  rewrite (IH _ Hall). now apply live_step_finished.
Qed.

Lemma live_settle_finished returned reply clock :
  LiveApp.isSessionFinished (fst (LiveApp.settle returned reply clock))
  = LiveApp.isSessionFinished (fst returned).
Proof.
  unfold LiveApp.settle. destruct (snd returned) as [blob|]; [|reflexivity].
  unfold LiveApp.analysisEnded.
  destruct (LiveApp.diarize blob reply clock) as [effects [entries|m]]; reflexivity.
Qed.

Lemma live_stop_finished st chunks key :
  LiveApp.isSessionFinished (fst (LiveApp.stopRecording st chunks key)) = true.
Proof.
  unfold LiveApp.stopRecording. destruct chunks; [reflexivity|].
  now destruct (negb (truthyOpt key)).
Qed.

End Sessions.

(** X10.  A finished session stays finished until a confirmed reset.  In
    [src/App.tsx], whatever state a stretch of a handler meets, if
    [isSessionFinished] is set it is set when the stretch has run, unless
    the stretch is a confirmed reset; while it is set the start button is
    not rendered, and a confirmed reset brings the button back.  The flag
    is set when a recording is stopped: by [stopRecording] at the [stop]
    event of the recorder, or at once when no recorder is active.  It is
    not set by a start: when a summary is generated while a start is under
    way, the start button is rendered again once the summary has arrived,
    so that a second recording can be started before the first is stopped.
    In the live-merging component the flag is set from the return of
    [stopRecording] on, through the end of the analysis it started and
    every fragment, edit and diarization run after it, and the start
    button is not rendered. *)
Theorem finished_session_stays_finished :
  forall runtime : JsRuntime,
  (forall apiKey st g,
      g <> SrcApp.ResetAnswered true ->
      SrcApp.isSessionFinished st = true ->
      SrcApp.isSessionFinished (SrcApp.stretch apiKey st g) = true)
  /\ (forall apiKey st,
         (forall isError chunks,
             SrcApp.isSessionFinished
               (SrcApp.stretch apiKey st (SrcApp.RecorderStopped isError chunks))
             = true)
         /\ (forall seen,
                seen = RECORDING \/ seen = CONNECTING ->
                SrcApp.isSessionFinished
                  (SrcApp.stretch apiKey st (SrcApp.StopBegun seen false))
                = true)
         /\ (forall seen,
                SrcApp.isSessionFinished
                  (SrcApp.stretch apiKey st (SrcApp.StopBegun seen true))
                = SrcApp.isSessionFinished st)
         /\ SrcApp.isSessionFinished
              (SrcApp.stretch apiKey st SrcApp.StartBegun)
            = SrcApp.isSessionFinished st)
  /\ (forall st,
         SrcApp.isSessionFinished st = true ->
         SrcApp.canStartRecording st = false)
  /\ (forall apiKey st,
         SrcApp.canStartRecording
           (SrcApp.stretch apiKey st (SrcApp.ResetAnswered true)) = true)
  /\ (forall apiKey st templateId customInstruction reply,
         truthyOpt apiKey = true ->
         SrcApp.canStartRecording st = true ->
         SrcApp.documents st <> [] ->
         let started := SrcApp.stretch apiKey st SrcApp.StartBegun in
         let asked :=
           SrcApp.stretch apiKey started
             (SrcApp.SummaryBegun templateId customInstruction) in
         let answered :=
           SrcApp.stretch apiKey asked (SrcApp.SummaryEnded reply) in
         SrcApp.status started = CONNECTING
         /\ SrcApp.canStartRecording started = false
         /\ SrcApp.status asked = PROCESSING
         /\ SrcApp.canStartRecording answered = true)
  /\ (forall st chunks apiKey reply clock events,
         Forall (fun e => forall confirmed, e <> LiveApp.Reset confirmed) events ->
         let returned := LiveApp.stopRecording st chunks apiKey in
         let settled := fst (LiveApp.settle returned reply clock) in
         LiveApp.canStartRecording (fst returned) = false
         /\ LiveApp.canStartRecording (LiveApp.run settled events) = false).
Proof.
  intros runtime. split; [|split; [|split; [|split; [|split]]]].
  - intros apiKey st g. apply stretch_finished.
  - intros apiKey st. split; [|split; [|split]].
    + intros isError chunks. cbn [SrcApp.stretch].
      unfold SrcApp.recorderStopped. destruct isError; [reflexivity|].
      now destruct (negb (truthyOpt apiKey)).
    + intros seen Hseen. cbn [SrcApp.stretch]. unfold SrcApp.stopBegun.
      now destruct Hseen as [-> | ->].
    + intros seen. cbn [SrcApp.stretch]. unfold SrcApp.stopBegun.
      now destruct (_ && _).
    + cbn [SrcApp.stretch]. unfold SrcApp.startBegun.
      now destruct (negb (truthyOpt apiKey)).
  - intros st Hst. unfold SrcApp.canStartRecording. now rewrite Hst.
  - reflexivity.
  - intros apiKey st templateId customInstruction reply Hkey Hstart Hdocs
      started asked answered.
    assert (Hstarted : started
                       = SrcApp.setStatus CONNECTING
                           (SrcApp.setSummary ""
                              (SrcApp.setTranscripts []
                                 (SrcApp.setErrorMsg None st)))).
    { subst started. cbn [SrcApp.stretch]. unfold SrcApp.startBegun.
      now rewrite Hkey. }
    assert (Hasked : asked = SrcApp.setStatus PROCESSING started).
    { subst asked. cbn [SrcApp.stretch]. unfold SrcApp.summaryBegun.
      rewrite Hkey. cbn [negb]. rewrite Hstarted.
      cbn [SrcApp.transcripts SrcApp.documents SrcApp.setStatus
           SrcApp.setSummary SrcApp.setTranscripts SrcApp.setErrorMsg
           length Nat.eqb andb].
      destruct (SrcApp.documents st); [contradiction | reflexivity]. }
    unfold SrcApp.canStartRecording in Hstart.
    apply andb_prop in Hstart as [Hstart Hpost].
    apply andb_prop in Hstart as [Hfin _].
    split; [now rewrite Hstarted|]. split.
    { rewrite Hstarted. unfold SrcApp.canStartRecording. cbn.
      now rewrite andb_false_r. }
    split; [now rewrite Hasked|].
    subst answered. cbn [SrcApp.stretch]. unfold SrcApp.summaryEnded.
    rewrite Hasked, Hstarted. unfold SrcApp.canStartRecording.
    destruct reply; cbn; now rewrite Hfin, Hpost.
  - intros st chunks apiKey reply clock events Hevents returned settled.
    assert (Hret : LiveApp.isSessionFinished (fst returned) = true)
      by apply live_stop_finished.
    split.
    + unfold LiveApp.canStartRecording. rewrite Hret.
      now rewrite andb_false_r.
    + unfold LiveApp.canStartRecording.
      rewrite (live_run_finished events settled Hevents). subst settled.
      rewrite live_settle_finished, Hret. now rewrite andb_false_r.
Qed.

(** A recording is stopped; the analysis ends and a summary is asked for
    and arrives. *)
Lemma finished_session_stays_finished_example :
  let recording :=
    SrcApp.onopen (SrcApp.startBegun SrcApp.initial (Some "key")) in
  let stopped :=
    @SrcApp.stretch exampleRuntime (Some "key") recording
      (SrcApp.RecorderStopped false [Blob.mk [1; 2; 3] "audio/webm"]) in
  let later :=
    @SrcApp.stretch exampleRuntime (Some "key") stopped
      (SrcApp.AnalysisEnded (Blob.mk [1; 2; 3] "audio/webm")
         (Responded (Some dialogueResponse)) (fun _ => 7)) in
  SrcApp.status recording = RECORDING
  /\ SrcApp.isSessionFinished stopped = true
  /\ SrcApp.isSessionFinished later = true
  /\ SrcApp.canStartRecording later = false.
Proof.
  intros recording stopped later.
  destruct (finished_session_stays_finished exampleRuntime)
    as (Hkept & _ & Hhidden & _).
  assert (Hstopped : SrcApp.isSessionFinished stopped = true) by reflexivity.
  assert (Hlater : SrcApp.isSessionFinished later = true).
  { apply Hkept; [discriminate | exact Hstopped]. }
  split; [reflexivity|]. split; [exact Hstopped|]. split; [exact Hlater|].
  now apply Hhidden.
Defined.

Section NoKey.
Context `{JsRuntime}.
Variable apiKey : option string.
Hypothesis no_key : truthyOpt apiKey = false.

(** What the page of [src/App.tsx] can be when there is no key: idle,
    with no transcript and no summary, no connection made and no handler
    waiting.  Such a page renders. *)
Lemma proceed_without_key s a :
  SrcApp.status (SrcScreen.app s) = IDLE
  /\ SrcApp.transcripts (SrcScreen.app s) = []
  /\ SrcApp.summary (SrcScreen.app s) = ""
  /\ SrcScreen.connections s = []
  /\ SrcScreen.waiting s = [] ->
  (SrcApp.status (SrcScreen.app (fst (SrcScreen.proceed apiKey s a))) = IDLE
   /\ SrcApp.transcripts (SrcScreen.app (fst (SrcScreen.proceed apiKey s a))) = []
   /\ SrcApp.summary (SrcScreen.app (fst (SrcScreen.proceed apiKey s a))) = ""
   /\ SrcScreen.connections (fst (SrcScreen.proceed apiKey s a)) = []
   /\ SrcScreen.waiting (fst (SrcScreen.proceed apiKey s a)) = [])
  /\ snd (SrcScreen.proceed apiKey s a) = [].
Proof.
  intros (Hstatus & Hts & Hsum & Hconn & Hwait).
  destruct a; unfold SrcScreen.proceed; cbv beta zeta;
    rewrite ?Hconn, ?Hwait, ?lookup_nil.
  - destruct (SrcApp.canStartRecording (SrcScreen.app s)); [|now repeat split].
    rewrite no_key. unfold SrcApp.startBegun. rewrite no_key.
    cbn [negb fst snd SrcScreen.app SrcScreen.connections SrcScreen.waiting
         SrcApp.setErrorMsg SrcApp.status SrcApp.transcripts SrcApp.summary].
    now repeat split.
  - now repeat split.
  - now repeat split.
  - now repeat split.
  - rewrite Hstatus. rewrite bool_decide_eq_false_2 by discriminate.
    now repeat split.
  - now repeat split.
  - now repeat split.
  - now repeat split.
  - rewrite Hts, Hstatus. rewrite bool_decide_eq_false_2 by discriminate.
    now repeat split.
  - rewrite Hstatus. cbn. unfold SrcApp.summaryBegun. rewrite no_key.
    now repeat split.
  - now repeat split.
  - now repeat split.
  - destruct (SrcApp.documents (SrcScreen.app s) !! index); now repeat split.
  - destruct (truthyOpt (SrcApp.errorMsg (SrcScreen.app s))); now repeat split.
  - destruct confirmed; now repeat split.
Qed.

Lemma act_without_key s a :
  SrcApp.status (SrcScreen.app s) = IDLE
  /\ SrcApp.transcripts (SrcScreen.app s) = []
  /\ SrcApp.summary (SrcScreen.app s) = ""
  /\ SrcScreen.connections s = []
  /\ SrcScreen.waiting s = [] ->
  (SrcApp.status (SrcScreen.app (fst (SrcScreen.act apiKey s a))) = IDLE
   /\ SrcApp.transcripts (SrcScreen.app (fst (SrcScreen.act apiKey s a))) = []
   /\ SrcApp.summary (SrcScreen.app (fst (SrcScreen.act apiKey s a))) = ""
   /\ SrcScreen.connections (fst (SrcScreen.act apiKey s a)) = []
   /\ SrcScreen.waiting (fst (SrcScreen.act apiKey s a)) = [])
  /\ snd (SrcScreen.act apiKey s a) = [].
Proof.
  intros Hs.
  assert (Hrenders : SrcScreen.crashed (SrcScreen.app s) = false).
  { destruct Hs as (_ & Hts & _).
    unfold SrcScreen.crashed, TranscriptView.renderThrows, TranscriptView.view.
    rewrite Hts. now destruct (bool_decide _). }
  unfold SrcScreen.act. rewrite Hrenders. now apply proceed_without_key.
Qed.

End NoKey.

(** X11.  Without an API key nothing is ever sent.  [getApiKey] gives a
    key only when one of the two environment variables holds a non-empty
    text.  When there is none, every series of interactions with the page
    of [src/App.tsx] leaves the status [IDLE], the transcript and the
    summary empty, and sends no request and shows no alert; a click on the
    start button only sets the error message, and no handler is left
    waiting.  In the live-merging component [startRecording] only sets its
    error message, and [analyzeAudioAndDiarize] and [generateSummary]
    return at once, state unchanged and nothing sent; [stopRecording]
    starts no analysis. *)
Theorem without_api_key_nothing_is_sent :
  forall (runtime : JsRuntime) (apiKey : option string),
    truthyOpt apiKey = false ->
    (forall actions,
        let result := SrcScreen.run apiKey SrcScreen.initial actions in
        SrcApp.status (SrcScreen.app (fst result)) = IDLE
        /\ SrcApp.transcripts (SrcScreen.app (fst result)) = []
        /\ SrcApp.summary (SrcScreen.app (fst result)) = ""
        /\ snd result = [])
    /\ (forall st outcome,
           SrcApp.startRecording st apiKey outcome
           = SrcApp.setErrorMsg
               (Some "APIキーが設定されていません。.envファイルを確認してください。") st)
    /\ (forall st outcome,
           LiveApp.startRecording st apiKey outcome
           = LiveApp.setErrorMsg (Some "API Key not found.") st)
    /\ (forall st blobToAnalyze reply clock,
           LiveApp.analyzeAudioAndDiarize st apiKey blobToAnalyze reply clock
           = (st, []))
    /\ (forall st templateId customInstruction reply,
           LiveApp.generateSummary st apiKey templateId customInstruction reply
           = (st, []))
    /\ (forall st chunks, snd (LiveApp.stopRecording st chunks apiKey) = None)
    /\ (forall viteKey nodeKey,
           SrcApp.getApiKey viteKey nodeKey = apiKey ->
           truthyOpt viteKey = false /\ truthyOpt nodeKey = false)
    /\ (forall st isError chunks templateId customInstruction,
           SrcApp.startBegun st apiKey
           = SrcApp.setErrorMsg
               (Some "APIキーが設定されていません。.envファイルを確認してください。") st
           /\ snd (SrcApp.recorderStopped st isError chunks apiKey) = None
           /\ SrcApp.summaryBegun st apiKey templateId customInstruction
              = (st, [], false)).
Proof.
  intros runtime apiKey Hkey.
  split; [|split; [|split; [|split; [|split; [|split; [|split]]]]]].
  - intros actions.
    assert (Hrun : forall actions s,
               SrcApp.status (SrcScreen.app s) = IDLE
               /\ SrcApp.transcripts (SrcScreen.app s) = []
               /\ SrcApp.summary (SrcScreen.app s) = ""
               /\ SrcScreen.connections s = []
               /\ SrcScreen.waiting s = [] ->
               (SrcApp.status (SrcScreen.app (fst (SrcScreen.run apiKey s actions)))
                = IDLE
                /\ SrcApp.transcripts
                     (SrcScreen.app (fst (SrcScreen.run apiKey s actions))) = []
                /\ SrcApp.summary
                     (SrcScreen.app (fst (SrcScreen.run apiKey s actions))) = "")
               /\ snd (SrcScreen.run apiKey s actions) = []).
    { clear actions. induction actions as [|a rest IH]; intros s Hs.
      - destruct Hs as (Hst & Hts & Hsum & _ & _). now repeat split.
      - rewrite run_cons. cbn [fst snd].
        destruct (act_without_key apiKey Hkey s a Hs) as [Hs' Hnone].
        destruct (IH _ Hs') as [Hend Hrest].
        split; [exact Hend|]. now rewrite Hnone, Hrest. }
    destruct (Hrun actions SrcScreen.initial) as [(Hst & Hts & Hsum) Hnone];
      [now repeat split|].
    now repeat split.
  - intros st outcome. unfold SrcApp.startRecording. now rewrite Hkey.
  - intros st outcome. unfold LiveApp.startRecording. now rewrite Hkey.
  - intros st blobToAnalyze reply clock. unfold LiveApp.analyzeAudioAndDiarize.
    rewrite Hkey. cbn [negb].
    now destruct (match blobToAnalyze with Some b => Some b | None => _ end).
  - intros st templateId customInstruction reply.
    unfold LiveApp.generateSummary. now rewrite Hkey.
  - intros st chunks. unfold LiveApp.stopRecording. rewrite Hkey.
    now destruct chunks.
  - intros viteKey nodeKey Hget. unfold SrcApp.getApiKey in Hget.
    destruct (truthyOpt viteKey) eqn:Hv.
    { rewrite Hget in Hv. congruence. }
    destruct (truthyOpt nodeKey) eqn:Hn.
    { rewrite Hget in Hn. congruence. }
    now split.
  - intros st isError chunks templateId customInstruction.
    unfold SrcApp.startBegun, SrcApp.recorderStopped, SrcApp.summaryBegun.
    rewrite Hkey. cbn [negb]. split; [reflexivity|]. split; [|reflexivity].
    now destruct isError.
Qed.

(** An environment with an empty key: the start button and the generate
    button are clicked. *)
Lemma without_api_key_nothing_is_sent_example :
  SrcApp.getApiKey (Some "") None = None
  /\ snd (@SrcScreen.run exampleRuntime None SrcScreen.initial
            [SrcScreen.ClickStart; SrcScreen.ClickGenerate "free" ""])
     = []
  /\ SrcApp.errorMsg
       (SrcApp.startRecording SrcApp.initial None SrcApp.Connected)
     = Some "APIキーが設定されていません。.envファイルを確認してください。".
Proof.
  destruct (without_api_key_nothing_is_sent exampleRuntime None eq_refl)
    as (Hrun & Hstart & _).
  split; [reflexivity|]. split.
  - exact (proj2 (proj2 (proj2
             (Hrun [SrcScreen.ClickStart; SrcScreen.ClickGenerate "free" ""])))).
  - now rewrite Hstart.
Defined.

(** ** Starting and stopping a recording *)

Section Recording.
Context `{JsRuntime}.

(** The analysis split at its first [await] is the analysis. *)
Lemma live_analysis_split st apiKey blob reply clock :
  truthyOpt apiKey = true ->
  LiveApp.analyzeAudioAndDiarize st apiKey (Some blob) reply clock
  = LiveApp.analysisEnded (LiveApp.analysisStarted st) blob reply clock.
Proof.
  intros Hkey. unfold LiveApp.analyzeAudioAndDiarize, LiveApp.analysisEnded.
  rewrite Hkey. cbn [negb]. reflexivity.
Qed.

Lemma textOr_shown message fallback :
  fallback <> "" -> textOr message fallback <> "".
Proof.
  intros Hf. unfold textOr. destruct message as [m|]; [|exact Hf].
  destruct (truthy m) eqn:Hm; [|exact Hf].
  intros ->. discriminate Hm.
Qed.

End Recording.

(** X12.  In the live-merging component the analysis of a recording starts
    when the recording is stopped, and runs while the page says it is idle.
    [stopRecording] with at least one chunk and a key keeps the chunks,
    joined in order, as the recording, and leaves its analysis under way;
    the state it returns has status [IDLE], no error message and a finished
    session, so that while the request is pending the overlay that tells of
    the analysis is not rendered and the generate button is enabled.  When
    the analysis ends, the state and the requests sent are those of
    [analyzeAudioAndDiarize] run on the recording kept.  With no chunk,
    nothing is kept and no analysis starts.  The two halves of the analysis,
    before and after its first [await], run one after the other are
    [analyzeAudioAndDiarize]. *)
Theorem live_stop_leaves_analysis_under_way :
  forall runtime : JsRuntime,
  (forall st chunks apiKey reply clock,
      chunks <> [] -> truthyOpt apiKey = true ->
      let returned := LiveApp.stopRecording st chunks apiKey in
      snd returned = Some (recordingOf chunks)
      /\ LiveApp.recordedBlob (fst returned) = Some (recordingOf chunks)
      /\ LiveApp.status (fst returned) = IDLE
      /\ LiveApp.errorMsg (fst returned) = None
      /\ LiveApp.isSessionFinished (fst returned) = true
      /\ LiveApp.activeTranscriptIdRef (fst returned) = None
      /\ LiveApp.transcripts (fst returned) = LiveApp.transcripts st
      /\ LiveApp.analysisOverlay (fst returned) = false
      /\ SummaryPanel.generateDisabled (LiveApp.status (fst returned)) = false
      /\ LiveApp.settle returned reply clock
         = LiveApp.analyzeAudioAndDiarize (fst returned) apiKey None reply clock)
  /\ (forall st apiKey reply clock,
         let returned := LiveApp.stopRecording st [] apiKey in
         snd returned = None
         /\ LiveApp.recordedBlob (fst returned) = LiveApp.recordedBlob st
         /\ LiveApp.status (fst returned) = IDLE
         /\ LiveApp.isSessionFinished (fst returned) = true
         /\ LiveApp.settle returned reply clock = (fst returned, []))
  /\ (forall st apiKey blob reply clock,
         truthyOpt apiKey = true ->
         LiveApp.analyzeAudioAndDiarize st apiKey (Some blob) reply clock
         = LiveApp.analysisEnded (LiveApp.analysisStarted st) blob reply clock).
Proof.
  intros runtime. split; [|split; [|intros; now apply live_analysis_split]].
  - intros st chunks apiKey reply clock Hchunks Hkey returned.
    subst returned. unfold LiveApp.stopRecording.
    destruct chunks as [|chunk chunks]; [contradiction|].
    rewrite Hkey. cbn [negb fst snd].
    repeat (split; [reflexivity|]).
    unfold LiveApp.settle. cbn [fst snd].
    unfold LiveApp.analyzeAudioAndDiarize, LiveApp.analysisEnded.
    cbn [LiveApp.recordedBlob LiveApp.setIsSessionFinished LiveApp.setStatus
         LiveApp.setActiveTranscriptId LiveApp.analysisStarted LiveApp.setErrorMsg
         LiveApp.setRecordedBlob].
    rewrite Hkey. cbn [negb].
    destruct (LiveApp.diarize (recordingOf (chunk :: chunks)) reply clock)
      as [effects [entries|m]]; reflexivity.
  - intros st apiKey reply clock returned. now repeat split.
Qed.

(** Two chunks are recorded and the service answers with a dialogue. *)
Lemma live_stop_leaves_analysis_under_way_example :
  let chunks := [Blob.mk [1; 2] "audio/webm"; Blob.mk [3] "audio/webm"] in
  let recording := LiveApp.onopen LiveApp.initial in
  let returned := LiveApp.stopRecording recording chunks (Some "key") in
  snd returned = Some (Blob.mk [1; 2; 3] "audio/webm")
  /\ LiveApp.status (fst returned) = IDLE
  /\ ids (LiveApp.transcripts
            (fst (@LiveApp.settle exampleRuntime returned
                    (Responded (Some dialogueResponse)) (fun _ => 7))))
     = ["post-process-0"; "post-process-1"].
Proof.
  intros chunks recording returned.
  destruct (proj1 (live_stop_leaves_analysis_under_way exampleRuntime)
              recording chunks (Some "key") (Responded (Some dialogueResponse))
              (fun _ => 7))
    as (Hblob & _ & Hidle & _ & _ & _ & _ & _ & _ & Hend);
    [discriminate | reflexivity |].
  split; [exact Hblob|]. split; [exact Hidle|].
  fold returned in Hend. rewrite Hend. reflexivity.
Defined.

(** X13.  A start that fails can be tried again.  When [startRecording]
    has a key and its [try] block throws (no microphone interface, a refused
    microphone, a later step that fails), [src/App.tsx] ends with status
    [IDLE] and an error message that is never empty, having emptied the
    transcript and the summary; the live-merging component ends with status
    [ERROR] and the message of the error, transcript and summary kept.  In
    both, a page that showed the start button before the click shows it
    after the failure.  When the block completes, the status is
    [CONNECTING] and neither component shows the start button. *)
Theorem failed_start_can_be_retried :
  (forall st apiKey outcome,
      truthyOpt apiKey = true -> outcome <> SrcApp.Connected ->
      let st' := SrcApp.startRecording st apiKey outcome in
      SrcApp.status st' = IDLE
      /\ (exists message, SrcApp.errorMsg st' = Some message /\ message <> "")
      /\ SrcApp.transcripts st' = [] /\ SrcApp.summary st' = ""
      /\ (SrcApp.canStartRecording st = true ->
          SrcApp.canStartRecording st' = true))
  /\ (forall st apiKey outcome,
         truthyOpt apiKey = true -> outcome <> LiveApp.Connected ->
         let st' := LiveApp.startRecording st apiKey outcome in
         LiveApp.status st' = ERROR
         /\ (exists message, LiveApp.errorMsg st' = Some message)
         /\ LiveApp.transcripts st' = LiveApp.transcripts st
         /\ LiveApp.summary st' = LiveApp.summary st
         /\ (LiveApp.canStartRecording st = true ->
             LiveApp.canStartRecording st' = true))
  /\ (forall st apiKey,
         truthyOpt apiKey = true ->
         SrcApp.status (SrcApp.startRecording st apiKey SrcApp.Connected)
         = CONNECTING
         /\ SrcApp.canStartRecording
              (SrcApp.startRecording st apiKey SrcApp.Connected) = false)
  /\ (forall st apiKey,
         truthyOpt apiKey = true ->
         LiveApp.status (LiveApp.startRecording st apiKey LiveApp.Connected)
         = CONNECTING
         /\ LiveApp.canStartRecording
              (LiveApp.startRecording st apiKey LiveApp.Connected) = false).
Proof.
  split; [|split; [|split]].
  - intros st apiKey outcome Hkey Hout st'. subst st'.
    unfold SrcApp.startRecording. rewrite Hkey. cbn [negb].
    assert (Hstart : forall message,
               SrcApp.canStartRecording st = true ->
               SrcApp.canStartRecording
                 (SrcApp.setStatus IDLE
                    (SrcApp.setErrorMsg message
                       (SrcApp.setStatus CONNECTING
                          (SrcApp.setSummary ""
                             (SrcApp.setTranscripts []
                                (SrcApp.setErrorMsg None st)))))) = true).
    { intros message Hstart. unfold SrcApp.canStartRecording in *.
      cbn. apply andb_prop in Hstart as [Hstart Hpost].
      apply andb_prop in Hstart as [Hfin _]. now rewrite Hfin, Hpost. }
    destruct outcome as [err|message|]; [| |contradiction].
    + split; [reflexivity|]. split.
      { eexists. split; [reflexivity|].
        apply textOr_shown. discriminate. }
      split; [reflexivity|]. split; [reflexivity|]. apply Hstart.
    + split; [reflexivity|]. split.
      { eexists. split; [reflexivity|].
        apply textOr_shown. discriminate. }
      split; [reflexivity|]. split; [reflexivity|]. apply Hstart.
  - intros st apiKey outcome Hkey Hout st'. subst st'.
    unfold LiveApp.startRecording. rewrite Hkey. cbn [negb].
    assert (Hstart : forall message,
               LiveApp.canStartRecording st = true ->
               LiveApp.canStartRecording
                 (LiveApp.setStatus ERROR
                    (LiveApp.setErrorMsg message
                       (LiveApp.setActiveTranscriptId None
                          (LiveApp.setRecordedBlob None
                             (LiveApp.setErrorMsg None
                                (LiveApp.setStatus CONNECTING st)))))) = true).
    { intros message Hstart. unfold LiveApp.canStartRecording in *.
      cbn. apply andb_prop in Hstart as [Hstart Hfin].
      apply andb_prop in Hstart as [_ Hpost]. now rewrite Hfin, Hpost. }
    destruct outcome as [|err|message|]; [| | |contradiction];
      (split; [reflexivity|]); (split; [eexists; reflexivity|]);
      (split; [reflexivity|]); (split; [reflexivity|]); apply Hstart.
  - intros st apiKey Hkey. unfold SrcApp.startRecording. rewrite Hkey.
    cbn [negb]. split; [reflexivity|].
    unfold SrcApp.canStartRecording. cbn. now rewrite andb_false_r.
  - intros st apiKey Hkey. unfold LiveApp.startRecording. rewrite Hkey.
    cbn [negb]. split; [reflexivity|].
    unfold LiveApp.canStartRecording. cbn. reflexivity.
Qed.

(** The microphone is refused on a page that holds a summary. *)
Lemma failed_start_can_be_retried_example :
  let refused :=
    SrcApp.MicrophoneRefused
      {| errorName := "NotAllowedError"; errorMessage := Some "Permission denied" |} in
  let st := SrcApp.setSummary "yesterday's summary" SrcApp.initial in
  let st' := SrcApp.startRecording st (Some "key") refused in
  SrcApp.status st' = IDLE
  /\ SrcApp.errorMsg st'
     = Some "マイクの使用が許可されていません。ブラウザの設定でマイクへのアクセスを許可してください。"
  /\ SrcApp.summary st' = ""
  /\ SrcApp.canStartRecording st' = true.
Proof.
  intros refused st st'.
  destruct (proj1 failed_start_can_be_retried st (Some "key") refused)
    as (Hidle & _ & _ & Hsum & Hagain); [reflexivity | discriminate |].
  split; [exact Hidle|]. split; [reflexivity|]. split; [exact Hsum|].
  now apply Hagain.
Defined.

(** X14.  The diarization request carries the recording, byte for byte.
    When the stop button of [src/App.tsx] is clicked on a recording page
    with a key, one request is sent, whose inline part is declared
    [audio/webm] and whose text decodes to the bytes of the chunks joined in
    the order they were delivered; the session is then finished and the
    status is back to [IDLE].  In the live-merging component the analysis
    that [stopRecording] leaves under way sends the same kind of request
    whenever the encoded recording has at most [19 * 1024 * 1024]
    characters. *)
Theorem diarization_request_carries_the_recording :
  forall (runtime : JsRuntime) (chunks : list Blob.t),
    Forall isByte (concat (map Blob.bytes chunks)) ->
    (forall st apiKey reply clock,
        SrcApp.status st = RECORDING -> truthyOpt apiKey = true ->
        let result := SrcApp.stopRecording st (Some chunks) apiKey reply clock in
        (exists request data prompt,
            snd result = [GenerateContent request]
            /\ parts request = [InlineData "audio/webm" data; TextPart prompt]
            /\ atob data = concat (map Blob.bytes chunks))
        /\ SrcApp.status (fst result) = IDLE
        /\ SrcApp.isSessionFinished (fst result) = true
        /\ SrcApp.recordedBlob (fst result) = Some (recordingOf chunks))
    /\ (forall st apiKey reply clock,
           chunks <> [] -> truthyOpt apiKey = true ->
           4 * ((Z.of_nat (length (concat (map Blob.bytes chunks))) + 2) / 3)
           <= 19 * 1024 * 1024 ->
           exists request data prompt,
             snd (LiveApp.settle (LiveApp.stopRecording st chunks apiKey)
                    reply clock)
             = [GenerateContent request]
             /\ parts request = [InlineData "audio/webm" data; TextPart prompt]
             /\ atob data = concat (map Blob.bytes chunks)).
Proof.
  intros runtime chunks Hbytes.
  assert (Hdecode :
            atob (audioUtils.arrayBufferToBase64 (concat (map Blob.bytes chunks)))
            = concat (map Blob.bytes chunks)).
  { unfold audioUtils.arrayBufferToBase64. rewrite fold_snoc_id, app_nil_l.
    now apply atob_btoa. }
  split.
  - intros st apiKey reply clock Hrec Hkey result. subst result.
    unfold SrcApp.stopRecording, SrcApp.stopRecordingSeen. rewrite Hrec.
    rewrite (bool_decide_eq_true_2 (RECORDING = RECORDING)) by reflexivity.
    cbn [negb andb]. unfold SrcApp.analyzeAudioAndDiarize.
    rewrite Hkey. cbn [negb].
    destruct (SrcApp.diarize (recordingOf chunks) reply clock)
      as [effects completion] eqn:Hd.
    unfold SrcApp.diarize in Hd. injection Hd as <- _.
    split.
    { destruct completion; cbn [snd]; do 3 eexists;
        (split; [reflexivity|]); (split; [reflexivity|]); exact Hdecode. }
    destruct completion; now repeat split.
  - intros st apiKey reply clock Hchunks Hkey Hsize.
    unfold LiveApp.stopRecording.
    destruct chunks as [|chunk chunks]; [contradiction|].
    rewrite Hkey. cbn [negb]. unfold LiveApp.settle. cbn [fst snd].
    unfold LiveApp.analysisEnded.
    destruct (LiveApp.diarize (recordingOf (chunk :: chunks)) reply clock)
      as [effects completion] eqn:Hd.
    unfold LiveApp.diarize in Hd.
    rewrite bool_decide_eq_false_2 in Hd.
    + injection Hd as <- _. cbn [snd]. do 3 eexists.
      split; [reflexivity|]. split; [reflexivity|]. exact Hdecode.
    + rewrite arrayBufferToBase64_length. unfold LiveApp.MAX_BASE64_LENGTH.
      cbn [Blob.bytes recordingOf]. lia.
Qed.

(** Two chunks of a recording. *)
Lemma diarization_request_carries_the_recording_example :
  let chunks := [Blob.mk [72; 105] "audio/webm"; Blob.mk [33] "audio/webm"] in
  let recording :=
    SrcApp.onopen
      (SrcApp.startRecording SrcApp.initial (Some "key") SrcApp.Connected) in
  Forall isByte (concat (map Blob.bytes chunks))
  /\ exists request data prompt,
       snd (@SrcApp.stopRecording exampleRuntime recording (Some chunks)
              (Some "key") (Rejected "503") (fun _ => 0))
       = [GenerateContent request]
       /\ parts request = [InlineData "audio/webm" data; TextPart prompt]
       /\ atob data = [72; 105; 33].
Proof.
  intros chunks recording.
  assert (Hbytes : Forall isByte (concat (map Blob.bytes chunks))).
  { repeat constructor; unfold isByte; lia. }
  split; [exact Hbytes|].
  exact (proj1 (proj1 (diarization_request_carries_the_recording exampleRuntime
                         chunks Hbytes)
                  recording (Some "key") (Rejected "503") (fun _ => 0)
                  eq_refl eq_refl)).
Defined.

(** ** What [TranscriptView] exports and shows *)

Section CsvExport.
Context `{JsRuntime}.
Variable toShortTime : Z -> string.

Lemma append_snoc_char (a : string) c u :
  (a +:+ String c EmptyString) +:+ u = a +:+ String c u.
Proof. now rewrite append_assoc3. Qed.

(** A bare field is read up to the character that follows it. *)
Lemma parse_plain u : forall field row rest,
  plainField u = true ->
  parseCsv Plain field row (u +:+ rest) = parseCsv Plain (field +:+ u) row rest.
Proof.
  induction u as [|c u IH]; intros field row rest Hu.
  - change (EmptyString +:+ rest) with rest. now rewrite append_empty_r.
  - cbn [plainField] in Hu.
    apply andb_prop in Hu as [Hu Hrest]. apply andb_prop in Hu as [Hu Hnl].
    apply andb_prop in Hu as [Hcomma Hquote].
    apply negb_true_iff in Hcomma, Hquote, Hnl.
    change (String c u +:+ rest) with (String c (u +:+ rest)).
    cbn [parseCsv]. rewrite Hcomma, Hnl, Hquote.
    rewrite (IH _ _ _ Hrest). now rewrite append_snoc_char.
Qed.

(** A quoted field is read back as the text that was escaped. *)
Lemma parse_quoted text : forall field row rest,
  parseCsv InQuotes field row (TranscriptView.escapeQuotes text +:+ rest)
  = parseCsv InQuotes (field +:+ text) row rest.
Proof.
  induction text as [|c text IH]; intros field row rest.
  - change (TranscriptView.escapeQuotes EmptyString +:+ rest) with rest.
    now rewrite append_empty_r.
  - cbn [TranscriptView.escapeQuotes].
    destruct (Ascii.eqb c TranscriptView.quote) eqn:Hc.
    + change (String c (String c (TranscriptView.escapeQuotes text)) +:+ rest)
        with (String c (String c (TranscriptView.escapeQuotes text +:+ rest))).
      cbn [parseCsv]. rewrite Hc. rewrite IH. now rewrite append_snoc_char.
    + change (String c (TranscriptView.escapeQuotes text) +:+ rest)
        with (String c (TranscriptView.escapeQuotes text +:+ rest)).
      cbn [parseCsv]. rewrite Hc. rewrite IH. now rewrite append_snoc_char.
Qed.

Lemma csvSpeaker_plain speaker :
  plainField (TranscriptView.csvSpeaker speaker) = true.
Proof.
  unfold TranscriptView.csvSpeaker.
  destruct (strictEqStr speaker "Staff"); [reflexivity|].
  destruct (strictEqStr speaker "Client"); reflexivity.
Qed.

(** The line of an entry whose text is a string. *)
Lemma csvLine_text t text :
  TranscriptItem.text t = JStr text ->
  TranscriptView.csvLine toShortTime t
  = Normal (toShortTime (TranscriptItem.timestamp t) +:+ ","
            +:+ TranscriptView.csvSpeaker (TranscriptItem.speaker t) +:+ ","
            +:+ (dq +:+ TranscriptView.escapeQuotes text +:+ dq) +:+ nl).
Proof. intros Ht. unfold TranscriptView.csvLine. now rewrite Ht. Qed.

(** One line of the file is read as one record. *)
Lemma parse_line t text rest :
  TranscriptItem.text t = JStr text ->
  plainField (toShortTime (TranscriptItem.timestamp t)) = true ->
  parseCsv Plain EmptyString []
    ((toShortTime (TranscriptItem.timestamp t) +:+ ","
      +:+ TranscriptView.csvSpeaker (TranscriptItem.speaker t) +:+ ","
      +:+ (dq +:+ TranscriptView.escapeQuotes text +:+ dq) +:+ nl) +:+ rest)
  = cons (csvRecord toShortTime t) <$> parseCsv Plain EmptyString [] rest.
Proof.
  intros Ht Htime. rewrite !append_assoc3.
  rewrite (parse_plain _ _ _ _ Htime).
  change ("," +:+ TranscriptView.csvSpeaker (TranscriptItem.speaker t) +:+ ","
          +:+ dq +:+ TranscriptView.escapeQuotes text +:+ dq +:+ nl +:+ rest)
    with (String ","%char
            (TranscriptView.csvSpeaker (TranscriptItem.speaker t)
             +:+ String ","%char
                   (String TranscriptView.quote
                      (TranscriptView.escapeQuotes text
                       +:+ String TranscriptView.quote
                             (String newline rest))))).
  cbn [parseCsv]. change (Ascii.eqb "," ",") with true. cbv iota.
  rewrite (parse_plain _ _ _ _ (csvSpeaker_plain _)).
  cbn [parseCsv]. change (Ascii.eqb "," ",") with true. cbv iota.
  cbn [parseCsv].
  change (Ascii.eqb TranscriptView.quote ",") with false.
  change (Ascii.eqb TranscriptView.quote newline) with false.
  change (Ascii.eqb TranscriptView.quote TranscriptView.quote) with true.
  change (String.eqb EmptyString EmptyString) with true. cbv iota.
  rewrite parse_quoted. cbn [parseCsv].
  change (Ascii.eqb TranscriptView.quote TranscriptView.quote) with true.
  change (Ascii.eqb newline TranscriptView.quote) with false.
  change (Ascii.eqb newline ",") with false.
  change (Ascii.eqb newline newline) with true. cbv iota.
  unfold csvRecord. rewrite Ht. reflexivity.
Qed.

(** The loop of [handleDownloadCsv] adds the lines after the header. *)
Lemma csvContent_lines ts : forall csv,
  Forall (fun t => exists text, TranscriptItem.text t = JStr text) ts ->
  exists lines,
    fold_left
      (fun acc t =>
         csv ← acc; line ← TranscriptView.csvLine toShortTime t;
         Normal (csv +:+ line))
      ts (Normal csv)
    = Normal (csv +:+ lines)
    /\ forall rest,
         Forall (fun t => plainField (toShortTime (TranscriptItem.timestamp t))
                          = true) ts ->
         parseCsv Plain EmptyString [] (lines +:+ rest)
         = app (map (csvRecord toShortTime) ts)
             <$> parseCsv Plain EmptyString [] rest.
Proof.
  induction ts as [|t ts IH]; intros csv Htext.
  - exists EmptyString. split; [cbn; now rewrite append_empty_r|].
    intros rest _. cbn [map app]. change (EmptyString +:+ rest) with rest.
    now destruct (parseCsv Plain EmptyString [] rest).
  - apply Forall_cons_1 in Htext as [[text Ht] Htext].
    cbn [fold_left]. rewrite (csvLine_text t text Ht).
    cbn [mbind Completion_bind].
    match goal with
    | |- context [Normal (csv +:+ ?l)] => set (line := l)
    end.
    destruct (IH (csv +:+ line) Htext) as (lines & Hfold & Hparse).
    exists (line +:+ lines). split.
    + rewrite Hfold. now rewrite append_assoc3.
    + intros rest Hplain. apply Forall_cons_1 in Hplain as [Htime Hplain].
      rewrite append_assoc3. subst line.
      rewrite (parse_line t text _ Ht Htime), (Hparse rest Hplain).
      cbn [map app]. now destruct (parseCsv Plain EmptyString [] rest).
Qed.

(** An entry whose text is not a string stops the export. *)
Lemma csvContent_throws ts : forall acc,
  (exists m, acc = Throw m)
  \/ Exists (fun t => forall text, TranscriptItem.text t <> JStr text) ts ->
  exists m,
    fold_left
      (fun acc t =>
         csv ← acc; line ← TranscriptView.csvLine toShortTime t;
         Normal (csv +:+ line))
      ts acc
    = Throw m.
Proof.
  induction ts as [|t ts IH]; intros acc Hwhy.
  - destruct Hwhy as [Hacc|Hex]; [exact Hacc | inversion Hex].
  - cbn [fold_left]. apply IH.
    destruct Hwhy as [[m ->]|Hex]; [left; now exists m|].
    destruct acc as [csv|m]; [|left; now exists m].
    apply Exists_cons in Hex as [Ht|Hex]; [left | now right].
    cbn [mbind Completion_bind]. unfold TranscriptView.csvLine.
    destruct (TranscriptItem.text t) eqn:E;
      try (exists typeErrorMessage; reflexivity).
    now contradiction (Ht s).
Qed.

End CsvExport.

(** X15.  The CSV export reads back as the transcript.  When the text of
    every entry is a string and the times written by the browser hold no
    comma, quote or line feed, the content built by [handleDownloadCsv] is
    well-formed CSV whose records are the header and then, for each entry in
    order, its time, the name of its speaker and its text, whatever commas,
    quotes and line feeds the text holds.  The file downloaded is that
    content after the byte order mark, under a name made of the first ten
    characters of the ISO date.  On an empty transcript nothing is
    downloaded; an entry whose text is not a string stops the export with a
    [TypeError] and nothing is downloaded. *)
Theorem csv_export_reads_back :
  forall (runtime : JsRuntime) (toShortTime : Z -> string),
  (forall ts,
      Forall (fun t => exists text, TranscriptItem.text t = JStr text) ts ->
      Forall (fun t => plainField (toShortTime (TranscriptItem.timestamp t)) = true)
        ts ->
      exists csv,
        TranscriptView.csvContent toShortTime ts = Normal csv
        /\ readCsv csv
           = Some (["時刻"; "話者"; "内容"] :: map (csvRecord toShortTime) ts)
        /\ (ts <> [] ->
            forall isoDate,
              TranscriptView.handleDownloadCsv toShortTime ts isoDate
              = Normal
                  (Some {| TranscriptView.downloadName :=
                             "面談記録_" +:+ String.substring 0 10 isoDate
                             +:+ ".csv";
                           TranscriptView.downloadType := "text/csv;charset=utf-8;";
                           TranscriptView.downloadContent :=
                             TranscriptView.bom +:+ csv |})))
  /\ (forall isoDate,
         TranscriptView.handleDownloadCsv toShortTime [] isoDate = Normal None)
  /\ (forall ts isoDate,
         Exists (fun t => forall text, TranscriptItem.text t <> JStr text) ts ->
         exists m,
           TranscriptView.handleDownloadCsv toShortTime ts isoDate = Throw m).
Proof.
  intros runtime toShortTime. split; [|split].
  - intros ts Htext Hplain.
    destruct (csvContent_lines toShortTime ts TranscriptView.csvHeader Htext)
      as (lines & Hfold & Hparse).
    exists (TranscriptView.csvHeader +:+ lines).
    split; [exact Hfold|]. split.
    + unfold readCsv.
      assert (Hhead : forall rest,
                 parseCsv Plain EmptyString [] (TranscriptView.csvHeader +:+ rest)
                 = cons ["時刻"; "話者"; "内容"]
                     <$> parseCsv Plain EmptyString [] rest) by reflexivity.
      rewrite Hhead.
      rewrite <- (append_empty_r lines), (Hparse EmptyString Hplain).
      cbn. now rewrite app_nil_r.
    + intros Hts isoDate. unfold TranscriptView.handleDownloadCsv.
      destruct ts as [|t ts]; [contradiction|]. cbn [length Nat.eqb].
      unfold TranscriptView.csvContent. now rewrite Hfold.
  - reflexivity.
  - intros ts isoDate Hex. unfold TranscriptView.handleDownloadCsv.
    destruct ts as [|t ts]; [inversion Hex|]. cbn [length Nat.eqb].
    destruct (csvContent_throws toShortTime (t :: ts)
                (Normal TranscriptView.csvHeader) (or_intror Hex)) as (m & Hm).
    exists m. unfold TranscriptView.csvContent. now rewrite Hm.
Qed.

(** A transcript of two entries; the text of the second holds a comma, a
    quote and a line feed. *)
Lemma csv_export_reads_back_example :
  let awkward := "yes, " +:+ dq +:+ "fine" +:+ dq +:+ nl +:+ "thanks" in
  let ts :=
    [TranscriptItem.mk "auto-0" (JStr "Staff") (JStr "good morning") 7 true;
     TranscriptItem.mk "auto-1" (JStr "Client") (JStr awkward) 8 true] in
  exists csv,
    @TranscriptView.csvContent exampleRuntime (fun _ => "10:30") ts = Normal csv
    /\ readCsv csv
       = Some [["時刻"; "話者"; "内容"];
               ["10:30"; "支援員"; "good morning"];
               ["10:30"; "利用者"; awkward]].
Proof.
  intros awkward ts.
  destruct (proj1 (csv_export_reads_back exampleRuntime (fun _ => "10:30")) ts)
    as (csv & Hcsv & Hread & _).
  - repeat constructor; eexists; reflexivity.
  - repeat constructor.
  - exists csv. split; [exact Hcsv | exact Hread].
Defined.

(** ** The reply of the diarization request *)

Section Cleaning.

Lemma fromFirst_skip c pre rest :
  without c pre = true ->
  SrcApp.fromFirst c (pre +:+ String c rest) = Some (String c rest).
Proof.
  induction pre as [|a pre IH]; intros Hpre.
  - change (EmptyString +:+ String c rest) with (String c rest).
    cbn [SrcApp.fromFirst]. now rewrite Ascii.eqb_refl.
  - cbn [without] in Hpre. apply andb_prop in Hpre as [Ha Hpre].
    apply negb_true_iff in Ha.
    change (String a pre +:+ String c rest)
      with (String a (pre +:+ String c rest)).
    cbn [SrcApp.fromFirst]. rewrite Ha. now apply IH.
Qed.

Lemma fromFirst_none c s : without c s = true -> SrcApp.fromFirst c s = None.
Proof.
  induction s as [|a s IH]; intros Hs; [reflexivity|].
  cbn [without] in Hs. apply andb_prop in Hs as [Ha Hs].
  apply negb_true_iff in Ha. cbn [SrcApp.fromFirst]. rewrite Ha. now apply IH.
Qed.

Lemma fromFirst_without c d s : forall t,
  SrcApp.fromFirst c s = Some t -> without d s = true -> without d t = true.
Proof.
  induction s as [|a s IH]; intros t Hfind Hs; [discriminate|].
  cbn [SrcApp.fromFirst] in Hfind. destruct (Ascii.eqb a c).
  - injection Hfind as <-. exact Hs.
  - cbn [without] in Hs. apply andb_prop in Hs as [_ Hs]. now apply IH.
Qed.

Lemma throughLast_none c s : without c s = true -> SrcApp.throughLast c s = None.
Proof.
  induction s as [|a s IH]; intros Hs; [reflexivity|].
  cbn [without] in Hs. apply andb_prop in Hs as [Ha Hs].
  apply negb_true_iff in Ha. cbn [SrcApp.throughLast].
  now rewrite (IH Hs), Ha.
Qed.

Lemma throughLast_found c inner post :
  without c post = true ->
  SrcApp.throughLast c (inner +:+ String c post)
  = Some (inner +:+ String c EmptyString).
Proof.
  intros Hpost. induction inner as [|a inner IH].
  - change (EmptyString +:+ String c post) with (String c post).
    cbn [SrcApp.throughLast]. rewrite (throughLast_none _ _ Hpost).
    now rewrite Ascii.eqb_refl.
  - change (String a inner +:+ String c post)
      with (String a (inner +:+ String c post)).
    cbn [SrcApp.throughLast]. now rewrite IH.
Qed.

Lemma textOr_some s : textOr (Some s) "" = s.
Proof.
  unfold textOr, truthy. destruct (String.eqb_spec s ""); [now subst | reflexivity].
Qed.

Lemma matchArray_found pre inner post :
  without "["%char pre = true -> without "]"%char post = true ->
  SrcApp.matchArray (pre +:+ "[" +:+ inner +:+ "]" +:+ post)
  = Some ("[" +:+ inner +:+ "]").
Proof.
  intros Hpre Hpost. unfold SrcApp.matchArray.
  change (pre +:+ "[" +:+ inner +:+ "]" +:+ post)
    with (pre +:+ String "["%char (inner +:+ String "]"%char post)).
  rewrite (fromFirst_skip _ _ _ Hpre), (throughLast_found _ _ _ Hpost).
  reflexivity.
Qed.

End Cleaning.

(** X16.  Text around the array of a diarization reply is dropped.  When
    the reply of the service is an array text, from an opening to a closing
    square bracket, with before it a text that holds no opening bracket and
    after it a text that holds no closing bracket (prose, a Markdown fence),
    [src/App.tsx] parses the array text alone, and the analysis ends as it
    would on the bare array.  A reply that holds no opening bracket, or no
    closing bracket, is parsed as what is left of it once the fences are
    removed and it is trimmed. *)
Theorem diarization_reply_array_is_extracted :
  forall runtime : JsRuntime,
  (forall pre inner post,
      without "["%char pre = true -> without "]"%char post = true ->
      let array := "[" +:+ inner +:+ "]" in
      SrcApp.cleanJsonText (pre +:+ array +:+ post) = array
      /\ (forall st apiKey blob clock,
             SrcApp.analyzeAudioAndDiarize st apiKey blob
               (Responded (Some (pre +:+ array +:+ post))) clock
             = SrcApp.analyzeAudioAndDiarize st apiKey blob
                 (Responded (Some array)) clock))
  /\ (forall text,
         without "["%char text = true \/ without "]"%char text = true ->
         SrcApp.cleanJsonText text = trim (stripFences text)).
Proof.
  intros runtime. split.
  - intros pre inner post Hpre Hpost array.
    assert (Hclean : forall before after,
               without "["%char before = true -> without "]"%char after = true ->
               SrcApp.cleanJsonText (before +:+ array +:+ after) = array).
    { intros before after Hb Ha. unfold SrcApp.cleanJsonText. subst array.
      rewrite !append_assoc3.
      now rewrite (matchArray_found before inner after Hb Ha). }
    split; [now apply Hclean|].
    intros st apiKey blob clock.
    unfold SrcApp.analyzeAudioAndDiarize, SrcApp.diarize.
    rewrite !textOr_some, (Hclean pre post Hpre Hpost).
    specialize (Hclean EmptyString EmptyString eq_refl eq_refl).
    change (EmptyString +:+ array +:+ EmptyString)
      with (array +:+ EmptyString) in Hclean.
    rewrite append_empty_r in Hclean. now rewrite Hclean.
  - intros text Hwhy. unfold SrcApp.cleanJsonText, SrcApp.matchArray.
    destruct Hwhy as [Hopen|Hclose].
    + now rewrite (fromFirst_none _ _ Hopen).
    + destruct (SrcApp.fromFirst "["%char text) as [[|open rest]|] eqn:Hfind;
        try reflexivity.
      pose proof (fromFirst_without _ "]"%char _ _ Hfind Hclose) as Hrest.
      cbn [without] in Hrest. apply andb_prop in Hrest as [_ Hrest].
      now rewrite (throughLast_none _ _ Hrest).
Qed.

(** An array inside a Markdown fence. *)
Lemma diarization_reply_array_is_extracted_example :
  @SrcApp.cleanJsonText exampleRuntime
    ("```json" +:+ nl +:+ "[1, 2]" +:+ nl +:+ "```")
  = "[1, 2]".
Proof.
  exact (proj1 (proj1 (diarization_reply_array_is_extracted exampleRuntime)
                  ("```json" +:+ nl) "1, 2" (nl +:+ "```") eq_refl eq_refl)).
Defined.

(** ** From the panel to the summary request *)

Section Templates.

(** The ids of the templates are distinct: each is found by its id. *)
Lemma templates_found t :
  In t TEMPLATES -> findTemplate (SummaryTemplate.id t) = Some t.
Proof.
  intros Hin.
  assert (Hall : map (fun t => findTemplate (SummaryTemplate.id t)) TEMPLATES
                 = map Some TEMPLATES) by (vm_compute; reflexivity).
  apply In_nth_error in Hin as [n Hn].
  pose proof (map_nth_error (fun t => findTemplate (SummaryTemplate.id t)) n
                TEMPLATES Hn) as Hfound.
  rewrite Hall, (map_nth_error Some n TEMPLATES Hn) in Hfound.
  now injection Hfound.
Qed.

Lemma panel_step_selected st e :
  (exists t, In t TEMPLATES
             /\ SummaryTemplate.id t = SummaryPanel.selectedTemplate st) ->
  exists t, In t TEMPLATES
            /\ SummaryTemplate.id t
               = SummaryPanel.selectedTemplate (SummaryPanel.step st e).
Proof.
  intros Hst. destruct e as [index|value]; cbn [SummaryPanel.step].
  - destruct (nth_error TEMPLATES index) as [t|] eqn:Ht; [|exact Hst].
    exists t. split; [now apply nth_error_In in Ht | reflexivity].
  - exact Hst.
Qed.

Lemma panel_run_selected events : forall st,
  (exists t, In t TEMPLATES
             /\ SummaryTemplate.id t = SummaryPanel.selectedTemplate st) ->
  exists t, In t TEMPLATES
            /\ SummaryTemplate.id t
               = SummaryPanel.selectedTemplate (SummaryPanel.run st events).
Proof.
  induction events as [|e events IH]; intros st Hst; [exact Hst|].
  unfold SummaryPanel.run. cbn [fold_left].
  apply (IH (SummaryPanel.step st e)). now apply panel_step_selected.
Qed.

(** A series without a click on a template keeps the template, and a
    series without typing keeps the instruction. *)
Lemma panel_run_no_click events : forall st,
  (forall index, ~ In (SummaryPanel.ClickTemplate index) events) ->
  SummaryPanel.selectedTemplate (SummaryPanel.run st events)
  = SummaryPanel.selectedTemplate st.
Proof.
  induction events as [|e events IH]; intros st Hno; [reflexivity|].
  unfold SummaryPanel.run. cbn [fold_left].
  fold (SummaryPanel.run (SummaryPanel.step st e) events).
  rewrite IH by (intros index Hin; apply (Hno index); now right).
  destruct e as [index|value]; [|reflexivity].
  exfalso. apply (Hno index). now left.
Qed.

Lemma panel_run_no_typing events : forall st,
  (forall value, ~ In (SummaryPanel.TypeInstruction value) events) ->
  SummaryPanel.customInstruction (SummaryPanel.run st events)
  = SummaryPanel.customInstruction st.
Proof.
  induction events as [|e events IH]; intros st Hno; [reflexivity|].
  unfold SummaryPanel.run. cbn [fold_left].
  fold (SummaryPanel.run (SummaryPanel.step st e) events).
  rewrite IH by (intros value Hin; apply (Hno value); now right).
  destruct e as [index|value].
  - cbn [SummaryPanel.step]. now destruct (nth_error TEMPLATES index).
  - exfalso. apply (Hno value). now left.
Qed.

Lemma panel_run_app st events more :
  SummaryPanel.run st (events ++ more)
  = SummaryPanel.run (SummaryPanel.run st events) more.
Proof. unfold SummaryPanel.run. apply fold_left_app. Qed.

End Templates.

(** X17.  The template selected in the panel is the one whose prompt is
    sent.  After any series of clicks on the template buttons and of typing
    in the instruction box, the id held by [SummaryPanel] is the id of one
    template of [TEMPLATES], and [generateSummary] called with it finds
    that template: the text part of the request of [src/App.tsx] starts
    with the heading of the instructions, the prompt of the template, the
    heading of the additional instructions and the instruction typed; that
    of the live-merging component starts with the prompt of the template.
    The template held is the one of the button clicked last, whatever is
    typed afterwards, and the first template when no button was clicked;
    the instruction is the text typed last, whatever is clicked
    afterwards, and empty when nothing was typed. *)
Theorem selected_template_prompt_is_sent :
  forall runtime : JsRuntime,
  (forall events,
      let panel := SummaryPanel.run SummaryPanel.initial events in
      exists t,
        In t TEMPLATES
        /\ SummaryTemplate.id t = SummaryPanel.selectedTemplate panel
        /\ findTemplate (SummaryPanel.selectedTemplate panel) = Some t
        /\ (forall st, exists more others,
               parts (SrcApp.summaryRequest st
                        (SummaryPanel.selectedTemplate panel)
                        (SummaryPanel.customInstruction panel))
               = TextPart (nl +:+ "【指示】" +:+ nl +:+ SummaryTemplate.prompt t
                           +:+ nl +:+ nl +:+ "【追加指示】" +:+ nl
                           +:+ SummaryPanel.customInstruction panel
                           +:+ nl +:+ nl +:+ "【会話ログ】" +:+ nl +:+ more)
                 :: others)
        /\ (forall st, exists more others,
               parts (LiveApp.summaryRequest st
                        (SummaryPanel.selectedTemplate panel)
                        (SummaryPanel.customInstruction panel))
               = TextPart (SummaryTemplate.prompt t +:+ nl +:+ more) :: others))
  /\ (forall events index t later,
         nth_error TEMPLATES index = Some t ->
         (forall other, ~ In (SummaryPanel.ClickTemplate other) later) ->
         SummaryPanel.selectedTemplate
           (SummaryPanel.run SummaryPanel.initial
              (events ++ SummaryPanel.ClickTemplate index :: later))
         = SummaryTemplate.id t)
  /\ (forall events value later,
         (forall other, ~ In (SummaryPanel.TypeInstruction other) later) ->
         SummaryPanel.customInstruction
           (SummaryPanel.run SummaryPanel.initial
              (events ++ SummaryPanel.TypeInstruction value :: later))
         = value)
  /\ (forall events,
         (forall index, ~ In (SummaryPanel.ClickTemplate index) events) ->
         SummaryPanel.selectedTemplate
           (SummaryPanel.run SummaryPanel.initial events)
         = "monitoring")
  /\ (forall events,
         (forall value, ~ In (SummaryPanel.TypeInstruction value) events) ->
         SummaryPanel.customInstruction
           (SummaryPanel.run SummaryPanel.initial events)
         = "").
Proof.
  intros runtime. split; [|split; [|split; [|split]]].
  - intros events panel.
    destruct (panel_run_selected events SummaryPanel.initial) as (t & Hin & Hid).
    { eexists. split; [left; reflexivity | reflexivity]. }
    fold panel in Hid. exists t.
    assert (Hfind : findTemplate (SummaryPanel.selectedTemplate panel) = Some t).
    { rewrite <- Hid. now apply templates_found. }
    split; [exact Hin|]. split; [exact Hid|]. split; [exact Hfind|]. split.
    + intros st. unfold SrcApp.summaryRequest. cbn [parts]. rewrite Hfind.
      destruct (List.filter SrcApp.isTextDocument (SrcApp.documents st))
        as [|d docs].
      * eexists _, _. reflexivity.
      * rewrite (fold_blocks
                   (fun d => "--- " +:+ RagDocument.name d +:+ " ---" +:+ nl
                             +:+ RagDocument.content d +:+ nl +:+ nl)).
        rewrite !append_assoc3. eexists _, _. reflexivity.
    + intros st. unfold LiveApp.summaryRequest. cbn [parts]. rewrite Hfind.
      eexists _, _. reflexivity.
  - intros events index t later Ht Hlater.
    change (events ++ SummaryPanel.ClickTemplate index :: later)%list
      with (events ++ [SummaryPanel.ClickTemplate index] ++ later)%list.
    rewrite !panel_run_app, (panel_run_no_click later _ Hlater).
    unfold SummaryPanel.run at 1. cbn [fold_left SummaryPanel.step].
    now rewrite Ht.
  - intros events value later Hlater.
    change (events ++ SummaryPanel.TypeInstruction value :: later)%list
      with (events ++ [SummaryPanel.TypeInstruction value] ++ later)%list.
    rewrite !panel_run_app, (panel_run_no_typing later _ Hlater).
    reflexivity.
  - intros events Hno. now rewrite (panel_run_no_click events _ Hno).
  - intros events Hno. now rewrite (panel_run_no_typing events _ Hno).
Qed.

(** An instruction is typed, then the second and the third template are
    clicked. *)
Lemma selected_template_prompt_is_sent_example :
  let panel :=
    SummaryPanel.run SummaryPanel.initial
      [SummaryPanel.TypeInstruction "short, please";
       SummaryPanel.ClickTemplate 1%nat; SummaryPanel.ClickTemplate 2%nat] in
  SummaryPanel.selectedTemplate panel = "review"
  /\ SummaryPanel.customInstruction panel = "short, please".
Proof.
  destruct (selected_template_prompt_is_sent exampleRuntime)
    as (_ & Hclick & Htyped & _).
  split.
  - refine (Hclick [SummaryPanel.TypeInstruction "short, please";
                    SummaryPanel.ClickTemplate 1%nat] 2%nat _ [] eq_refl _).
    intros other [].
  - refine (Htyped [] "short, please"
              [SummaryPanel.ClickTemplate 1%nat; SummaryPanel.ClickTemplate 2%nat]
              _).
    intros other [E|[E|[]]]; discriminate E.
Defined.

(** ** How a speaker is named *)

Section SpeakerNames.

Lemma strictEqStr_true v s : strictEqStr v s = true <-> v = JStr s.
Proof.
  destruct v; cbn [strictEqStr]; try (split; intros; discriminate).
  rewrite String.eqb_eq. split; [now intros -> | now intros [= ->]].
Qed.

Lemma append_cancel_l (a b c : string) : a +:+ b = a +:+ c -> b = c.
Proof.
  induction a as [|x a IH]; intros Heq; [exact Heq|].
  apply IH. now injection Heq.
Qed.

End SpeakerNames.

(** X18.  How a speaker is named, and where the names agree.  The label
    shown beside an entry by [TranscriptView] and the speaker column written
    by [handleDownloadCsv] are the same for [Staff], for [Client] and for
    [AI].  Any other speaker is shown as it is on the page and written [AI]
    in the file, so that the two are the same text exactly for those three
    speakers.  The line written for an entry in the summary prompt of the
    live-merging component names [Staff] as the file does and every other
    speaker, [AI] included, as the file names [Client]: it names the
    speaker as the file does exactly for [Staff] and [Client]. *)
Theorem speaker_names_agree :
  forall runtime : JsRuntime,
  (TranscriptView.getSpeakerLabel (JStr "Staff") = JStr "支援員"
   /\ TranscriptView.csvSpeaker (JStr "Staff") = "支援員"
   /\ TranscriptView.getSpeakerLabel (JStr "Client") = JStr "利用者"
   /\ TranscriptView.csvSpeaker (JStr "Client") = "利用者"
   /\ TranscriptView.getSpeakerLabel (JStr "AI") = JStr "AI"
   /\ TranscriptView.csvSpeaker (JStr "AI") = "AI")
  /\ (forall role,
         role <> JStr "Staff" -> role <> JStr "Client" -> role <> JStr "AI" ->
         TranscriptView.getSpeakerLabel role = role
         /\ TranscriptView.csvSpeaker role = "AI")
  /\ (forall role,
         TranscriptView.getSpeakerLabel role
         = JStr (TranscriptView.csvSpeaker role)
         <-> (role = JStr "Staff" \/ role = JStr "Client" \/ role = JStr "AI"))
  /\ (forall t,
         TranscriptItem.speaker t = JStr "Staff" ->
         LiveApp.transcriptLine t
         = "[" +:+ toLocaleTimeString (TranscriptItem.timestamp t) +:+ "] "
           +:+ "支援員: " +:+ ToString (TranscriptItem.text t))
  /\ (forall t,
         TranscriptItem.speaker t <> JStr "Staff" ->
         LiveApp.transcriptLine t
         = "[" +:+ toLocaleTimeString (TranscriptItem.timestamp t) +:+ "] "
           +:+ "利用者: " +:+ ToString (TranscriptItem.text t))
  /\ (forall t,
         LiveApp.transcriptLine t
         = "[" +:+ toLocaleTimeString (TranscriptItem.timestamp t) +:+ "] "
           +:+ TranscriptView.csvSpeaker (TranscriptItem.speaker t) +:+ ": "
           +:+ ToString (TranscriptItem.text t)
         <-> (TranscriptItem.speaker t = JStr "Staff"
              \/ TranscriptItem.speaker t = JStr "Client")).
Proof.
  intros runtime.
  split; [now repeat split|]. split; [|split; [|split; [|split]]].
  - intros role Hstaff Hclient Hai.
    unfold TranscriptView.getSpeakerLabel, TranscriptView.csvSpeaker.
    destruct (strictEqStr role "Staff") eqn:E1;
      [now apply strictEqStr_true in E1|].
    destruct (strictEqStr role "Client") eqn:E2;
      [now apply strictEqStr_true in E2|].
    destruct (strictEqStr role "AI") eqn:E3;
      [now apply strictEqStr_true in E3|].
    now split.
  - intros role.
    unfold TranscriptView.getSpeakerLabel, TranscriptView.csvSpeaker.
    destruct (strictEqStr role "Staff") eqn:Hstaff.
    { apply strictEqStr_true in Hstaff. split; [now left | reflexivity]. }
    destruct (strictEqStr role "Client") eqn:Hclient.
    { apply strictEqStr_true in Hclient. split; [right; now left | reflexivity]. }
    destruct (strictEqStr role "AI") eqn:Hai.
    { apply strictEqStr_true in Hai. split; [right; now right | reflexivity]. }
    split.
    + intros ->. discriminate Hai.
    + intros [->| [->| ->]]; discriminate.
  - intros t Hspeaker. unfold LiveApp.transcriptLine. now rewrite Hspeaker.
  - intros t Hspeaker. unfold LiveApp.transcriptLine.
    destruct (strictEqStr (TranscriptItem.speaker t) "Staff") eqn:Hstaff;
      [|reflexivity].
    now apply strictEqStr_true in Hstaff.
  - intros t. unfold LiveApp.transcriptLine, TranscriptView.csvSpeaker.
    destruct (strictEqStr (TranscriptItem.speaker t) "Staff") eqn:Hstaff.
    { apply strictEqStr_true in Hstaff. split; [now left | reflexivity]. }
    destruct (strictEqStr (TranscriptItem.speaker t) "Client") eqn:Hclient.
    { apply strictEqStr_true in Hclient. split; [now right | reflexivity]. }
    split.
    + intros Heq. apply append_cancel_l, append_cancel_l, append_cancel_l in Heq.
      discriminate Heq.
    + intros [Hs|Hs]; rewrite Hs in *; discriminate.
Qed.

(** An entry spoken by the assistant, and a speaker outside the three
    roles. *)
Lemma speaker_names_agree_example :
  let t := TranscriptItem.mk "1" (JStr "AI") (JStr "hello") 7 true in
  TranscriptView.getSpeakerLabel (TranscriptItem.speaker t) = JStr "AI"
  /\ @LiveApp.transcriptLine exampleRuntime t = "[7] 利用者: hello"
  /\ TranscriptView.getSpeakerLabel (JStr "Nurse") = JStr "Nurse"
  /\ TranscriptView.csvSpeaker (JStr "Nurse") = "AI".
Proof.
  intros t.
  destruct (speaker_names_agree exampleRuntime)
    as (_ & Hother & Hsame & _ & Hclient & _).
  split; [|split].
  - apply Hsame. right; now right.
  - apply (Hclient t). discriminate.
  - apply Hother; discriminate.
Defined.
